(** * Parcel map viewer: point-in-polygon filter, viewport fetch, polygon drawing

    A shallow embedding of the map component (OSMParcelMap):
    - [Geo]: the ray-casting test [pointInPolygon] on IEEE binary64 numbers
      (JavaScript numbers), and [Exact]: the same code over exact rationals;
    - [State], [step]: the component's refs, React state and handlers
      ([redrawParcels], [fetchParcelsForView], [finishDrawing], ...), as
      state-passing functions over one record. *)

From Stdlib Require Import String List Bool ZArith QArith Floats Lia Lqa.
From Stdlib Require Import Permutation.
Import ListNotations.

(** ** Arithmetic used by the ray-casting loop

    [pointInPolygon] only needs subtraction, multiplication, division,
    addition, the strict comparison [<] and JavaScript truthiness of a number
    (for [(yj - yi) || 1e-12]).  The operations are bundled so that the very
    same loop can be read over binary64 numbers (what runs) and over exact
    rationals (what the geometry means). *)

Record NumOps (num : Type) := mkNumOps {
  n_sub : num -> num -> num;
  n_mul : num -> num -> num;
  n_div : num -> num -> num;
  n_add : num -> num -> num;
  n_ltb : num -> num -> bool;      (* JavaScript [a < b] *)
  n_falsy : num -> bool;           (* [!a]: 0, -0 and NaN are falsy *)
  n_eps : num                      (* the literal 1e-12 *)
}.
Arguments mkNumOps {num}.
Arguments n_sub {num}.
Arguments n_mul {num}.
Arguments n_div {num}.
Arguments n_add {num}.
Arguments n_ltb {num}.
Arguments n_falsy {num}.
Arguments n_eps {num}.

(** A geographic point, as Leaflet's [{ lat, lng }]. *)
Module LatLng.
Record t (num : Type) := mk { lat : num; lng : num }.
Arguments mk {num}.
Arguments lat {num}.
Arguments lng {num}.
End LatLng.

Module Generic.
Section Loop.
Context {num : Type} (ops : NumOps num).

Local Notation "a - b" := (n_sub ops a b).
Local Notation "a * b" := (n_mul ops a b).
Local Notation "a / b" := (n_div ops a b).
Local Notation "a + b" := (n_add ops a b).
Local Notation "a < b" := (n_ltb ops a b).
Local Notation "a > b" := (n_ltb ops b a).

(** [a || b] on numbers. *)
Definition js_or (a b : num) : num := if n_falsy ops a then b else a.

(** The denominator of the crossing abscissa, [(yj - yi) || 1e-12]. *)
Definition denominator (yi yj : num) : num := js_or (yj - yi) (n_eps ops).

(** [yi > lat !== yj > lat]: the edge straddles the horizontal line
    through the test point. *)
Definition straddles (lat yi yj : num) : bool := xorb (yi > lat) (yj > lat).

(** The abscissa at which the edge meets that line, as the code
    computes it. *)
Definition crossing (lat xi yi xj yj : num) : num :=
    ((xj - xi) * (lat - yi)) / denominator yi yj + xi.

(** The [intersect] flag of one iteration, for [pi = polygon[i]] and
    [pj = polygon[j]]. *)
Definition intersect (lon lat : num) (pi pj : LatLng.t num) : bool :=
    let xi := LatLng.lng pi in
    let yi := LatLng.lat pi in
    let xj := LatLng.lng pj in
    let yj := LatLng.lat pj in
    straddles lat yi yj && (lon < crossing lat xi yi xj yj).

(** One iteration of the [for] loop: the state carried from one
    iteration to the next is [(j, inside)], and the update [j = i++]
    leaves [j] equal to the index just visited. *)
Definition loop_body (lon lat : num) (polygonLatLngs : list (LatLng.t num))
      (st : nat * bool) (i : nat) : nat * bool :=
    let '(j, inside) := st in
    match nth_error polygonLatLngs i, nth_error polygonLatLngs j with
    | Some pi, Some pj =>
        (i, if intersect lon lat pi pj then negb inside else inside)
    | _, _ => (i, inside)
    end.

(** [for (let i = 0, j = n - 1; i < n; j = i++)]: [i] runs over
    [0 .. n-1]; nothing runs when [n = 0]. *)
Definition pointInPolygon (lon lat : num)
      (polygonLatLngs : list (LatLng.t num)) : bool :=
    let n := length polygonLatLngs in
    snd (fold_left (loop_body lon lat polygonLatLngs) (seq 0 n)
                   (Nat.pred n, false)).

(** *** The loop as a machine

    The same loop, one step at a time, with the array reads exposed: a
    read outside the array yields [undefined], and taking [.lng] of it
    throws. *)
Record LoopState := mkLoop { l_i : nat; l_j : nat; l_inside : bool }.

Inductive Outcome :=
  | Running (st : LoopState)
  | Returned (inside : bool)
  | Thrown.

Definition loop_step (lon lat : num) (polygonLatLngs : list (LatLng.t num))
      (st : LoopState) : Outcome :=
    if Nat.ltb (l_i st) (length polygonLatLngs) then
      match nth_error polygonLatLngs (l_i st),
            nth_error polygonLatLngs (l_j st) with
      | Some pi, Some pj =>
          Running (mkLoop (S (l_i st)) (l_i st)
                     (if intersect lon lat pi pj
                      then negb (l_inside st) else l_inside st))
      | _, _ => Thrown
      end
    else Returned (l_inside st).

(** [run fuel st]: at most [fuel] evaluations of the loop condition;
    [None] when the fuel runs out before the loop exits. *)
Fixpoint run (fuel : nat) (lon lat : num)
      (polygonLatLngs : list (LatLng.t num)) (st : LoopState)
      : option Outcome :=
    match fuel with
    | O => None
    | S fuel' =>
        match loop_step lon lat polygonLatLngs st with
        | Running st' => run fuel' lon lat polygonLatLngs st'
        | out => Some out
        end
    end.

Definition loop_init (polygonLatLngs : list (LatLng.t num)) : LoopState :=
    mkLoop 0 (Nat.pred (length polygonLatLngs)) false.

End Loop.
End Generic.

(** ** The code on JavaScript numbers (IEEE 754 binary64) *)
Module Geo.

(** Truthiness of a number: [0], [-0] and [NaN] are falsy. *)
Definition falsy (x : float) : bool :=
    PrimFloat.eqb x 0%float || negb (PrimFloat.eqb x x).

(** The binary64 value of the literal [1e-12]. *)
Definition EPS : float := 0x1.19799812dea11p-40%float.

Definition float_ops : NumOps float :=
    mkNumOps PrimFloat.sub PrimFloat.mul PrimFloat.div PrimFloat.add
             PrimFloat.ltb falsy EPS.

Definition LatLng := LatLng.t float.

Definition denominator := Generic.denominator float_ops.
Definition straddles := Generic.straddles float_ops.
Definition crossing := Generic.crossing float_ops.
Definition intersect := Generic.intersect float_ops.
Definition pointInPolygon : float -> float -> list LatLng -> bool :=
    Generic.pointInPolygon float_ops.

End Geo.

(** ** The same loop over exact rationals

    What the ray-casting computation means geometrically: the code of
    [Generic] read with exact arithmetic.  A binary64 number that is neither
    infinite nor NaN denotes the rational [value]. *)
Module Exact.

Definition Qltb (a b : Q) : bool :=
  match a ?= b with Lt => true | _ => false end.

Definition Q_ops : NumOps Q :=
  mkNumOps Qminus Qmult Qdiv Qplus Qltb (fun a => Qeq_bool a 0)
           (1 # 1000000000000).

Definition Point := LatLng.t Q.

Definition straddles := Generic.straddles Q_ops.
Definition crossing := Generic.crossing Q_ops.
Definition intersect := Generic.intersect Q_ops.
Definition pointInPolygon : Q -> Q -> list Point -> bool :=
  Generic.pointInPolygon Q_ops.

(** Every finite binary64 number is an integer multiple of [2^-1074], the
    smallest positive one: [(-1)^s * m * 2^e], with [-1074 <= e], is
    [SFscaled / 2^1074]. *)
Definition grid : positive := 2 ^ 1074.

Definition SFscaled (f : spec_float) : Z :=
  match f with
  | S754_finite s m e =>
      let k := (Z.pos m * 2 ^ (e + 1074))%Z in
      if s then (- k)%Z else k
  | _ => 0%Z
  end.

Definition SFvalue (f : spec_float) : Q := SFscaled f # grid.

Definition SFfinite (f : spec_float) : bool :=
  match f with
  | S754_zero _ | S754_finite _ _ _ => true
  | _ => false
  end.

(** The rational a finite binary64 number denotes (0 for [-0]). *)
Definition value (x : float) : Q := SFvalue (Prim2SF x).

(** Neither infinite nor NaN. *)
Definition finite (x : float) : bool := SFfinite (Prim2SF x).

Definition point (p : Geo.LatLng) : Point :=
  LatLng.mk (value (LatLng.lat p)) (value (LatLng.lng p)).

Definition finite_point (p : Geo.LatLng) : bool :=
  finite (LatLng.lat p) && finite (LatLng.lng p).

(** Twice the signed area of the triangle [a b p], with [lng] as abscissa
    and [lat] as ordinate: positive when [p] lies to the left of the
    directed line from [a] to [b]. *)
Definition orient (a b p : Point) : Q :=
  (LatLng.lng b - LatLng.lng a) * (LatLng.lat p - LatLng.lat a)
  - (LatLng.lat b - LatLng.lat a) * (LatLng.lng p - LatLng.lng a).

(** [p] lies in the open triangle [a b c] (whichever way it is wound). *)
Definition strictly_inside_triangle (a b c p : Point) : Prop :=
  (0 < orient a b p /\ 0 < orient b c p /\ 0 < orient c a p) \/
  (orient a b p < 0 /\ orient b c p < 0 /\ orient c a p < 0).

(** [p] lies outside the closed triangle [a b c], which is not flat. *)
Definition strictly_outside_triangle (a b c p : Point) : Prop :=
  (0 < orient a b c /\
   (orient a b p < 0 \/ orient b c p < 0 \/ orient c a p < 0)) \/
  (orient a b c < 0 /\
   (0 < orient a b p \/ 0 < orient b c p \/ 0 < orient c a p)).

(** The pairs [(polygon[i], polygon[j])] the loop visits: each vertex with
    its cyclic predecessor. *)
Definition edges {A : Type} (ring : list A) : list (A * A) :=
  match rev ring with
  | [] => []
  | l :: _ => combine ring (l :: removelast ring)
  end.

(** *** Polygons cut into triangles

    The interior of a simple polygon, in elementary terms: the polygon is
    cut into triangles by diagonals, and a point is strictly inside when it
    is strictly inside one triangle, or on the open diagonal shared by two
    of them, and strictly outside all the others. *)

Definition Edge : Type := Point * Point.
Definition Triangle : Type := Point * Point * Point.

Definition triangle_ring (t : Triangle) : list Point :=
  let '(a, b, c) := t in [a; b; c].

(** The same rational, written the same way. *)
Definition same_Q (a b : Q) : bool :=
  Z.eqb (Qnum a) (Qnum b) && Pos.eqb (Qden a) (Qden b).

Definition same_point (p q : Point) : bool :=
  same_Q (LatLng.lat p) (LatLng.lat q) && same_Q (LatLng.lng p) (LatLng.lng q).

(** The same segment, in either direction. *)
Definition same_edge (e f : Edge) : bool :=
  same_point (fst e) (fst f) && same_point (snd e) (snd f)
  || same_point (fst e) (snd f) && same_point (snd e) (fst f).

(** Takes the first segment equal to [e] out of the list. *)
Fixpoint remove_edge (e : Edge) (l : list Edge) : option (list Edge) :=
  match l with
  | [] => None
  | f :: t =>
      if same_edge e f then Some t
      else match remove_edge e t with
           | Some t' => Some (f :: t')
           | None => None
           end
  end.

(** The segments of the list pair off: each occurs an even number of
    times. *)
Fixpoint cancel (fuel : nat) (l : list Edge) : bool :=
  match l with
  | [] => true
  | e :: t =>
      match fuel with
      | O => false
      | S fuel' =>
          match remove_edge e t with
          | Some t' => cancel fuel' t'
          | None => false
          end
      end
  end.

(** The triangles [ts] cut up the ring: every side of the ring is a side of
    one triangle, and every other side of a triangle is shared by two. *)
Definition triangulates (ts : list Triangle) (ring : list Point) : bool :=
  let es := edges ring ++ flat_map (fun t => edges (triangle_ring t)) ts in
  cancel (List.length es) es.

(** The two triangles have the same three sides. *)
Definition same_triangle (t u : Triangle) : bool :=
  cancel 6 (edges (triangle_ring t) ++ edges (triangle_ring u)).

Definition inside (p : Point) (t : Triangle) : Prop :=
  let '(a, b, c) := t in strictly_inside_triangle a b c p.

Definition outside (p : Point) (t : Triangle) : Prop :=
  let '(a, b, c) := t in strictly_outside_triangle a b c p.

(** The scalar product of [p - o] and [q - o]. *)
Definition dot (o p q : Point) : Q :=
  (LatLng.lng p - LatLng.lng o) * (LatLng.lng q - LatLng.lng o)
  + (LatLng.lat p - LatLng.lat o) * (LatLng.lat q - LatLng.lat o).

(** [p] lies on the segment from [a] to [b], ends excluded. *)
Definition on_open_segment (a b p : Point) : Prop :=
  orient a b p == 0 /\ 0 < dot a p b /\ 0 < dot b p a.

Inductive inside_triangulated (ts : list Triangle) (p : Point) : Prop :=
| in_triangle (l1 l2 : list Triangle) (t : Triangle) :
    ts = l1 ++ t :: l2 ->
    inside p t ->
    Forall (outside p) (l1 ++ l2) ->
    inside_triangulated ts p
| on_diagonal (l1 l2 l3 : list Triangle) (t1 t2 : Triangle)
              (a b c d : Point) :
    ts = l1 ++ t1 :: l2 ++ t2 :: l3 ->
    same_triangle t1 (a, b, c) = true ->
    same_triangle t2 (a, b, d) = true ->
    on_open_segment a b p ->
    0 < orient a b c -> orient a b d < 0 ->
    Forall (outside p) (l1 ++ l2 ++ l3) ->
    inside_triangulated ts p.

(** Whether an odd number of the segments is counted by the loop. *)
Fixpoint parity (lon lat : Q) (l : list Edge) : bool :=
  match l with
  | [] => false
  | e :: t => xorb (intersect lon lat (fst e) (snd e)) (parity lon lat t)
  end.

(** Whether the loop answers true on an odd number of the triangles. *)
Definition tri_parity (lon lat : Q) (ts : list Triangle) : bool :=
  fold_right (fun t r => xorb (pointInPolygon lon lat (triangle_ring t)) r)
    false ts.

(** On the edge [(pi, pj)], when it straddles the latitude of the test
    point, comparing [lon] with the crossing abscissa as computed in binary64
    gives the answer that comparing with the exact abscissa gives. *)
Definition edge_agrees (lon lat : float) (e : Geo.LatLng * Geo.LatLng) : Prop :=
  let xi := LatLng.lng (fst e) in
  let yi := LatLng.lat (fst e) in
  let xj := LatLng.lng (snd e) in
  let yj := LatLng.lat (snd e) in
  Geo.straddles lat yi yj = true ->
  PrimFloat.ltb lon (Geo.crossing lat xi yi xj yj)
  = Qltb (value lon)
         (crossing (value lat) (value xi) (value yi) (value xj) (value yj)).

Definition rounding_agrees (lon lat : float) (ring : list Geo.LatLng) : Prop :=
  Forall (edge_agrees lon lat) (edges ring).

End Exact.

(** ** The map component *)

(** A parcel geometry: a GeoJSON polygon or multipolygon, handed to the
    rendering library as it is.  The column is either such an object (truthy)
    or [null]. *)
Inductive GeoJSON :=
| GeoPolygon (coordinates : list (list (float * float)))
| GeoMultiPolygon (coordinates : list (list (list (float * float)))).

Module ParcelRow.
Record t := mk {
  id : Z;
  geometry : option GeoJSON;
  zoning : option string;
  usedesc : option string;
  lat : option float;
  lon : option float
}.
End ParcelRow.

Definition FETCH_ZOOM_THRESHOLD : Z := 16.
Definition DRAW_ZOOM_THRESHOLD : Z := 16.

(** [map.getBounds()]. *)
Record Bounds := mkBounds {
  getSouth : float;
  getNorth : float;
  getWest : float;
  getEast : float
}.

(** *** The rendering library's polygon

    What [L.polygon(latlngs)] and [layer.setLatLngs(latlngs)] make of the
    points they are given, as Leaflet's [Polygon._convertLatLngs] does it:
    the points are copied, and the last one is dropped when it equals the
    first, [LatLng.equals] allowing a margin of [1.0E-9] on each
    coordinate. *)
Module Leaflet.

(** [Math.max(a, b)]: NaN when either is NaN, [+0] for the two zeros. *)
Definition Math_max (a b : float) : float :=
  if negb (PrimFloat.eqb a a) then a
  else if negb (PrimFloat.eqb b b) then b
  else if PrimFloat.ltb a b then b
  else if PrimFloat.ltb b a then a
  else if PrimFloat.eqb a 0 then PrimFloat.add a b
  else a.

(** The binary64 value of the literal [1.0E-9]. *)
Definition MARGIN : float := 0x1.12e0be826d695p-30%float.

(** [this.equals(obj)]: [Math.max(Math.abs(this.lat - obj.lat),
    Math.abs(this.lng - obj.lng)) <= 1.0E-9]. *)
Definition equals (this obj : Geo.LatLng) : bool :=
  let margin :=
    Math_max
      (PrimFloat.abs (PrimFloat.sub (LatLng.lat this) (LatLng.lat obj)))
      (PrimFloat.abs (PrimFloat.sub (LatLng.lng this) (LatLng.lng obj))) in
  PrimFloat.leb margin MARGIN.

(** [_convertLatLngs(latlngs)] on a flat list of points:
    [if (len >= 2 && result[0].equals(result[len - 1])) result.pop()]. *)
Definition convertLatLngs (latlngs : list Geo.LatLng) : list Geo.LatLng :=
  let result := latlngs in
  let len := List.length result in
  match result with
  | first :: _ =>
      if (2 <=? len)%nat && equals first (last result first)
      then removelast result
      else result
  | [] => result
  end.

End Leaflet.

(** A Leaflet polygon layer: [getLatLngs()] of a polygon built from a flat
    list of points is the one-element array holding the converted ring.  The
    layer keeps its own copy of the points, so later changes to
    [drawPointsRef.current] do not reach it. *)
Record Polygon := mkPolygon {
  layer_id : nat;                     (* which object it is *)
  getLatLngs : list (list Geo.LatLng)
}.

(** [layer.setLatLngs(latlngs)]: the same object, with a new ring. *)
Definition setLatLngs (latlngs : list Geo.LatLng) (layer : Polygon) : Polygon :=
  mkPolygon (layer_id layer) [Leaflet.convertLatLngs latlngs].

(** A query on the remote store, as the client's builder calls spell it. *)
Inductive Filter :=
| f_gt (column : string) (v : float)
| f_lt (column : string) (v : float).

Record Query := mkQuery {
  q_from : string;
  q_select : string;
  q_filters : list Filter;
  q_limit : nat
}.

(** What the awaited query resolves to: [{ data, error }], with
    [error.message] standing for a non-null [error]. *)
Record Response := mkResponse {
  data : option (list ParcelRow.t);
  error : option string
}.

(** The numeric column a filter names. *)
Definition column_value (column : string) (r : ParcelRow.t) : option float :=
  if String.eqb column "lat" then ParcelRow.lat r
  else if String.eqb column "lon" then ParcelRow.lon r
  else None.

(** A row passes [.gt(column, v)] when its column is a number strictly
    greater than [v], and [.lt(column, v)] when strictly less; a null column
    passes neither. *)
Definition filter_holds (f : Filter) (r : ParcelRow.t) : bool :=
  match f with
  | f_gt column v =>
      match column_value column r with
      | Some x => PrimFloat.ltb v x
      | None => false
      end
  | f_lt column v =>
      match column_value column r with
      | Some x => PrimFloat.ltb x v
      | None => false
      end
  end.

Definition selects (q : Query) (r : ParcelRow.t) : bool :=
  forallb (fun f => filter_holds f r) (q_filters q).

(** The component once [init] has built the map: the map view and what is
    drawn on it, the refs, the React state, and what surrounds the component
    (queries sent, queries still awaited, the debounce timer, whether [init]
    has got as far as subscribing to [moveend] and [zoomend]). *)
Record State := mkState {
  map_zoom : Z;                       (* mapRef.current.getZoom() *)
  map_bounds : Bounds;                (* mapRef.current.getBounds() *)
  map_cursor : string;                (* getContainer().style.cursor *)
  map_shapes : list nat;              (* polygon layers on the map, by identity *)
  next_layer : nat;                   (* identity of the next layer object created *)
  parcelsLayer : list GeoJSON;        (* layers of parcelsLayerRef.current *)
  drawButtonDisabled : bool;          (* class leaflet-disabled on the button *)
  parcelsRef : list ParcelRow.t;
  userPolygonRef : option Polygon;
  drawingLayerRef : option Polygon;   (* the dashed preview *)
  drawPointsRef : list Geo.LatLng;
  isDrawingRef : bool;
  showZoomMessageRef : bool;
  hasUserPolygonRef : bool;
  count : nat;
  loading : bool;
  errorMsg : option string;
  showZoomMessage : bool;
  isDrawing : bool;
  hasUserPolygon : bool;
  sent : list Query;                  (* most recent first *)
  awaiting : nat;                     (* queries not yet settled *)
  timeout : bool;                     (* the debounce timer is pending *)
  subscribed : bool                   (* moveend and zoomend are subscribed *)
}.

Definition set_map_zoom (v : Z) (s : State) : State :=
  mkState v (map_bounds s) (map_cursor s) (map_shapes s) (next_layer s)
    (parcelsLayer s) (drawButtonDisabled s) (parcelsRef s) (userPolygonRef s)
    (drawingLayerRef s) (drawPointsRef s) (isDrawingRef s)
    (showZoomMessageRef s) (hasUserPolygonRef s) (count s) (loading s)
    (errorMsg s) (showZoomMessage s) (isDrawing s) (hasUserPolygon s) (sent s)
    (awaiting s) (timeout s) (subscribed s).
Definition set_map_bounds (v : Bounds) (s : State) : State :=
  mkState (map_zoom s) v (map_cursor s) (map_shapes s) (next_layer s)
    (parcelsLayer s) (drawButtonDisabled s) (parcelsRef s) (userPolygonRef s)
    (drawingLayerRef s) (drawPointsRef s) (isDrawingRef s)
    (showZoomMessageRef s) (hasUserPolygonRef s) (count s) (loading s)
    (errorMsg s) (showZoomMessage s) (isDrawing s) (hasUserPolygon s) (sent s)
    (awaiting s) (timeout s) (subscribed s).
Definition set_map_cursor (v : string) (s : State) : State :=
  mkState (map_zoom s) (map_bounds s) v (map_shapes s) (next_layer s)
    (parcelsLayer s) (drawButtonDisabled s) (parcelsRef s) (userPolygonRef s)
    (drawingLayerRef s) (drawPointsRef s) (isDrawingRef s)
    (showZoomMessageRef s) (hasUserPolygonRef s) (count s) (loading s)
    (errorMsg s) (showZoomMessage s) (isDrawing s) (hasUserPolygon s) (sent s)
    (awaiting s) (timeout s) (subscribed s).
Definition set_map_shapes (v : list nat) (s : State) : State :=
  mkState (map_zoom s) (map_bounds s) (map_cursor s) v (next_layer s)
    (parcelsLayer s) (drawButtonDisabled s) (parcelsRef s) (userPolygonRef s)
    (drawingLayerRef s) (drawPointsRef s) (isDrawingRef s)
    (showZoomMessageRef s) (hasUserPolygonRef s) (count s) (loading s)
    (errorMsg s) (showZoomMessage s) (isDrawing s) (hasUserPolygon s) (sent s)
    (awaiting s) (timeout s) (subscribed s).
Definition set_next_layer (v : nat) (s : State) : State :=
  mkState (map_zoom s) (map_bounds s) (map_cursor s) (map_shapes s) v
    (parcelsLayer s) (drawButtonDisabled s) (parcelsRef s) (userPolygonRef s)
    (drawingLayerRef s) (drawPointsRef s) (isDrawingRef s)
    (showZoomMessageRef s) (hasUserPolygonRef s) (count s) (loading s)
    (errorMsg s) (showZoomMessage s) (isDrawing s) (hasUserPolygon s) (sent s)
    (awaiting s) (timeout s) (subscribed s).
Definition set_parcelsLayer (v : list GeoJSON) (s : State) : State :=
  mkState (map_zoom s) (map_bounds s) (map_cursor s) (map_shapes s)
    (next_layer s) v (drawButtonDisabled s) (parcelsRef s) (userPolygonRef s)
    (drawingLayerRef s) (drawPointsRef s) (isDrawingRef s)
    (showZoomMessageRef s) (hasUserPolygonRef s) (count s) (loading s)
    (errorMsg s) (showZoomMessage s) (isDrawing s) (hasUserPolygon s) (sent s)
    (awaiting s) (timeout s) (subscribed s).
Definition set_drawButtonDisabled (v : bool) (s : State) : State :=
  mkState (map_zoom s) (map_bounds s) (map_cursor s) (map_shapes s)
    (next_layer s) (parcelsLayer s) v (parcelsRef s) (userPolygonRef s)
    (drawingLayerRef s) (drawPointsRef s) (isDrawingRef s)
    (showZoomMessageRef s) (hasUserPolygonRef s) (count s) (loading s)
    (errorMsg s) (showZoomMessage s) (isDrawing s) (hasUserPolygon s) (sent s)
    (awaiting s) (timeout s) (subscribed s).
Definition set_parcelsRef (v : list ParcelRow.t) (s : State) : State :=
  mkState (map_zoom s) (map_bounds s) (map_cursor s) (map_shapes s)
    (next_layer s) (parcelsLayer s) (drawButtonDisabled s) v
    (userPolygonRef s) (drawingLayerRef s) (drawPointsRef s) (isDrawingRef s)
    (showZoomMessageRef s) (hasUserPolygonRef s) (count s) (loading s)
    (errorMsg s) (showZoomMessage s) (isDrawing s) (hasUserPolygon s) (sent s)
    (awaiting s) (timeout s) (subscribed s).
Definition set_userPolygonRef (v : option Polygon) (s : State) : State :=
  mkState (map_zoom s) (map_bounds s) (map_cursor s) (map_shapes s)
    (next_layer s) (parcelsLayer s) (drawButtonDisabled s) (parcelsRef s) v
    (drawingLayerRef s) (drawPointsRef s) (isDrawingRef s)
    (showZoomMessageRef s) (hasUserPolygonRef s) (count s) (loading s)
    (errorMsg s) (showZoomMessage s) (isDrawing s) (hasUserPolygon s) (sent s)
    (awaiting s) (timeout s) (subscribed s).
Definition set_drawingLayerRef (v : option Polygon) (s : State) : State :=
  mkState (map_zoom s) (map_bounds s) (map_cursor s) (map_shapes s)
    (next_layer s) (parcelsLayer s) (drawButtonDisabled s) (parcelsRef s)
    (userPolygonRef s) v (drawPointsRef s) (isDrawingRef s)
    (showZoomMessageRef s) (hasUserPolygonRef s) (count s) (loading s)
    (errorMsg s) (showZoomMessage s) (isDrawing s) (hasUserPolygon s) (sent s)
    (awaiting s) (timeout s) (subscribed s).
Definition set_drawPointsRef (v : list Geo.LatLng) (s : State) : State :=
  mkState (map_zoom s) (map_bounds s) (map_cursor s) (map_shapes s)
    (next_layer s) (parcelsLayer s) (drawButtonDisabled s) (parcelsRef s)
    (userPolygonRef s) (drawingLayerRef s) v (isDrawingRef s)
    (showZoomMessageRef s) (hasUserPolygonRef s) (count s) (loading s)
    (errorMsg s) (showZoomMessage s) (isDrawing s) (hasUserPolygon s) (sent s)
    (awaiting s) (timeout s) (subscribed s).
Definition set_isDrawingRef (v : bool) (s : State) : State :=
  mkState (map_zoom s) (map_bounds s) (map_cursor s) (map_shapes s)
    (next_layer s) (parcelsLayer s) (drawButtonDisabled s) (parcelsRef s)
    (userPolygonRef s) (drawingLayerRef s) (drawPointsRef s) v
    (showZoomMessageRef s) (hasUserPolygonRef s) (count s) (loading s)
    (errorMsg s) (showZoomMessage s) (isDrawing s) (hasUserPolygon s) (sent s)
    (awaiting s) (timeout s) (subscribed s).
Definition set_showZoomMessageRef (v : bool) (s : State) : State :=
  mkState (map_zoom s) (map_bounds s) (map_cursor s) (map_shapes s)
    (next_layer s) (parcelsLayer s) (drawButtonDisabled s) (parcelsRef s)
    (userPolygonRef s) (drawingLayerRef s) (drawPointsRef s) (isDrawingRef s)
    v (hasUserPolygonRef s) (count s) (loading s) (errorMsg s)
    (showZoomMessage s) (isDrawing s) (hasUserPolygon s) (sent s) (awaiting s)
    (timeout s) (subscribed s).
Definition set_hasUserPolygonRef (v : bool) (s : State) : State :=
  mkState (map_zoom s) (map_bounds s) (map_cursor s) (map_shapes s)
    (next_layer s) (parcelsLayer s) (drawButtonDisabled s) (parcelsRef s)
    (userPolygonRef s) (drawingLayerRef s) (drawPointsRef s) (isDrawingRef s)
    (showZoomMessageRef s) v (count s) (loading s) (errorMsg s)
    (showZoomMessage s) (isDrawing s) (hasUserPolygon s) (sent s) (awaiting s)
    (timeout s) (subscribed s).
Definition setCount (v : nat) (s : State) : State :=
  mkState (map_zoom s) (map_bounds s) (map_cursor s) (map_shapes s)
    (next_layer s) (parcelsLayer s) (drawButtonDisabled s) (parcelsRef s)
    (userPolygonRef s) (drawingLayerRef s) (drawPointsRef s) (isDrawingRef s)
    (showZoomMessageRef s) (hasUserPolygonRef s) v (loading s) (errorMsg s)
    (showZoomMessage s) (isDrawing s) (hasUserPolygon s) (sent s) (awaiting s)
    (timeout s) (subscribed s).
Definition setLoading (v : bool) (s : State) : State :=
  mkState (map_zoom s) (map_bounds s) (map_cursor s) (map_shapes s)
    (next_layer s) (parcelsLayer s) (drawButtonDisabled s) (parcelsRef s)
    (userPolygonRef s) (drawingLayerRef s) (drawPointsRef s) (isDrawingRef s)
    (showZoomMessageRef s) (hasUserPolygonRef s) (count s) v (errorMsg s)
    (showZoomMessage s) (isDrawing s) (hasUserPolygon s) (sent s) (awaiting s)
    (timeout s) (subscribed s).
Definition setErrorMsg (v : option string) (s : State) : State :=
  mkState (map_zoom s) (map_bounds s) (map_cursor s) (map_shapes s)
    (next_layer s) (parcelsLayer s) (drawButtonDisabled s) (parcelsRef s)
    (userPolygonRef s) (drawingLayerRef s) (drawPointsRef s) (isDrawingRef s)
    (showZoomMessageRef s) (hasUserPolygonRef s) (count s) (loading s) v
    (showZoomMessage s) (isDrawing s) (hasUserPolygon s) (sent s) (awaiting s)
    (timeout s) (subscribed s).
Definition setShowZoomMessage (v : bool) (s : State) : State :=
  mkState (map_zoom s) (map_bounds s) (map_cursor s) (map_shapes s)
    (next_layer s) (parcelsLayer s) (drawButtonDisabled s) (parcelsRef s)
    (userPolygonRef s) (drawingLayerRef s) (drawPointsRef s) (isDrawingRef s)
    (showZoomMessageRef s) (hasUserPolygonRef s) (count s) (loading s)
    (errorMsg s) v (isDrawing s) (hasUserPolygon s) (sent s) (awaiting s)
    (timeout s) (subscribed s).
Definition setIsDrawing (v : bool) (s : State) : State :=
  mkState (map_zoom s) (map_bounds s) (map_cursor s) (map_shapes s)
    (next_layer s) (parcelsLayer s) (drawButtonDisabled s) (parcelsRef s)
    (userPolygonRef s) (drawingLayerRef s) (drawPointsRef s) (isDrawingRef s)
    (showZoomMessageRef s) (hasUserPolygonRef s) (count s) (loading s)
    (errorMsg s) (showZoomMessage s) v (hasUserPolygon s) (sent s)
    (awaiting s) (timeout s) (subscribed s).
Definition setHasUserPolygon (v : bool) (s : State) : State :=
  mkState (map_zoom s) (map_bounds s) (map_cursor s) (map_shapes s)
    (next_layer s) (parcelsLayer s) (drawButtonDisabled s) (parcelsRef s)
    (userPolygonRef s) (drawingLayerRef s) (drawPointsRef s) (isDrawingRef s)
    (showZoomMessageRef s) (hasUserPolygonRef s) (count s) (loading s)
    (errorMsg s) (showZoomMessage s) (isDrawing s) v (sent s) (awaiting s)
    (timeout s) (subscribed s).
Definition set_sent (v : list Query) (s : State) : State :=
  mkState (map_zoom s) (map_bounds s) (map_cursor s) (map_shapes s)
    (next_layer s) (parcelsLayer s) (drawButtonDisabled s) (parcelsRef s)
    (userPolygonRef s) (drawingLayerRef s) (drawPointsRef s) (isDrawingRef s)
    (showZoomMessageRef s) (hasUserPolygonRef s) (count s) (loading s)
    (errorMsg s) (showZoomMessage s) (isDrawing s) (hasUserPolygon s) v
    (awaiting s) (timeout s) (subscribed s).
Definition set_awaiting (v : nat) (s : State) : State :=
  mkState (map_zoom s) (map_bounds s) (map_cursor s) (map_shapes s)
    (next_layer s) (parcelsLayer s) (drawButtonDisabled s) (parcelsRef s)
    (userPolygonRef s) (drawingLayerRef s) (drawPointsRef s) (isDrawingRef s)
    (showZoomMessageRef s) (hasUserPolygonRef s) (count s) (loading s)
    (errorMsg s) (showZoomMessage s) (isDrawing s) (hasUserPolygon s) (sent s)
    v (timeout s) (subscribed s).
Definition set_timeout (v : bool) (s : State) : State :=
  mkState (map_zoom s) (map_bounds s) (map_cursor s) (map_shapes s)
    (next_layer s) (parcelsLayer s) (drawButtonDisabled s) (parcelsRef s)
    (userPolygonRef s) (drawingLayerRef s) (drawPointsRef s) (isDrawingRef s)
    (showZoomMessageRef s) (hasUserPolygonRef s) (count s) (loading s)
    (errorMsg s) (showZoomMessage s) (isDrawing s) (hasUserPolygon s) (sent s)
    (awaiting s) v (subscribed s).
Definition set_subscribed (v : bool) (s : State) : State :=
  mkState (map_zoom s) (map_bounds s) (map_cursor s) (map_shapes s)
    (next_layer s) (parcelsLayer s) (drawButtonDisabled s) (parcelsRef s)
    (userPolygonRef s) (drawingLayerRef s) (drawPointsRef s) (isDrawingRef s)
    (showZoomMessageRef s) (hasUserPolygonRef s) (count s) (loading s)
    (errorMsg s) (showZoomMessage s) (isDrawing s) (hasUserPolygon s) (sent s)
    (awaiting s) (timeout s) v.

(** *** Leaflet primitives on the state *)

(** [L.polygon(latlngs, ...).addTo(map)]: a new layer object, put on the
    map. *)
Definition L_polygon_addTo (latlngs : list Geo.LatLng) (s : State)
    : Polygon * State :=
  let layer := mkPolygon (next_layer s) [Leaflet.convertLatLngs latlngs] in
  (layer,
   set_map_shapes (map_shapes s ++ [layer_id layer])
     (set_next_layer (S (next_layer s)) s)).

(** [layer.remove()]: takes that object off the map. *)
Definition remove (layer : Polygon) (s : State) : State :=
  set_map_shapes
    (List.filter (fun i => negb (Nat.eqb i (layer_id layer))) (map_shapes s)) s.

(** [parcelsLayerRef.current.clearLayers()]. *)
Definition clearLayers (s : State) : State := set_parcelsLayer [] s.

(** The awaited call on the remote store: the query leaves, and the
    function is suspended until [fetchParcelsForView_resume]. *)
Definition send (q : Query) (s : State) : State :=
  set_awaiting (S (awaiting s)) (set_sent (q :: sent s) s).

(** *** The handlers

    [State] describes the component once [init] has built the map, so the
    guards on [mapRef.current], [leafletRef.current],
    [parcelsLayerRef.current] and [drawButtonElRef.current] are passed: the
    handlers below are the code behind them.  Unmounting is not part of the
    model. *)

Definition updateDrawButtonState (s : State) : State :=
  let disabled :=
    showZoomMessageRef s || hasUserPolygonRef s || isDrawingRef s in
  set_drawButtonDisabled disabled s.

(** The ring [redrawParcels] filters with: [ll[0]] when a polygon is
    installed and [ll.length > 0]. *)
Definition filterLatLngs (s : State) : option (list Geo.LatLng) :=
  match userPolygonRef s with
  | Some polygon =>
      match getLatLngs polygon with
      | ring :: _ => Some ring
      | [] => None
      end
  | None => None
  end.

(** The callback of [parcelsRef.current.forEach], on the layers drawn so
    far. *)
Definition draw_parcel (filter : option (list Geo.LatLng))
    (layers : list GeoJSON) (p : ParcelRow.t) : list GeoJSON :=
  match ParcelRow.geometry p with
  | None => layers
  | Some geometry =>
      match filter, ParcelRow.lat p, ParcelRow.lon p with
      | Some ring, Some lat, Some lon =>
          if negb (Geo.pointInPolygon lon lat ring) then layers
          else layers ++ [geometry]
      | _, _, _ => layers ++ [geometry]
      end
  end.

Definition redrawParcels (s : State) : State :=
  let zoom := map_zoom s in
  let s := clearLayers s in
  if (zoom <? DRAW_ZOOM_THRESHOLD)%Z then s
  else
    let filter := filterLatLngs s in
    set_parcelsLayer
      (fold_left (draw_parcel filter) (parcelsRef s) (parcelsLayer s)) s.

(** The query built from the viewport. *)
Definition view_query (bounds : Bounds) : Query :=
  let minLat := getSouth bounds in
  let maxLat := getNorth bounds in
  let minLon := getWest bounds in
  let maxLon := getEast bounds in
  mkQuery "parcel_info3" "id, geometry, zoning, usedesc, lat, lon"
    [f_gt "lat" minLat; f_lt "lat" maxLat; f_gt "lon" minLon; f_lt "lon" maxLon]
    300.

(** [fetchParcelsForView], up to its [await]. *)
Definition fetchParcelsForView (s : State) : State :=
  let zoom := map_zoom s in
  if (zoom <? FETCH_ZOOM_THRESHOLD)%Z then
    let s := setShowZoomMessage true s in
    let s := set_showZoomMessageRef true s in
    let s := set_parcelsRef [] s in
    let s := clearLayers s in
    let s := setCount 0 s in
    updateDrawButtonState s
  else
    let s := setShowZoomMessage false s in
    let s := set_showZoomMessageRef false s in
    let s := updateDrawButtonState s in
    if isDrawingRef s then s
    else
      let s := setLoading true s in
      let s := setErrorMsg None s in
      send (view_query (map_bounds s)) s.

(** The callback [(p) => p.geometry], as a truth value. *)
Definition has_geometry (p : ParcelRow.t) : bool :=
  match ParcelRow.geometry p with
  | Some _ => true
  | None => false
  end.

(** [fetchParcelsForView], from the moment the query settles: the rest of
    the [try] block, then [finally]. *)
Definition fetchParcelsForView_resume (r : Response) (s : State) : State :=
  let s :=
    match error r with
    | Some message =>
        let s := setErrorMsg (Some message) s in
        let s := set_parcelsRef [] s in
        let s := clearLayers s in
        setCount 0 s
    | None =>
        let rows := match data r with Some rows => rows | None => [] end in
        let cleaned := List.filter has_geometry rows in
        let s := set_parcelsRef cleaned s in
        let s := setCount (List.length cleaned) s in
        redrawParcels s
    end in
  setLoading false s.

(** Removes the preview, when there is one, and forgets it. *)
Definition drop_drawingLayer (s : State) : State :=
  match drawingLayerRef s with
  | Some layer => set_drawingLayerRef None (remove layer s)
  | None => s
  end.

Definition finishDrawing (s : State) : State :=
  if negb (isDrawingRef s) then s
  else
    let s := set_isDrawingRef false s in
    let s := setIsDrawing false s in
    let s := set_map_cursor "" s in
    let s := updateDrawButtonState s in
    if (List.length (drawPointsRef s) <? 3)%nat then
      let s := drop_drawingLayer s in
      set_drawPointsRef [] s
    else
      let finalPoints :=
        if (4 <? List.length (drawPointsRef s))%nat
        then firstn 4 (drawPointsRef s)
        else drawPointsRef s in
      let s :=
        match userPolygonRef s with
        | Some old => remove old s
        | None => s
        end in
      let (polygon, s) := L_polygon_addTo finalPoints s in
      let s := set_userPolygonRef (Some polygon) s in
      let s := setHasUserPolygon true s in
      let s := set_hasUserPolygonRef true s in
      let s := updateDrawButtonState s in
      let s := drop_drawingLayer s in
      let s := set_drawPointsRef [] s in
      redrawParcels s.

Definition startDrawing (s : State) : State :=
  if showZoomMessageRef s || hasUserPolygonRef s || isDrawingRef s then s
  else
    let s := set_isDrawingRef true s in
    let s := setIsDrawing true s in
    let s := set_map_cursor "crosshair" s in
    let s := set_drawPointsRef [] s in
    let s := drop_drawingLayer s in
    updateDrawButtonState s.

(** [map.on("click")]. *)
Definition onClick (latlng : Geo.LatLng) (s : State) : State :=
  if negb (isDrawingRef s) then s
  else
    let s := set_drawPointsRef (drawPointsRef s ++ [latlng]) s in
    let s :=
      match drawingLayerRef s with
      | Some layer =>
          set_drawingLayerRef (Some (setLatLngs (drawPointsRef s) layer)) s
      | None =>
          let (layer, s) := L_polygon_addTo (drawPointsRef s) s in
          set_drawingLayerRef (Some layer) s
      end in
    if (4 <=? List.length (drawPointsRef s))%nat then finishDrawing s else s.

(** [map.on("dblclick")]. *)
Definition onDblClick (s : State) : State :=
  if isDrawingRef s then finishDrawing s else s.

(** [map.on("moveend")]: restart the 200 ms timer. *)
Definition onMoveEnd (s : State) : State := set_timeout true s.

(** [map.on("zoomend")]. *)
Definition onZoomEnd (s : State) : State :=
  let z := map_zoom s in
  let show := (z <? FETCH_ZOOM_THRESHOLD)%Z in
  let s := setShowZoomMessage show s in
  let s := set_showZoomMessageRef show s in
  let s := updateDrawButtonState s in
  if negb show then fetchParcelsForView s else clearLayers s.

Definition handleDeletePolygon (s : State) : State :=
  let s :=
    match userPolygonRef s with
    | Some polygon => set_userPolygonRef None (remove polygon s)
    | None => s
    end in
  let s := drop_drawingLayer s in
  let s := set_drawPointsRef [] s in
  let s := set_isDrawingRef false s in
  let s := setIsDrawing false s in
  let s := setHasUserPolygon false s in
  let s := set_hasUserPolygonRef false s in
  let s := redrawParcels s in
  set_drawButtonDisabled false s.

(** *** The component as a transition system *)

Inductive Event :=
| Click (latlng : Geo.LatLng)          (* a click on the map *)
| DblClick                             (* a double click on the map *)
| DrawButton                           (* a click on the draw control *)
| DeleteButton                         (* a click on "Delete polygon" *)
| ViewChange (z : Z) (b : Bounds)      (* the map view has moved *)
| Timer                                (* the debounce timer fires *)
| Settle (r : Response).               (* an awaited query settles *)

(** How the surroundings drive the handlers.  Leaflet ends every change of
    view with [moveend], preceded by [zoomend] when the zoom level changed;
    the component hears them once [init] has subscribed, which it does after
    its own first fetch has settled.  "Delete polygon" is rendered only
    while [hasUserPolygon] holds. *)
Definition step (s : State) (e : Event) : State :=
  match e with
  | Click latlng => onClick latlng s
  | DblClick => onDblClick s
  | DrawButton => startDrawing s
  | DeleteButton => if hasUserPolygon s then handleDeletePolygon s else s
  | ViewChange z b =>
      let zoomed := negb (z =? map_zoom s)%Z in
      let s := set_map_bounds b (set_map_zoom z s) in
      if subscribed s then
        let s := if zoomed then onZoomEnd s else s in
        onMoveEnd s
      else s
  | Timer =>
      if timeout s then fetchParcelsForView (set_timeout false s) else s
  | Settle r =>
      match awaiting s with
      | O => s
      | S n =>
          set_subscribed true
            (fetchParcelsForView_resume r (set_awaiting n s))
      end
  end.

(** [init] up to its first [await]: the map at zoom 16 on the viewport [b],
    nothing drawn, the draw control added, and the initial fetch started. *)
Definition initial (b : Bounds) : State :=
  fetchParcelsForView
    (mkState 16 b "" [] 0 [] false [] None None [] false false false
             0 false None false false false [] 0 false false).

Definition run_events (s : State) (es : list Event) : State :=
  fold_left step es s.

Inductive reachable : State -> Prop :=
| reach_initial : forall b, reachable (initial b)
| reach_step : forall s e, reachable s -> reachable (step s e).

(** *** Vocabulary of the statements *)

(** A parcel is skipped when a filter ring is active, the parcel has both
    centroid coordinates, and the centroid fails [pointInPolygon]. *)
Definition skipped (filter : option (list Geo.LatLng)) (p : ParcelRow.t)
    : bool :=
  match filter, ParcelRow.lat p, ParcelRow.lon p with
  | Some ring, Some lat, Some lon => negb (Geo.pointInPolygon lon lat ring)
  | _, _, _ => false
  end.

(** The geometries of the parcels that have one and are not skipped, in
    cache order. *)
Definition shown (filter : option (list Geo.LatLng))
    (parcels : list ParcelRow.t) : list GeoJSON :=
  flat_map
    (fun p =>
       match ParcelRow.geometry p with
       | Some geometry => if skipped filter p then [] else [geometry]
       | None => []
       end) parcels.

(** The row's centroid lies strictly inside the viewport. *)
Definition strictly_in_view (b : Bounds) (r : ParcelRow.t) : Prop :=
  exists lat lon,
    ParcelRow.lat r = Some lat /\ ParcelRow.lon r = Some lon /\
    PrimFloat.ltb (getSouth b) lat = true /\
    PrimFloat.ltb lat (getNorth b) = true /\
    PrimFloat.ltb (getWest b) lon = true /\
    PrimFloat.ltb lon (getEast b) = true.

Definition layer_ids (layer : option Polygon) : list nat :=
  match layer with
  | Some p => [layer_id p]
  | None => []
  end.

Definition is_some {A : Type} (o : option A) : bool :=
  match o with
  | Some _ => true
  | None => false
  end.

(** A finalized filter polygon is one ring, made by the library from three
    or four submitted vertices. *)
Definition polygon_ok (p : Polygon) : Prop :=
  exists latlngs,
    getLatLngs p = [Leaflet.convertLatLngs latlngs] /\
    (3 <= List.length latlngs)%nat /\ (List.length latlngs <= 4)%nat.

(** What holds of the component between any two events. *)
Record Inv (s : State) : Prop := mkInv {
  inv_count : count s = List.length (parcelsRef s);
  inv_cache : forallb has_geometry (parcelsRef s) = true;
  inv_polygon : forall p, userPolygonRef s = Some p -> polygon_ok p;
  inv_points : (List.length (drawPointsRef s) <= 3)%nat;
  inv_has : hasUserPolygonRef s = is_some (userPolygonRef s);
  inv_preview : isDrawingRef s = false -> drawingLayerRef s = None;
  inv_exclusive : isDrawingRef s = true -> userPolygonRef s = None;
  inv_shapes :
    map_shapes s = layer_ids (userPolygonRef s) ++ layer_ids (drawingLayerRef s);
  inv_fresh :
    forall i, In i (map_shapes s) -> (i < next_layer s)%nat;
  inv_mirror :
    isDrawing s = isDrawingRef s /\
    hasUserPolygon s = hasUserPolygonRef s /\
    showZoomMessage s = showZoomMessageRef s
}.

(** *** Sample data

    A viewport over Phoenix, three rows as the store could return them (the
    second has no geometry), the two ways a query can settle, and four
    clicks. *)
Definition sample_bounds : Bounds :=
  mkBounds 33.25%float 33.5%float (-112.25)%float (-112)%float.

Definition sample_geometry (lat lon : float) : GeoJSON :=
  GeoPolygon
    [[(lon, lat); (lon + 0.125, lat); (lon + 0.125, lat + 0.125);
      (lon, lat + 0.125); (lon, lat)]]%float.

Definition sample_rows : list ParcelRow.t :=
  [ ParcelRow.mk 1 (Some (sample_geometry 33.375 (-112.125)))
      (Some "R-3"%string) (Some "Residential"%string)
      (Some 33.375%float) (Some (-112.125)%float);
    ParcelRow.mk 2 None None None (Some 33.3125%float) (Some (-112.0625)%float);
    ParcelRow.mk 3 (Some (sample_geometry 33.4375 (-112.1875)))
      None None (Some 33.4375%float) (Some (-112.1875)%float) ].

Definition sample_success : Response := mkResponse (Some sample_rows) None.

Definition sample_failure : Response :=
  mkResponse None (Some "connection refused"%string).

Definition P1 : Geo.LatLng := LatLng.mk 33.3125%float (-112.1875)%float.
Definition P2 : Geo.LatLng := LatLng.mk 33.3125%float (-112.0625)%float.
Definition P3 : Geo.LatLng := LatLng.mk 33.40625%float (-112.0625)%float.
Definition P4 : Geo.LatLng := LatLng.mk 33.40625%float (-112.1875)%float.

(** The map at zoom 17 with the sample rows fetched and drawn. *)
Definition sample_loaded : State :=
  run_events (initial sample_bounds)
    [Settle sample_success; ViewChange 17 sample_bounds; Timer;
     Settle sample_success].

(** The same with drawing started and three vertices placed. *)
Definition sample_drawing : State :=
  run_events sample_loaded [DrawButton; Click P1; Click P2; Click P3].

(** The same once the fourth click has finalized the filter polygon. *)
Definition sample_filtered : State := step sample_drawing (Click P4).

(** *** Frames and invariants *)

(** The events that come from the user's hands on the map and its buttons
    ([true]), as against those that come from the view, the timer and the
    remote store. *)
Definition user_event (e : Event) : bool :=
  match e with
  | Click _ | DblClick | DrawButton | DeleteButton => true
  | _ => false
  end.

(** The parcel layer shows what the cache and the filter say, or nothing. *)
Definition rendered_ok (s : State) : Prop :=
  (parcelsLayer s = [] \/
   parcelsLayer s = shown (filterLatLngs s) (parcelsRef s))
  /\ ((map_zoom s < DRAW_ZOOM_THRESHOLD)%Z -> parcelsLayer s = []).

(** Nothing is cached before the first fetch has settled. *)
Definition unsub_ok (s : State) : Prop :=
  subscribed s = false -> parcelsRef s = [].

(** Outside drawing mode no vertex is pending and the cursor is the default
    one; in drawing mode the cursor is the crosshair. *)
Definition mode_ok (s : State) : Prop :=
  (isDrawingRef s = false -> drawPointsRef s = [] /\ map_cursor s = ""%string)
  /\ (isDrawingRef s = true -> map_cursor s = "crosshair"%string).

(** The query is the one [fetchParcelsForView] builds, for some bounds. *)
Definition viewport_query (q : Query) : Prop := exists b, q = view_query b.

(** Only viewport queries were sent, no more are awaited than were sent, and
    the loading flag is off when none is awaited. *)
Definition queries_ok (s : State) : Prop :=
  Forall viewport_query (sent s)
  /\ (awaiting s <= List.length (sent s))%nat
  /\ (awaiting s = 0%nat -> loading s = false).

(** The draw button is as [updateDrawButtonState] left it, or as
    [handleDeletePolygon] left it: enabled, with no polygon and no drawing. *)
Definition button_ok (s : State) : Prop :=
  drawButtonDisabled s
  = (showZoomMessageRef s || hasUserPolygonRef s || isDrawingRef s)
  \/ (drawButtonDisabled s = false
      /\ hasUserPolygonRef s = false /\ isDrawingRef s = false).

(** The loaded map zoomed in and then out below the threshold while the
    queries of the zoom-in are still awaited. *)
Definition sample_zoomed_out : State :=
  run_events sample_loaded
    [ViewChange 18 sample_bounds; ViewChange 14 sample_bounds; Timer].

(** A pan: the view moves and the zoom level stays. *)
Definition pans (s : State) (bs : list Bounds) : list Event :=
  map (ViewChange (map_zoom s)) bs.

(** The fields the drawing handlers have no business with: cache, count,
    queries, timer, flags of the fetch, view and zoom advisory. *)
Definition same_data (s' s : State) : Prop :=
  parcelsRef s' = parcelsRef s
  /\ count s' = count s
  /\ sent s' = sent s
  /\ awaiting s' = awaiting s
  /\ timeout s' = timeout s
  /\ loading s' = loading s
  /\ errorMsg s' = errorMsg s
  /\ map_zoom s' = map_zoom s
  /\ map_bounds s' = map_bounds s
  /\ showZoomMessage s' = showZoomMessage s
  /\ showZoomMessageRef s' = showZoomMessageRef s
  /\ subscribed s' = subscribed s.

(** The fields the view and the remote store have no business with: filter
    polygon, preview, vertices, drawing flags, shapes and cursor. *)
Definition same_drawing (s' s : State) : Prop :=
  userPolygonRef s' = userPolygonRef s
  /\ drawingLayerRef s' = drawingLayerRef s
  /\ drawPointsRef s' = drawPointsRef s
  /\ isDrawingRef s' = isDrawingRef s
  /\ isDrawing s' = isDrawing s
  /\ hasUserPolygonRef s' = hasUserPolygonRef s
  /\ hasUserPolygon s' = hasUserPolygon s
  /\ map_shapes s' = map_shapes s
  /\ next_layer s' = next_layer s
  /\ map_cursor s' = map_cursor s.

(** *** The base-layer toggle *)

(** [type ViewType = "street" | "satellite"]. *)
Inductive ViewType := Street | Satellite.

(** *** What the component puts on screen around the map

    The JSX the component returns, as the list of its texts and buttons: the
    advisory banner under [showZoomMessage], the delete button under
    [hasUserPolygon], and the control panel with the two base-layer buttons,
    the one [viewType] names being highlighted.  The panel's status part is
    empty: [count], [loading] and [errorMsg] are read nowhere. *)
Inductive Element :=
| Text (content : string)
| Button (label : string) (highlighted : bool).

Definition render (viewType : ViewType) (s : State) : list Element :=
  (if showZoomMessage s
   then [Text "Zoom in to view parcel boundaries"] else [])
  ++ (if hasUserPolygon s then [Button "Delete polygon" false] else [])
  ++ [Text "Map controls"; Text "Base layer";
      Button "Street"
        match viewType with Street => true | Satellite => false end;
      Button "Satellite"
        match viewType with Satellite => true | Street => false end].

(** The layers on the Leaflet map, by identity: [map.hasLayer(layer)],
    [map.removeLayer(layer)] and [layer.addTo(map)]. *)
Definition hasLayer (layers : list nat) (layer : nat) : bool :=
  existsb (Nat.eqb layer) layers.

Definition removeLayer (layers : list nat) (layer : nat) : list nat :=
  List.filter (fun i => negb (Nat.eqb i layer)) layers.

Definition addTo (layer : nat) (layers : list nat) : list nat :=
  layers ++ [layer].

(** The effect that follows [viewType]: the layers of [mapRef.current]
    afterwards, [None] standing for a ref that is still [null]. *)
Definition baseLayerEffect (viewType : ViewType) (mapRef : option (list nat))
    (streetLayerRef satelliteLayerRef : option nat) : option (list nat) :=
  match mapRef, streetLayerRef, satelliteLayerRef with
  | Some map, Some street, Some sat =>
      match viewType with
      | Satellite =>
          let map := if hasLayer map street then removeLayer map street else map in
          let map := if negb (hasLayer map sat) then addTo sat map else map in
          Some map
      | Street =>
          let map := if hasLayer map sat then removeLayer map sat else map in
          let map := if negb (hasLayer map street) then addTo street map else map in
          Some map
      end
  | _, _, _ => mapRef
  end.

(** * Properties of the ray-casting loop *)

Section LoopFacts.
Context {num : Type} (ops : NumOps num).

Lemma toggle_xorb (b c : bool) : (if c then negb b else b) = xorb b c.
Proof. destruct b, c; reflexivity. Qed.

(** The loop visits the pairs of [Exact.edges] in order and toggles on each
    one that intersects. *)
Lemma loop_fold (lon lat : num) (ring : list (LatLng.t num)) :
  forall (suf pre : list (LatLng.t num)) (j : nat) (pj : LatLng.t num)
         (inside : bool),
    ring = pre ++ suf ->
    nth_error ring j = Some pj ->
    snd (fold_left (Generic.loop_body ops lon lat ring)
           (seq (List.length pre) (List.length suf)) (j, inside))
    = fold_left
        (fun acc e => xorb acc (Generic.intersect ops lon lat (fst e) (snd e)))
        (combine suf (pj :: removelast suf)) inside.
Proof.
  induction suf as [|x suf' IH]; intros pre j pj inside Hring Hj.
  - reflexivity.
  - cbn [List.length seq fold_left].
    assert (Hx : nth_error ring (List.length pre) = Some x).
    { rewrite Hring, nth_error_app2 by lia. now rewrite Nat.sub_diag. }
    unfold Generic.loop_body at 2. rewrite Hx, Hj, toggle_xorb.
    replace (S (List.length pre)) with (List.length (pre ++ [x]))
      by (rewrite length_app; cbn; lia).
    rewrite (IH (pre ++ [x]) (List.length pre) x).
    + destruct suf' as [|y t]; reflexivity.
    + now rewrite <- app_assoc.
    + exact Hx.
Qed.

Lemma pointInPolygon_edges (lon lat : num) (ring : list (LatLng.t num)) :
  Generic.pointInPolygon ops lon lat ring
  = fold_left (fun acc e => xorb acc (Generic.intersect ops lon lat (fst e) (snd e)))
      (Exact.edges ring) false.
Proof.
  unfold Generic.pointInPolygon, Exact.edges.
  destruct (rev ring) as [|l r] eqn:Hrev.
  - assert (ring = []) as -> by (now apply (f_equal (@rev _)) in Hrev;
      rewrite rev_involutive in Hrev).
    reflexivity.
  - assert (Hring : ring = rev r ++ [l]).
    { apply (f_equal (@rev _)) in Hrev. now rewrite rev_involutive in Hrev. }
    apply (loop_fold lon lat ring ring [] (Nat.pred (List.length ring)) l false eq_refl).
    rewrite Hring, length_app. cbn [List.length].
    rewrite nth_error_app2 by lia.
    replace (Nat.pred (List.length (rev r) + 1) - List.length (rev r))%nat with 0%nat by lia.
    reflexivity.
Qed.

End LoopFacts.

(** * Exact arithmetic: what the loop computes on a triangle *)

Open Scope Q_scope.

Lemma Qltb_lt (a b : Q) : Exact.Qltb a b = true <-> a < b.
Proof. unfold Exact.Qltb. rewrite Qlt_alt. destruct (a ?= b); intuition congruence. Qed.

Lemma Qltb_ge (a b : Q) : Exact.Qltb a b = false <-> b <= a.
Proof.
  destruct (Exact.Qltb a b) eqn:E.
  - apply Qltb_lt in E. split; [discriminate | intro H; exfalso; lra].
  - split; [intros _ | reflexivity].
    destruct (Qlt_le_dec a b) as [H|H]; [|exact H].
    apply Qltb_lt in H. congruence.
Qed.

Lemma div_pos (l n d x : Q) : 0 < d -> (l < n / d + x <-> 0 < n - d * (l - x)).
Proof.
  intro Hd. assert (E : n == (n / d) * d) by (field; lra).
  set (q := n / d) in *. split; intro H; nra.
Qed.

Lemma div_neg (l n d x : Q) : d < 0 -> (l < n / d + x <-> n - d * (l - x) < 0).
Proof.
  intro Hd. assert (E : n == (n / d) * d) by (field; lra).
  set (q := n / d) in *. split; intro H; nra.
Qed.

Lemma Qeq_bool_false (d : Q) : ~ d == 0 -> Qeq_bool d 0 = false.
Proof.
  intro H. destruct (Qeq_bool d 0) eqn:E; [|reflexivity].
  apply Qeq_bool_iff in E. contradiction.
Qed.

Section ExactEdge.
Variables (lon lat : Q) (pi pj : Exact.Point).

Lemma intersect_exact :
  Exact.intersect lon lat pi pj = true <->
  (LatLng.lat pi <= lat /\ lat < LatLng.lat pj /\ 0 < Exact.orient pi pj (LatLng.mk lat lon)) \/
  (LatLng.lat pj <= lat /\ lat < LatLng.lat pi /\ Exact.orient pi pj (LatLng.mk lat lon) < 0).
Proof.
  unfold Exact.intersect, Generic.intersect, Generic.straddles, Generic.crossing,
    Generic.denominator, Generic.js_or, Exact.orient.
  destruct pi as [yi xi], pj as [yj xj]. cbn.
  rewrite andb_true_iff, Qltb_lt.
  destruct (Exact.Qltb lat yi) eqn:Hi, (Exact.Qltb lat yj) eqn:Hj; cbn;
    try apply Qltb_lt in Hi; try apply Qltb_lt in Hj;
    try apply Qltb_ge in Hi; try apply Qltb_ge in Hj.
  - split; [intros [? _]; discriminate | intros [[? [? _]]|[? [? _]]]; lra].
  - assert (Hd : yj - yi < 0) by lra.
    rewrite (Qeq_bool_false (yj - yi)) by lra.
    rewrite (div_neg _ _ _ _ Hd). split.
    + intros [_ H]. right. split; [lra | split; lra].
    + intros [[? [? _]]|[_ [_ H]]]; [lra|]. split; [reflexivity|lra].
  - assert (Hd : 0 < yj - yi) by lra.
    rewrite (Qeq_bool_false (yj - yi)) by lra.
    rewrite (div_pos _ _ _ _ Hd). split.
    + intros [_ H]. left. split; [lra | split; lra].
    + intros [[_ [_ H]]|[? [? _]]]; [|lra]. split; [reflexivity|lra].
  - split; [intros [? _]; discriminate | intros [[? [? _]]|[? [? _]]]; lra].
Qed.
End ExactEdge.

Section ExactEdgeCases.
Variables (lon lat : Q) (pi pj : Exact.Point).

Lemma intersect_same_side :
  (lat < LatLng.lat pi /\ lat < LatLng.lat pj) \/
  (LatLng.lat pi <= lat /\ LatLng.lat pj <= lat) ->
  Exact.intersect lon lat pi pj = false.
Proof.
  intro H. apply not_true_iff_false. rewrite intersect_exact.
  intros [[? [? _]]|[? [? _]]]; lra.
Qed.

Lemma intersect_rising :
  LatLng.lat pi <= lat -> lat < LatLng.lat pj ->
  Exact.intersect lon lat pi pj = Exact.Qltb 0 (Exact.orient pi pj (LatLng.mk lat lon)).
Proof.
  intros H1 H2. destruct (Exact.Qltb 0 (Exact.orient pi pj (LatLng.mk lat lon))) eqn:E.
  - apply Qltb_lt in E. apply intersect_exact. left. auto.
  - apply Qltb_ge in E. apply not_true_iff_false. rewrite intersect_exact.
    intros [[_ [_ ?]]|[? [? _]]]; lra.
Qed.

Lemma intersect_falling :
  LatLng.lat pj <= lat -> lat < LatLng.lat pi ->
  Exact.intersect lon lat pi pj = Exact.Qltb (Exact.orient pi pj (LatLng.mk lat lon)) 0.
Proof.
  intros H1 H2. destruct (Exact.Qltb (Exact.orient pi pj (LatLng.mk lat lon)) 0) eqn:E.
  - apply Qltb_lt in E. apply intersect_exact. right. auto.
  - apply Qltb_ge in E. apply not_true_iff_false. rewrite intersect_exact.
    intros [[? [? _]]|[_ [_ ?]]]; lra.
Qed.
End ExactEdgeCases.

Lemma triangle_unfold (lon lat : Q) (a b c : Exact.Point) :
  Exact.pointInPolygon lon lat [a; b; c]
  = xorb (xorb (Exact.intersect lon lat a c) (Exact.intersect lon lat b a))
         (Exact.intersect lon lat c b).
Proof.
  unfold Exact.pointInPolygon. rewrite pointInPolygon_edges. reflexivity.
Qed.

Ltac edge_cases lon lat :=
  repeat match goal with
  | |- context [Exact.intersect lon lat ?p ?q] =>
      first
        [ rewrite (intersect_same_side lon lat p q) by lra
        | rewrite (intersect_rising lon lat p q) by lra
        | rewrite (intersect_falling lon lat p q) by lra ]
  end.

Ltac sign_cases :=
  repeat match goal with
  | |- context [Exact.Qltb ?x ?y] =>
      let E := fresh "E" in
      destruct (Exact.Qltb x y) eqn:E;
      [apply Qltb_lt in E | apply Qltb_ge in E]
  end.

Lemma orient_swap (a b p : Exact.Point) :
  Exact.orient b a p == - Exact.orient a b p.
Proof. unfold Exact.orient. ring. Qed.

Lemma orient_sum (a b c p : Exact.Point) :
  Exact.orient a b c
  == Exact.orient a b p + Exact.orient b c p + Exact.orient c a p.
Proof. unfold Exact.orient. ring. Qed.

Lemma orient_balance (a b c p : Exact.Point) :
  Exact.orient b c p * (LatLng.lat a - LatLng.lat p)
  + Exact.orient c a p * (LatLng.lat b - LatLng.lat p)
  + Exact.orient a b p * (LatLng.lat c - LatLng.lat p) == 0.
Proof. unfold Exact.orient. ring. Qed.

Lemma orient_flat (a b p : Exact.Point) :
  LatLng.lat a == LatLng.lat p -> LatLng.lat b == LatLng.lat p ->
  Exact.orient a b p == 0.
Proof. unfold Exact.orient. intros Ha Hb. rewrite Ha, Hb. ring. Qed.

Ltac flat_case lat a b c :=
  assert (LatLng.lat a == lat) by nra;
  assert (LatLng.lat b == lat) by nra;
  match goal with
  | K : _ < _ |- _ =>
      match type of K with
      | context [Exact.orient a b ?p] =>
          pose proof (orient_flat a b p ltac:(assumption) ltac:(assumption)); lra
      end
  end.

Ltac triangle_setup lon lat a b c :=
  pose proof (orient_swap a b (LatLng.mk lat lon));
  pose proof (orient_swap b c (LatLng.mk lat lon));
  pose proof (orient_swap c a (LatLng.mk lat lon));
  pose proof (orient_sum a b c (LatLng.mk lat lon));
  pose proof (orient_balance a b c (LatLng.mk lat lon)) as Hbal;
  cbn [LatLng.lat] in Hbal;
  destruct (Qlt_le_dec lat (LatLng.lat a)),
           (Qlt_le_dec lat (LatLng.lat b)),
           (Qlt_le_dec lat (LatLng.lat c));
  edge_cases lon lat; sign_cases; cbn [xorb].

Lemma exact_triangle_inside (lon lat : Q) (a b c : Exact.Point) :
  Exact.strictly_inside_triangle a b c (LatLng.mk lat lon) ->
  Exact.pointInPolygon lon lat [a; b; c] = true.
Proof.
  rewrite triangle_unfold. unfold Exact.strictly_inside_triangle. intro H.
  triangle_setup lon lat a b c; try reflexivity; exfalso;
    destruct H as [(K1 & K2 & K3)|(K1 & K2 & K3)];
    first [nra | flat_case lat a b c].
Qed.

Lemma exact_triangle_outside (lon lat : Q) (a b c : Exact.Point) :
  Exact.strictly_outside_triangle a b c (LatLng.mk lat lon) ->
  Exact.pointInPolygon lon lat [a; b; c] = false.
Proof.
  rewrite triangle_unfold. unfold Exact.strictly_outside_triangle. intro H.
  triangle_setup lon lat a b c; try reflexivity; exfalso;
    destruct H as [(K0 & [K|[K|K]])|(K0 & [K|[K|K]])]; nra.
Qed.

(** ** Polygons cut into triangles *)

Lemma intersect_sym (lon lat : Q) (pi pj : Exact.Point) :
  Exact.intersect lon lat pi pj = Exact.intersect lon lat pj pi.
Proof.
  apply eq_true_iff_eq. rewrite !intersect_exact.
  pose proof (orient_swap pi pj (LatLng.mk lat lon)).
  split; intros [(H1 & H2 & H3)|(H1 & H2 & H3)];
    [right | left | right | left]; (split; [exact H1 | split; [exact H2 | lra]]).
Qed.

Lemma same_Q_eq (a b : Q) : Exact.same_Q a b = true -> a = b.
Proof.
  unfold Exact.same_Q. rewrite andb_true_iff, Z.eqb_eq, Pos.eqb_eq.
  destruct a, b; cbn. now intros [-> ->].
Qed.

Lemma same_point_eq (p q : Exact.Point) : Exact.same_point p q = true -> p = q.
Proof.
  unfold Exact.same_point. rewrite andb_true_iff.
  destruct p, q; cbn. intros [H1 H2].
  apply same_Q_eq in H1, H2. now subst.
Qed.

Lemma same_edge_intersect (lon lat : Q) (e f : Exact.Edge) :
  Exact.same_edge e f = true ->
  Exact.intersect lon lat (fst e) (snd e) = Exact.intersect lon lat (fst f) (snd f).
Proof.
  unfold Exact.same_edge. rewrite orb_true_iff, !andb_true_iff.
  intros [[H1 H2]|[H1 H2]]; apply same_point_eq in H1, H2; rewrite H1, H2.
  - reflexivity.
  - apply intersect_sym.
Qed.

Lemma remove_edge_parity (lon lat : Q) (e : Exact.Edge) (l l' : list Exact.Edge) :
  Exact.remove_edge e l = Some l' ->
  Exact.parity lon lat l
  = xorb (Exact.intersect lon lat (fst e) (snd e)) (Exact.parity lon lat l').
Proof.
  revert l'. induction l as [|f t IH]; intros l'; [discriminate|].
  cbn [Exact.remove_edge]. destruct (Exact.same_edge e f) eqn:E.
  - intros [= <-]. cbn [Exact.parity].
    now rewrite (same_edge_intersect lon lat e f E).
  - destruct (Exact.remove_edge e t) as [t'|]; [|discriminate].
    intros [= <-]. cbn [Exact.parity]. rewrite (IH t' eq_refl).
    now destruct (Exact.intersect lon lat (fst f) (snd f)),
                 (Exact.intersect lon lat (fst e) (snd e)), (Exact.parity lon lat t').
Qed.

Lemma cancel_parity (lon lat : Q) (fuel : nat) :
  forall l, Exact.cancel fuel l = true -> Exact.parity lon lat l = false.
Proof.
  induction fuel as [|n IH]; intros [|e t]; cbn [Exact.cancel]; try reflexivity;
    try discriminate.
  destruct (Exact.remove_edge e t) as [t'|] eqn:E; [|discriminate].
  intro H. cbn [Exact.parity]. 
  rewrite (remove_edge_parity lon lat e t t' E), (IH t' H).
  now rewrite xorb_false_r, xorb_nilpotent.
Qed.

Lemma parity_app (lon lat : Q) (l1 l2 : list Exact.Edge) :
  Exact.parity lon lat (l1 ++ l2) = xorb (Exact.parity lon lat l1) (Exact.parity lon lat l2).
Proof.
  induction l1 as [|e t IH]; cbn [app Exact.parity].
  - now rewrite xorb_false_l.
  - rewrite IH.
    now destruct (Exact.intersect lon lat (fst e) (snd e)),
                 (Exact.parity lon lat t), (Exact.parity lon lat l2).
Qed.

Lemma fold_left_parity (lon lat : Q) (l : list Exact.Edge) :
  forall acc,
    fold_left (fun acc e => xorb acc (Exact.intersect lon lat (fst e) (snd e))) l acc
    = xorb acc (Exact.parity lon lat l).
Proof.
  induction l as [|e t IH]; intro acc; cbn [fold_left Exact.parity].
  - now rewrite xorb_false_r.
  - rewrite IH. apply xorb_assoc_reverse.
Qed.

Lemma pointInPolygon_parity (lon lat : Q) (ring : list Exact.Point) :
  Exact.pointInPolygon lon lat ring = Exact.parity lon lat (Exact.edges ring).
Proof.
  unfold Exact.pointInPolygon. rewrite pointInPolygon_edges.
  unfold Exact.intersect. rewrite (fold_left_parity lon lat). apply xorb_false_l.
Qed.

(** The number of triangles (mod 2) whose loop answers true. *)
Lemma triangulated_parity (lon lat : Q) (ring : list Exact.Point)
    (ts : list Exact.Triangle) :
  Exact.triangulates ts ring = true ->
  Exact.pointInPolygon lon lat ring
  = fold_right (fun t r => xorb (Exact.pointInPolygon lon lat (Exact.triangle_ring t)) r)
      false ts.
Proof.
  unfold Exact.triangulates. intro H.
  apply (cancel_parity lon lat) in H. rewrite parity_app in H.
  rewrite pointInPolygon_parity.
  apply xorb_eq in H. rewrite H. clear H.
  induction ts as [|t ts IH]; [reflexivity|].
  cbn [flat_map fold_right]. rewrite parity_app, IH, pointInPolygon_parity.
  reflexivity.
Qed.

Lemma tri_parity_app (lon lat : Q) (l1 l2 : list Exact.Triangle) :
  Exact.tri_parity lon lat (l1 ++ l2)
  = xorb (Exact.tri_parity lon lat l1) (Exact.tri_parity lon lat l2).
Proof.
  induction l1 as [|t l1 IH]; cbn [app Exact.tri_parity fold_right].
  - now rewrite xorb_false_l.
  - fold (Exact.tri_parity lon lat (l1 ++ l2)). fold (Exact.tri_parity lon lat l1).
    rewrite IH. symmetry. apply xorb_assoc_reverse.
Qed.

Lemma tri_parity_outside (lon lat : Q) (ts : list Exact.Triangle) :
  Forall (Exact.outside (LatLng.mk lat lon)) ts -> Exact.tri_parity lon lat ts = false.
Proof.
  induction 1 as [|[[a b] c] ts Ht _ IH]; [reflexivity|].
  cbn [Exact.tri_parity fold_right]. fold (Exact.tri_parity lon lat ts). rewrite IH.
  cbn [Exact.triangle_ring]. now rewrite (exact_triangle_outside lon lat a b c Ht).
Qed.

Lemma orient_on_segment (a b c p : Exact.Point) :
  Exact.orient a b p == 0 ->
  Exact.orient b c p
    * ((LatLng.lng b - LatLng.lng a) * (LatLng.lng b - LatLng.lng a)
       + (LatLng.lat b - LatLng.lat a) * (LatLng.lat b - LatLng.lat a))
  == Exact.orient a b c
     * ((LatLng.lng p - LatLng.lng b) * (LatLng.lng a - LatLng.lng b)
        + (LatLng.lat p - LatLng.lat b) * (LatLng.lat a - LatLng.lat b)).
Proof.
  intro H.
  assert (Hid :
    Exact.orient b c p
      * ((LatLng.lng b - LatLng.lng a) * (LatLng.lng b - LatLng.lng a)
         + (LatLng.lat b - LatLng.lat a) * (LatLng.lat b - LatLng.lat a))
    == Exact.orient a b c
       * ((LatLng.lng p - LatLng.lng b) * (LatLng.lng a - LatLng.lng b)
          + (LatLng.lat p - LatLng.lat b) * (LatLng.lat a - LatLng.lat b))
       + ((LatLng.lng c - LatLng.lng b) * (LatLng.lng b - LatLng.lng a)
          + (LatLng.lat c - LatLng.lat b) * (LatLng.lat b - LatLng.lat a))
         * Exact.orient a b p)
    by (unfold Exact.orient; ring).
  rewrite Hid, H. ring.
Qed.

Lemma segment_sides (a b c p : Exact.Point) :
  Exact.on_open_segment a b p ->
  (0 < Exact.orient a b c -> 0 < Exact.orient b c p /\ 0 < Exact.orient c a p)
  /\ (Exact.orient a b c < 0 -> Exact.orient b c p < 0 /\ Exact.orient c a p < 0).
Proof.
  intros (Hline & Ha & Hb).
  pose proof (orient_on_segment a b c p Hline) as E1.
  assert (Hline' : Exact.orient b a p == 0)
    by (rewrite (orient_swap a b p), Hline; ring).
  pose proof (orient_on_segment b a c p Hline') as E2.
  pose proof (orient_swap a b c) as S1. pose proof (orient_swap c a p) as S2.
  unfold Exact.dot in Ha, Hb.
  set (u2 := (LatLng.lng b - LatLng.lng a) * (LatLng.lng b - LatLng.lng a)
             + (LatLng.lat b - LatLng.lat a) * (LatLng.lat b - LatLng.lat a)) in *.
  set (u2' := (LatLng.lng a - LatLng.lng b) * (LatLng.lng a - LatLng.lng b)
             + (LatLng.lat a - LatLng.lat b) * (LatLng.lat a - LatLng.lat b)) in *.
  assert (Hu : u2' == u2) by (unfold u2, u2'; ring).
  assert (Hpos : 0 < u2).
  { unfold u2.
    destruct (Qeq_dec (LatLng.lng b) (LatLng.lng a)) as [Ex|Ex];
      destruct (Qeq_dec (LatLng.lat b) (LatLng.lat a)) as [Ey|Ey]; nra. }
  set (da := (LatLng.lng p - LatLng.lng a) * (LatLng.lng b - LatLng.lng a)
             + (LatLng.lat p - LatLng.lat a) * (LatLng.lat b - LatLng.lat a)) in *.
  set (db := (LatLng.lng p - LatLng.lng b) * (LatLng.lng a - LatLng.lng b)
             + (LatLng.lat p - LatLng.lat b) * (LatLng.lat a - LatLng.lat b)) in *.
  clearbody u2 u2' da db.
  set (obc := Exact.orient b c p) in *. set (oac := Exact.orient a c p) in *.
  set (oca := Exact.orient c a p) in *. set (oabc := Exact.orient a b c) in *.
  set (obac := Exact.orient b a c) in *.
  clearbody obc oac oca oabc obac.
  split; intro H; split; nra.
Qed.

Lemma adjacent_pair (lon lat : Q) (a b c d : Exact.Point) :
  Exact.on_open_segment a b (LatLng.mk lat lon) ->
  0 < Exact.orient a b c -> Exact.orient a b d < 0 ->
  xorb (Exact.pointInPolygon lon lat [a; b; c])
       (Exact.pointInPolygon lon lat [a; b; d]) = true.
Proof.
  intros Hseg Hc Hd. rewrite !triangle_unfold.
  destruct (segment_sides a b c _ Hseg) as [Sc _]. specialize (Sc Hc).
  destruct (segment_sides a b d _ Hseg) as [_ Sd]. specialize (Sd Hd).
  destruct Sc as [Sc1 Sc2], Sd as [Sd1 Sd2].
  destruct Hseg as (Hline & _ & _).
  pose proof (orient_swap a b (LatLng.mk lat lon)).
  pose proof (orient_swap b c (LatLng.mk lat lon)).
  pose proof (orient_swap c a (LatLng.mk lat lon)).
  pose proof (orient_swap b d (LatLng.mk lat lon)).
  pose proof (orient_swap d a (LatLng.mk lat lon)).
  pose proof (orient_balance a b c (LatLng.mk lat lon)) as Hbal1.
  pose proof (orient_balance a b d (LatLng.mk lat lon)) as Hbal2.
  cbn [LatLng.lat] in Hbal1, Hbal2.
  destruct (Qlt_le_dec lat (LatLng.lat a)),
           (Qlt_le_dec lat (LatLng.lat b)),
           (Qlt_le_dec lat (LatLng.lat c)),
           (Qlt_le_dec lat (LatLng.lat d));
    edge_cases lon lat; sign_cases; cbn [xorb]; try reflexivity; exfalso;
    first
      [ nra
      | assert (Ha : LatLng.lat a == lat) by nra;
        assert (Hb : LatLng.lat b == lat) by nra;
        unfold Exact.orient in Hc, Hd;
        repeat match goal with
               | H : context [Exact.orient] |- _ => clear H
               end;
        rewrite Hb, Ha in Hc, Hd;
        destruct (Qlt_le_dec 0 (LatLng.lng b - LatLng.lng a)); nra ].
Qed.

Lemma same_triangle_parity (lon lat : Q) (t u : Exact.Triangle) :
  Exact.same_triangle t u = true ->
  Exact.pointInPolygon lon lat (Exact.triangle_ring t)
  = Exact.pointInPolygon lon lat (Exact.triangle_ring u).
Proof.
  unfold Exact.same_triangle. intro H. apply (cancel_parity lon lat) in H.
  rewrite parity_app in H. apply xorb_eq in H.
  now rewrite !pointInPolygon_parity.
Qed.

Lemma exact_triangulated (lon lat : Q) (ring : list Exact.Point)
    (ts : list Exact.Triangle) :
  Exact.triangulates ts ring = true ->
  (Exact.inside_triangulated ts (LatLng.mk lat lon) ->
   Exact.pointInPolygon lon lat ring = true)
  /\ (Forall (Exact.outside (LatLng.mk lat lon)) ts ->
      Exact.pointInPolygon lon lat ring = false).
Proof.
  intro Htri. rewrite (triangulated_parity lon lat ring ts Htri).
  fold (Exact.tri_parity lon lat ts). split.
  - intros [l1 l2 [[a b] c] -> Hin Hout
           |l1 l2 l3 t1 t2 a b c d -> H1 H2 Hseg Hc Hd Hout].
    + apply Forall_app in Hout as [Ho1 Ho2].
      rewrite tri_parity_app. cbn [Exact.tri_parity fold_right].
      fold (Exact.tri_parity lon lat l2).
      rewrite (tri_parity_outside lon lat l1 Ho1),
              (tri_parity_outside lon lat l2 Ho2).
      cbn [Exact.triangle_ring]. now rewrite (exact_triangle_inside lon lat a b c Hin).
    + apply Forall_app in Hout as [Ho1 Hout].
      apply Forall_app in Hout as [Ho2 Ho3].
      rewrite tri_parity_app. cbn [Exact.tri_parity fold_right].
      fold (Exact.tri_parity lon lat (l2 ++ t2 :: l3)).
      rewrite tri_parity_app. cbn [Exact.tri_parity fold_right].
      fold (Exact.tri_parity lon lat l3).
      rewrite (tri_parity_outside lon lat l1 Ho1),
              (tri_parity_outside lon lat l2 Ho2),
              (tri_parity_outside lon lat l3 Ho3).
      rewrite (same_triangle_parity lon lat t1 _ H1),
              (same_triangle_parity lon lat t2 _ H2).
      cbn [Exact.triangle_ring xorb].
      rewrite xorb_false_r.
      exact (adjacent_pair lon lat a b c d Hseg Hc Hd).
  - apply tri_parity_outside.
Qed.

Close Scope Q_scope.

(** * Binary64 comparisons are exact *)

Lemma digits2_bounds (m : positive) :
  (2 ^ (Z.pos (digits2_pos m) - 1) <= Z.pos m < 2 ^ Z.pos (digits2_pos m))%Z.
Proof.
  induction m as [m IH|m IH|]; cbn [digits2_pos].
  - rewrite Pos2Z.inj_succ.
    replace (Z.succ (Z.pos (digits2_pos m)) - 1)%Z
      with (Z.succ (Z.pos (digits2_pos m) - 1)) by lia.
    rewrite !Z.pow_succ_r by lia. lia.
  - rewrite Pos2Z.inj_succ.
    replace (Z.succ (Z.pos (digits2_pos m)) - 1)%Z
      with (Z.succ (Z.pos (digits2_pos m) - 1)) by lia.
    rewrite !Z.pow_succ_r by lia. lia.
  - cbn. lia.
Qed.

Lemma canonical_bounds (m : positive) (e : Z) :
  bounded prec emax m e = true ->
  (-1074 <= e)%Z /\ (Z.pos m < 2 ^ 53)%Z /\
  (-1074 < e -> 2 ^ 52 <= Z.pos m)%Z.
Proof.
  unfold bounded, canonical_mantissa, fexp, emin, prec, emax.
  rewrite andb_true_iff, Z.eqb_eq. intros [H _].
  pose proof (digits2_bounds m) as [Hlo Hhi].
  set (d := Z.pos (digits2_pos m)) in *.
  assert (0 < d)%Z by (unfold d; lia).
  change (Z.max (d + e - 53) (-1074) = e)%Z in H. clearbody d.
  split; [lia|]. split.
  - assert (d <= 53)%Z by lia.
    apply Z.lt_le_trans with (1 := Hhi). apply Z.pow_le_mono_r; lia.
  - intro He. assert (d = 53)%Z by lia.
    replace 52%Z with (d - 1)%Z by lia. exact Hlo.
Qed.

Lemma scaled_lt (m1 m2 : positive) (e1 e2 : Z) :
  bounded prec emax m1 e1 = true -> bounded prec emax m2 e2 = true ->
  (e1 < e2)%Z ->
  (Z.pos m1 * 2 ^ (e1 + 1074) < Z.pos m2 * 2 ^ (e2 + 1074))%Z.
Proof.
  intros H1 H2 He.
  apply canonical_bounds in H1 as (L1 & U1 & _).
  apply canonical_bounds in H2 as (L2 & _ & N2).
  specialize (N2 ltac:(lia)).
  replace (e2 + 1074)%Z with ((e2 - e1) + (e1 + 1074))%Z by lia.
  rewrite (Z.pow_add_r 2 (e2 - e1) (e1 + 1074)) by lia.
  assert (0 < 2 ^ (e1 + 1074))%Z by (apply Z.pow_pos_nonneg; lia).
  assert (T : (2 ^ 1 <= 2 ^ (e2 - e1))%Z) by (apply Z.pow_le_mono_r; lia).
  change (2 ^ 1)%Z with 2%Z in T.
  assert (M : (2 ^ 52 * 2 <= Z.pos m2 * 2 ^ (e2 - e1))%Z)
    by (apply Z.mul_le_mono_nonneg; lia).
  change (2 ^ 52 * 2)%Z with (2 ^ 53)%Z in M.
  rewrite Z.mul_assoc. apply Z.mul_lt_mono_pos_r; lia.
Qed.

Lemma Qltb_grid (a b : Z) : Exact.Qltb (a # Exact.grid) (b # Exact.grid) = (a <? b)%Z.
Proof.
  unfold Exact.Qltb, Qcompare, Exact.grid. cbn [Qnum Qden].
  rewrite <- (Zmult_compare_compat_r a b (Z.pos (2 ^ 1074))) by lia.
  unfold Z.ltb. reflexivity.
Qed.

Lemma SFltb_exact (a b : spec_float) :
  valid_binary a = true -> valid_binary b = true ->
  Exact.SFfinite a = true -> Exact.SFfinite b = true ->
  SFltb a b = Exact.Qltb (Exact.SFvalue a) (Exact.SFvalue b).
Proof.
  intros Va Vb Fa Fb. unfold Exact.SFvalue. rewrite Qltb_grid.
  destruct a as [sa|sa| |sa ma ea], b as [sb|sb| |sb mb eb];
    try discriminate; cbn [valid_binary] in Va, Vb; unfold SFltb; cbn [SFcompare Exact.SFscaled].
  - reflexivity.
  - assert (0 < 2 ^ (eb + 1074))%Z
      by (apply Z.pow_pos_nonneg; [lia | apply canonical_bounds in Vb; lia]).
    destruct sb; symmetry; [apply Z.ltb_ge | apply Z.ltb_lt]; nia.
  - assert (0 < 2 ^ (ea + 1074))%Z
      by (apply Z.pow_pos_nonneg; [lia | apply canonical_bounds in Va; lia]).
    destruct sa; symmetry; [apply Z.ltb_lt | apply Z.ltb_ge]; nia.
  - assert (Pa : (0 < 2 ^ (ea + 1074))%Z)
      by (apply Z.pow_pos_nonneg; [lia | apply canonical_bounds in Va; lia]).
    assert (Pb : (0 < 2 ^ (eb + 1074))%Z)
      by (apply Z.pow_pos_nonneg; [lia | apply canonical_bounds in Vb; lia]).
    rewrite Pos.compare_cont_spec. cbn [Pos.switch_Eq].
    destruct (Z.compare_spec ea eb) as [E|E|E].
    + subst eb. change (Pos.compare ma mb) with (Z.compare (Z.pos ma) (Z.pos mb)).
      destruct (Z.compare_spec (Z.pos ma) (Z.pos mb)) as [M|M|M];
        destruct sa, sb; cbn [CompOpp]; symmetry;
        first [apply Z.ltb_lt; nia | apply Z.ltb_ge; nia].
    + pose proof (scaled_lt ma mb ea eb Va Vb E).
      destruct sa, sb; symmetry;
        first [apply Z.ltb_lt; nia | apply Z.ltb_ge; nia].
    + pose proof (scaled_lt mb ma eb ea Vb Va E).
      destruct sa, sb; symmetry;
        first [apply Z.ltb_lt; nia | apply Z.ltb_ge; nia].
Qed.


Lemma ltb_exact (x y : float) :
  Exact.finite x = true -> Exact.finite y = true ->
  PrimFloat.ltb x y = Exact.Qltb (Exact.value x) (Exact.value y).
Proof.
  intros Fx Fy. rewrite ltb_spec.
  apply SFltb_exact; auto using Prim2SF_valid.
Qed.

(** * From binary64 to exact arithmetic *)

Lemma straddles_exact (lat yi yj : float) :
  Exact.finite lat = true -> Exact.finite yi = true -> Exact.finite yj = true ->
  Geo.straddles lat yi yj
  = Exact.straddles (Exact.value lat) (Exact.value yi) (Exact.value yj).
Proof.
  intros Fl Fi Fj. unfold Geo.straddles, Exact.straddles, Generic.straddles.
  cbn [n_ltb Geo.float_ops Exact.Q_ops].
  now rewrite !ltb_exact.
Qed.

Lemma intersect_agrees (lon lat : float) (pi pj : Geo.LatLng) :
  Exact.finite lat = true ->
  Exact.finite_point pi = true -> Exact.finite_point pj = true ->
  Exact.edge_agrees lon lat (pi, pj) ->
  Geo.intersect lon lat pi pj
  = Exact.intersect (Exact.value lon) (Exact.value lat)
      (Exact.point pi) (Exact.point pj).
Proof.
  unfold Exact.finite_point. rewrite !andb_true_iff.
  intros Fl [Fyi Fxi] [Fyj Fxj] Hagree.
  unfold Exact.edge_agrees in Hagree. cbn [fst snd] in Hagree.
  change (Geo.intersect lon lat pi pj)
    with (Geo.straddles lat (LatLng.lat pi) (LatLng.lat pj)
          && PrimFloat.ltb lon
               (Geo.crossing lat (LatLng.lng pi) (LatLng.lat pi)
                  (LatLng.lng pj) (LatLng.lat pj))).
  change (Exact.intersect (Exact.value lon) (Exact.value lat)
            (Exact.point pi) (Exact.point pj))
    with (Exact.straddles (Exact.value lat) (Exact.value (LatLng.lat pi))
            (Exact.value (LatLng.lat pj))
          && Exact.Qltb (Exact.value lon)
               (Exact.crossing (Exact.value lat)
                  (Exact.value (LatLng.lng pi)) (Exact.value (LatLng.lat pi))
                  (Exact.value (LatLng.lng pj)) (Exact.value (LatLng.lat pj)))).
  rewrite <- straddles_exact by assumption.
  destruct (Geo.straddles lat (LatLng.lat pi) (LatLng.lat pj)); [|reflexivity].
  cbn [andb]. now apply Hagree.
Qed.

Lemma combine_map {A B : Type} (f : A -> B) (xs ys : list A) :
  combine (map f xs) (map f ys)
  = map (fun e => (f (fst e), f (snd e))) (combine xs ys).
Proof.
  revert ys. induction xs as [|x t IH]; intros [|y u]; cbn; try reflexivity.
  now rewrite IH.
Qed.

Lemma removelast_map {A B : Type} (f : A -> B) (xs : list A) :
  removelast (map f xs) = map f (removelast xs).
Proof.
  induction xs as [|x [|y t] IH]; [reflexivity | reflexivity |].
  cbn [map removelast] in *. now rewrite IH.
Qed.

Lemma edges_map {A B : Type} (f : A -> B) (ring : list A) :
  Exact.edges (map f ring)
  = map (fun e => (f (fst e), f (snd e))) (Exact.edges ring).
Proof.
  unfold Exact.edges. rewrite <- map_rev.
  destruct (rev ring) as [|l r]; [reflexivity|]. cbn [map].
  rewrite removelast_map.
  change (f l :: map f (removelast ring)) with (map f (l :: removelast ring)).
  apply combine_map.
Qed.

Lemma edges_in {A : Type} (ring : list A) (e : A * A) :
  In e (Exact.edges ring) -> In (fst e) ring /\ In (snd e) ring.
Proof.
  unfold Exact.edges. destruct (rev ring) as [|l r] eqn:Hrev; [intros []|].
  intro H. split.
  - destruct e. now apply in_combine_l in H.
  - destruct e as [x y]. apply in_combine_r in H. cbn [snd].
    destruct H as [<-|H].
    + apply in_rev. rewrite Hrev. now left.
    + clear -H. induction ring as [|z [|z' t] IH]; [easy | easy |].
      cbn [removelast] in H. destruct H as [<-|H]; [now left | right; auto].
Qed.

(** With finite coordinates and agreement on every straddling edge, the
    binary64 loop returns what the exact loop returns, on any ring. *)
Lemma pointInPolygon_exact (lon lat : float) (ring : list Geo.LatLng) :
  Exact.finite lat = true ->
  forallb Exact.finite_point ring = true ->
  Exact.rounding_agrees lon lat ring ->
  Geo.pointInPolygon lon lat ring
  = Exact.pointInPolygon (Exact.value lon) (Exact.value lat)
      (map Exact.point ring).
Proof.
  intros Fl Fr Hagree.
  unfold Geo.pointInPolygon, Exact.pointInPolygon.
  rewrite !pointInPolygon_edges, edges_map.
  unfold Exact.rounding_agrees in Hagree. rewrite Forall_forall in Hagree.
  rewrite forallb_forall in Fr.
  assert (Hin : forall e, In e (Exact.edges ring) ->
            Exact.finite_point (fst e) = true /\ Exact.finite_point (snd e) = true).
  { intros e He. apply edges_in in He as [? ?]. auto. }
  unfold Geo.LatLng in *.
  revert Hagree Hin. generalize (Exact.edges ring) as es. generalize false.
  intros acc es; revert acc.
  induction es as [|[pi pj] es IH]; intros acc Hagree Hin; [reflexivity|].
  cbn [map fold_left fst snd].
  rewrite IH by (intros; first [apply Hagree | apply Hin]; now right).
  f_equal. f_equal.
  destruct (Hin (pi, pj) (or_introl eq_refl)) as [Fi Fj].
  apply intersect_agrees; auto. apply Hagree. now left.
Qed.

(** * The loop terminates, reads in range, and never divides by zero *)

(** The machine: from [(i, j, inside)] with [i <= n] and [j] a valid index,
    the loop exits after [n - i] further iterations, without a bad read,
    and returns what the fold computes. *)
Lemma run_result {num : Type} (ops : NumOps num) (lon lat : num)
    (ring : list (LatLng.t num)) :
  forall (k : nat) (st : Generic.LoopState),
    (Generic.l_i st + k = List.length ring)%nat ->
    (ring <> [] -> Generic.l_j st < List.length ring)%nat ->
    Generic.run ops (S k) lon lat ring st
    = Some (Generic.Returned
              (snd (fold_left (Generic.loop_body ops lon lat ring)
                      (seq (Generic.l_i st) k)
                      (Generic.l_j st, Generic.l_inside st)))).
Proof.
  induction k as [|k IH]; intros st Hi Hj.
  - cbn. unfold Generic.loop_step.
    replace (Generic.l_i st <? List.length ring)%nat with false
      by (symmetry; apply Nat.ltb_ge; lia).
    reflexivity.
  - change (Generic.run ops (S (S k)) lon lat ring st)
      with (match Generic.loop_step ops lon lat ring st with
            | Generic.Running st' => Generic.run ops (S k) lon lat ring st'
            | out => Some out
            end).
    unfold Generic.loop_step.
    replace (Generic.l_i st <? List.length ring)%nat with true
      by (symmetry; apply Nat.ltb_lt; lia).
    assert (Hne : ring <> [])
      by (destruct ring; [cbn in Hi; lia | discriminate]).
    cbn [seq fold_left]. unfold Generic.loop_body at 2.
    destruct (nth_error ring (Generic.l_i st)) as [pi|] eqn:Hpi.
    2:{ apply nth_error_None in Hpi. lia. }
    destruct (nth_error ring (Generic.l_j st)) as [pj|] eqn:Hpj.
    2:{ apply nth_error_None in Hpj. specialize (Hj Hne). lia. }
    rewrite IH by (cbn; intros; lia). reflexivity.
Qed.

Lemma denominator_nonzero (yi yj : float) :
  PrimFloat.eqb (Geo.denominator yi yj) 0 = false.
Proof.
  unfold Geo.denominator, Generic.denominator, Generic.js_or.
  cbn [n_falsy n_sub n_eps Geo.float_ops]. unfold Geo.falsy.
  destruct (PrimFloat.eqb (PrimFloat.sub yj yi) 0) eqn:E; cbn [orb].
  - reflexivity.
  - destruct (negb _); [reflexivity | exact E].
Qed.

Lemma SFeqb_finite (s1 s2 : bool) (m1 m2 : positive) (e1 e2 : Z) :
  SFeqb (S754_finite s1 m1 e1) (S754_finite s2 m2 e2) = true ->
  s1 = s2 /\ m1 = m2 /\ e1 = e2.
Proof.
  unfold SFeqb. cbn [SFcompare]. rewrite Pos.compare_cont_spec.
  cbn [Pos.switch_Eq].
  destruct s1, s2; try discriminate;
    destruct (Z.compare_spec e1 e2); try discriminate;
    destruct (Pos.compare_spec m1 m2); try discriminate; auto.
Qed.

Lemma sub_equal_falsy (x y : float) :
  PrimFloat.eqb x y = true -> Geo.falsy (PrimFloat.sub y x) = true.
Proof.
  unfold Geo.falsy. rewrite !eqb_spec, sub_spec.
  change (Prim2SF 0) with (S754_zero false).
  destruct (Prim2SF x) as [sx|sx| |sx mx ex],
           (Prim2SF y) as [sy|sy| |sy my ey];
    intro H; try discriminate H;
    try (destruct sx, sy; try discriminate H; reflexivity).
  apply SFeqb_finite in H as (-> & -> & ->).
  unfold SF64sub, SFsub. rewrite Z.min_id, Z.sub_diag. reflexivity.
Qed.

Lemma denominator_degenerate (yi yj : float) :
  PrimFloat.eqb yi yj = true -> Geo.denominator yi yj = Geo.EPS.
Proof.
  intro H. unfold Geo.denominator, Generic.denominator, Generic.js_or.
  cbn [n_falsy n_sub n_eps Geo.float_ops].
  now rewrite sub_equal_falsy.
Qed.

(** * The claims about [pointInPolygon] *)

(** Decides a closed comparison of rationals or booleans by computation. *)
Ltac by_computation := vm_compute; reflexivity.

Ltac inside_by_computation :=
  first [ left; split; [|split]; by_computation
        | right; split; [|split]; by_computation ].

Ltac outside_by_computation :=
  first [ left; split; [by_computation|]
        | right; split; [by_computation|] ];
  first [ left; by_computation
        | right; left; by_computation
        | right; right; by_computation ].

Ltac agrees_by_computation :=
  unfold Exact.rounding_agrees;
  repeat (apply Forall_cons; [intros _; by_computation|]);
  apply Forall_nil.


(** C9. For every ring and every test point the loop of [pointInPolygon]
    exits, after one evaluation of its condition per vertex plus one, without
    reading outside the ring, and returns the value of [pointInPolygon]; the
    divisor of the crossing abscissa is never zero (neither [0] nor [-0]);
    when the two latitudes of an edge are equal the divisor is the substituted
    [1e-12]; and equal arguments give equal results. *)
Theorem pointInPolygon_terminates_safely :
  (forall lon lat ring,
      Generic.run Geo.float_ops (S (List.length ring)) lon lat ring
        (Generic.loop_init ring)
      = Some (Generic.Returned (Geo.pointInPolygon lon lat ring)))
  /\ (forall yi yj, PrimFloat.eqb (Geo.denominator yi yj) 0 = false)
  /\ (forall yi yj,
        PrimFloat.eqb yi yj = true -> Geo.denominator yi yj = Geo.EPS)
  /\ (forall lon lat ring lon' lat' ring',
        lon = lon' -> lat = lat' -> ring = ring' ->
        Geo.pointInPolygon lon lat ring = Geo.pointInPolygon lon' lat' ring').
Proof.
  split; [|split; [|split]].
  - intros lon lat ring.
    apply (run_result Geo.float_ops lon lat ring (List.length ring)
             (Generic.loop_init ring)).
    + reflexivity.
    + cbn. destruct ring; [congruence | cbn; lia].
  - exact denominator_nonzero.
  - exact denominator_degenerate.
  - intros; subst; reflexivity.
Qed.

Lemma pointInPolygon_terminates_safely_witness :
  Geo.denominator 1 1 = Geo.EPS
  /\ Geo.pointInPolygon 1 1 [LatLng.mk 0 0; LatLng.mk 0 4; LatLng.mk 4 0]%float
     = Geo.pointInPolygon 1 1 [LatLng.mk 0 0; LatLng.mk 0 4; LatLng.mk 4 0]%float.
Proof.
  destruct pointInPolygon_terminates_safely as (_ & _ & Hdeg & Hdet).
  split.
  - apply Hdeg. reflexivity.
  - apply Hdet; reflexivity.
Defined.

(** On a single triangle: with finite coordinates and agreement on every
    straddling edge, a point strictly inside gives true and a point strictly
    outside gives false. *)
Lemma pointInPolygon_triangle (lon lat : float) (a b c : Geo.LatLng) :
  Exact.finite lat = true ->
  forallb Exact.finite_point [a; b; c] = true ->
  Exact.rounding_agrees lon lat [a; b; c] ->
  (Exact.strictly_inside_triangle
     (Exact.point a) (Exact.point b) (Exact.point c)
     (LatLng.mk (Exact.value lat) (Exact.value lon)) ->
   Geo.pointInPolygon lon lat [a; b; c] = true)
  /\ (Exact.strictly_outside_triangle
        (Exact.point a) (Exact.point b) (Exact.point c)
        (LatLng.mk (Exact.value lat) (Exact.value lon)) ->
      Geo.pointInPolygon lon lat [a; b; c] = false).
Proof.
  intros Flat Fring Hagree.
  rewrite (pointInPolygon_exact lon lat [a; b; c] Flat Fring Hagree).
  cbn [map]. split.
  - apply exact_triangle_inside.
  - apply exact_triangle_outside.
Qed.

(** C1, as the code has it.  For an empty ring [pointInPolygon] returns
    false.  Take a ring with finite coordinates that is cut into triangles
    by diagonals (as every simple polygon can be), and a test point with
    finite coordinates such that, on every edge of the ring that straddles
    the point's latitude, the binary64 comparison of [lon] with the computed
    crossing abscissa agrees with the comparison in exact arithmetic.  Then
    [pointInPolygon] returns true when the point is strictly inside the
    polygon (strictly inside one triangle, or on the open diagonal between
    two, and strictly outside the other triangles), and false when it is
    strictly outside every triangle. *)
Theorem pointInPolygon_triangulated :
  (forall lon lat, Geo.pointInPolygon lon lat [] = false)
  /\ (forall lon lat ring ts,
        Exact.finite lon = true -> Exact.finite lat = true ->
        forallb Exact.finite_point ring = true ->
        Exact.rounding_agrees lon lat ring ->
        Exact.triangulates ts (map Exact.point ring) = true ->
        (Exact.inside_triangulated ts
           (LatLng.mk (Exact.value lat) (Exact.value lon)) ->
         Geo.pointInPolygon lon lat ring = true)
        /\ (Forall (Exact.outside
                      (LatLng.mk (Exact.value lat) (Exact.value lon))) ts ->
            Geo.pointInPolygon lon lat ring = false)).
Proof.
  split; [reflexivity|].
  intros lon lat ring ts _ Flat Fring Hagree Htri.
  rewrite (pointInPolygon_exact lon lat ring Flat Fring Hagree).
  now apply exact_triangulated.
Qed.

Lemma pointInPolygon_triangulated_witness :
  Geo.pointInPolygon (-112.125) 33.375 [P1; P2; P3; P4] = true
  /\ Geo.pointInPolygon (-112.125) 33.359375 [P1; P2; P3; P4] = true
  /\ Geo.pointInPolygon (-112.1875) 33.4375 [P1; P2; P3; P4] = false.
Proof.
  destruct pointInPolygon_triangulated as [_ H].
  pose (t1 := (Exact.point P1, Exact.point P2, Exact.point P3)).
  pose (t2 := (Exact.point P1, Exact.point P3, Exact.point P4)).
  split; [|split].
  - apply (H (-112.125) 33.375 [P1; P2; P3; P4] [t1; t2])%float.
    + by_computation.
    + by_computation.
    + by_computation.
    + agrees_by_computation.
    + by_computation.
    + apply (Exact.in_triangle [t1; t2] _ [t1] [] t2 eq_refl).
      * inside_by_computation.
      * apply Forall_cons; [outside_by_computation | apply Forall_nil].
  - apply (H (-112.125) 33.359375 [P1; P2; P3; P4] [t1; t2])%float.
    + by_computation.
    + by_computation.
    + by_computation.
    + agrees_by_computation.
    + by_computation.
    + apply (Exact.on_diagonal [t1; t2] _ [] [] [] t1 t2
               (Exact.point P3) (Exact.point P1) (Exact.point P2)
               (Exact.point P4) eq_refl).
      * by_computation.
      * by_computation.
      * split; [|split]; by_computation.
      * by_computation.
      * by_computation.
      * apply Forall_nil.
  - apply (H (-112.1875) 33.4375 [P1; P2; P3; P4] [t1; t2])%float.
    + by_computation.
    + by_computation.
    + by_computation.
    + agrees_by_computation.
    + by_computation.
    + apply Forall_cons; [outside_by_computation|].
      apply Forall_cons; [outside_by_computation | apply Forall_nil].
Defined.

(** C1 as stated fails on binary64 numbers.  The point (lat 1,
    lon 0.333...331) lies strictly inside the triangle with vertices
    (lat 3, lng 1), (lat 0, lng 0), (lat 2, lng -1): the edge from (0, 0)
    to (3, 1) meets latitude 1 at longitude 1/3, which is larger than the
    binary64 number [lon]; the computed abscissa is [lon] itself, so the
    crossing is not counted and the result is false.  Likewise the point
    (lat 1, lon 0.142...88) lies strictly outside the triangle (0, 0),
    (lat 7, lng 1), (lat 6, lng -1), and the result is true. *)
Lemma pointInPolygon_misjudges_near_edge :
  (Exact.strictly_inside_triangle
     (Exact.point (LatLng.mk 3 1)) (Exact.point (LatLng.mk 0 0))
     (Exact.point (LatLng.mk 2 (-1)))
     (LatLng.mk (Exact.value 1) (Exact.value 0x1.5555555555555p-2))
   /\ Geo.pointInPolygon 0x1.5555555555555p-2 1
        [LatLng.mk 3 1; LatLng.mk 0 0; LatLng.mk 2 (-1)] = false)%float
  /\ (Exact.strictly_outside_triangle
        (Exact.point (LatLng.mk 0 0)) (Exact.point (LatLng.mk 7 1))
        (Exact.point (LatLng.mk 6 (-1)))
        (LatLng.mk (Exact.value 1) (Exact.value 0x1.2492492492493p-3))
      /\ Geo.pointInPolygon 0x1.2492492492493p-3 1
           [LatLng.mk 0 0; LatLng.mk 7 1; LatLng.mk 6 (-1)] = true)%float.
Proof.
  split; split.
  - inside_by_computation.
  - by_computation.
  - outside_by_computation.
  - by_computation.
Qed.

(** * Properties of the component *)

Ltac simp :=
  cbn -[Nat.ltb Nat.leb Nat.eqb Z.ltb firstn shown Leaflet.convertLatLngs].

Ltac inv_goal :=
  simp; auto; try discriminate; try lia; try solve [intros; congruence];
  try solve [intros ? [= <-]; eexists; simp; eauto];
  try solve [intros ? [<-|[]]; lia];
  try solve [intros ? []];
  try solve [repeat split; congruence].

Ltac inv_fields H :=
  destruct H as [I_count I_cache I_polygon I_points I_has I_preview
                 I_exclusive I_shapes I_fresh (I_m1 & I_m2 & I_m3)].


Lemma draw_parcel_shown (filter : option (list Geo.LatLng))
    (parcels : list ParcelRow.t) :
  forall layers,
    fold_left (draw_parcel filter) parcels layers
    = layers ++ shown filter parcels.
Proof.
  induction parcels as [|p ps IH]; intro layers; cbn [fold_left shown flat_map].
  - now rewrite app_nil_r.
  - rewrite IH. unfold draw_parcel, skipped.
    destruct (ParcelRow.geometry p) as [g|]; [|reflexivity].
    destruct filter as [ring|], (ParcelRow.lat p) as [la|],
             (ParcelRow.lon p) as [lo|]; cbn [app];
      try (now rewrite <- app_assoc).
    destruct (negb (Geo.pointInPolygon lo la ring)); cbn [app];
      [reflexivity | now rewrite <- app_assoc].
Qed.

Lemma redrawParcels_eq (s : State) :
  redrawParcels s
  = set_parcelsLayer
      (if (map_zoom s <? DRAW_ZOOM_THRESHOLD)%Z then []
       else shown (filterLatLngs s) (parcelsRef s)) s.
Proof.
  unfold redrawParcels, clearLayers.
  destruct (map_zoom s <? DRAW_ZOOM_THRESHOLD)%Z; [reflexivity|].
  simp. now rewrite draw_parcel_shown.
Qed.

Lemma Inv_set_parcelsLayer (layers : list GeoJSON) (s : State) :
  Inv s -> Inv (set_parcelsLayer layers s).
Proof. intro H; inv_fields H. constructor; inv_goal. Qed.

Lemma Inv_redrawParcels (s : State) : Inv s -> Inv (redrawParcels s).
Proof. rewrite redrawParcels_eq. apply Inv_set_parcelsLayer. Qed.

Lemma Inv_updateDrawButtonState (s : State) :
  Inv s -> Inv (updateDrawButtonState s).
Proof. intro H; inv_fields H. constructor; inv_goal. Qed.

Lemma Inv_fetchParcelsForView (s : State) : Inv s -> Inv (fetchParcelsForView s).
Proof.
  intro H; inv_fields H. unfold fetchParcelsForView.
  destruct (map_zoom s <? FETCH_ZOOM_THRESHOLD)%Z.
  - constructor; inv_goal.
  - simp. destruct (isDrawingRef s) eqn:Hd; constructor; inv_goal.
Qed.

Lemma forallb_filter_id {A : Type} (f : A -> bool) (l : list A) :
  forallb f (List.filter f l) = true.
Proof.
  induction l as [|x l IH]; [reflexivity|]. cbn.
  destruct (f x) eqn:E; [cbn; now rewrite E|exact IH].
Qed.

Lemma Inv_resume (r : Response) (s : State) :
  Inv s -> Inv (fetchParcelsForView_resume r s).
Proof.
  intro H. unfold fetchParcelsForView_resume.
  destruct (error r) as [message|].
  - inv_fields H. constructor; inv_goal.
  - assert (H' : Inv (redrawParcels
                        (setCount (List.length (List.filter has_geometry
                             match data r with Some rows => rows | None => [] end))
                           (set_parcelsRef (List.filter has_geometry
                             match data r with Some rows => rows | None => [] end) s)))).
    { apply Inv_redrawParcels. inv_fields H.
      constructor; inv_goal. apply forallb_filter_id. }
    revert H'. generalize (redrawParcels
                        (setCount (List.length (List.filter has_geometry
                             match data r with Some rows => rows | None => [] end))
                           (set_parcelsRef (List.filter has_geometry
                             match data r with Some rows => rows | None => [] end) s))).
    intros s' H'. inv_fields H'. constructor; inv_goal.
Qed.

Lemma final_points_length (pts : list Geo.LatLng) :
  (List.length pts <? 3)%nat = false ->
  (3 <= List.length (if (4 <? List.length pts)%nat then firstn 4 pts else pts))%nat
  /\ (List.length (if (4 <? List.length pts)%nat then firstn 4 pts else pts) <= 4)%nat.
Proof.
  intro H. apply Nat.ltb_ge in H.
  destruct (4 <? List.length pts)%nat eqn:E.
  - apply Nat.ltb_lt in E. rewrite length_firstn. lia.
  - apply Nat.ltb_ge in E. lia.
Qed.

Lemma final_points_firstn (pts : list Geo.LatLng) :
  (if (4 <? List.length pts)%nat then firstn 4 pts else pts) = firstn 4 pts.
Proof.
  destruct (4 <? List.length pts)%nat eqn:E; [reflexivity|].
  apply Nat.ltb_ge in E. symmetry. now apply firstn_all2.
Qed.

Lemma Inv_finishDrawing (s : State) : Inv s -> Inv (finishDrawing s).
Proof.
  intro H. unfold finishDrawing.
  destruct (isDrawingRef s) eqn:Hd; cbn [negb]; [|exact H].
  inv_fields H. specialize (I_exclusive Hd).
  rewrite I_exclusive in I_has, I_shapes. cbn in I_has, I_shapes.
  simp. unfold drop_drawingLayer.
  destruct (List.length (drawPointsRef s) <? 3)%nat eqn:Hlen.
  - simp. destruct (drawingLayerRef s) as [q|] eqn:Hq;
      constructor; simp; rewrite ?I_exclusive, ?Hq, ?I_shapes; simp;
      rewrite ?Nat.eqb_refl; inv_goal.
  - pose proof (final_points_length (drawPointsRef s) Hlen) as [Hlo Hhi].
    rewrite redrawParcels_eq. apply Inv_set_parcelsLayer.
    rewrite I_exclusive. simp.
    destruct (drawingLayerRef s) as [q|] eqn:Hq.
    + assert (Hfresh : (layer_id q < next_layer s)%nat).
      { apply I_fresh. rewrite I_shapes. now left. }
      assert (Hne : (next_layer s =? layer_id q)%nat = false)
        by (apply Nat.eqb_neq; lia).
      constructor; simp; rewrite ?I_exclusive, ?Hq, ?I_shapes; simp;
        rewrite ?Nat.eqb_refl, ?Hne; inv_goal.
    + constructor; simp; rewrite ?I_exclusive, ?Hq, ?I_shapes; inv_goal.
Qed.

Lemma Inv_startDrawing (s : State) : Inv s -> Inv (startDrawing s).
Proof.
  intro H. unfold startDrawing.
  destruct (showZoomMessageRef s || hasUserPolygonRef s || isDrawingRef s)
    eqn:Hg; [exact H|].
  apply orb_false_iff in Hg as [Hg Hd]. apply orb_false_iff in Hg as [Hz Hp].
  inv_fields H. specialize (I_preview Hd).
  assert (Hu : userPolygonRef s = None).
  { rewrite I_has in Hp. now destruct (userPolygonRef s). }
  rewrite I_preview in I_shapes.
  unfold drop_drawingLayer. simp. rewrite I_preview.
  constructor; simp; rewrite ?I_preview; inv_goal.
Qed.

Lemma Inv_onClick (latlng : Geo.LatLng) (s : State) :
  Inv s -> Inv (onClick latlng s).
Proof.
  intro H. unfold onClick.
  destruct (isDrawingRef s) eqn:Hd; cbn [negb]; [|exact H].
  set (s1 := set_drawPointsRef (drawPointsRef s ++ [latlng]) s).
  set (s2 := match drawingLayerRef s1 with
             | Some layer =>
                 set_drawingLayerRef
                   (Some (setLatLngs (drawPointsRef s1) layer)) s1
             | None =>
                 let (layer, s0) := L_polygon_addTo (drawPointsRef s1) s1 in
                 set_drawingLayerRef (Some layer) s0
             end).
  assert (Hpts : drawPointsRef s2 = drawPointsRef s ++ [latlng]).
  { unfold s2, s1. simp. now destruct (drawingLayerRef s). }
  assert (Hd2 : isDrawingRef s2 = true).
  { unfold s2, s1. simp. now destruct (drawingLayerRef s). }
  inv_fields H. specialize (I_exclusive Hd).
  rewrite I_exclusive in I_has, I_shapes. cbn in I_has, I_shapes.
  destruct (4 <=? List.length (drawPointsRef s2))%nat eqn:Hfour.
  - (* the fourth vertex: finish at once *)
    unfold finishDrawing. rewrite Hd2. cbn [negb].
    assert (Hlen : (List.length (drawPointsRef s2) <? 3)%nat = false).
    { apply Nat.leb_le in Hfour. apply Nat.ltb_ge. lia. }
    assert (Hlen' : (List.length (drawPointsRef s ++ [latlng]) <? 3)%nat = false)
      by (now rewrite <- Hpts).
    pose proof (final_points_length _ Hlen') as [Hlo Hhi].
    unfold s2, s1, drop_drawingLayer. simp.
    destruct (drawingLayerRef s) as [q|] eqn:Hq; simp; rewrite Hlen';
      rewrite ?I_exclusive; simp; rewrite redrawParcels_eq;
      apply Inv_set_parcelsLayer; simp.
    + assert (Hfresh : (layer_id q < next_layer s)%nat).
      { apply I_fresh. rewrite I_shapes. now left. }
      assert (Hne : (next_layer s =? layer_id q)%nat = false)
        by (apply Nat.eqb_neq; lia).
      constructor; simp; rewrite ?I_exclusive, ?Hq, ?I_shapes; simp;
        rewrite ?Nat.eqb_refl, ?Hne; inv_goal.
    + assert (Hne : (S (next_layer s) =? next_layer s)%nat = false)
        by (apply Nat.eqb_neq; lia).
      constructor; simp; rewrite ?I_exclusive, ?Hq, ?I_shapes; simp;
        rewrite ?Nat.eqb_refl, ?Hne; inv_goal.
  - apply Nat.leb_gt in Hfour. rewrite Hpts in Hfour.
    unfold s2, s1. simp. rewrite I_shapes in I_fresh.
    destruct (drawingLayerRef s) as [q|] eqn:Hq; simp; cbn in I_fresh;
      constructor; simp; rewrite ?I_exclusive, ?Hq, ?I_shapes; inv_goal.
Qed.

Lemma Inv_onDblClick (s : State) : Inv s -> Inv (onDblClick s).
Proof.
  intro H. unfold onDblClick.
  destruct (isDrawingRef s); [now apply Inv_finishDrawing | exact H].
Qed.

Lemma Inv_onMoveEnd (s : State) : Inv s -> Inv (onMoveEnd s).
Proof. intro H; inv_fields H. constructor; inv_goal. Qed.

Lemma Inv_onZoomEnd (s : State) : Inv s -> Inv (onZoomEnd s).
Proof.
  intro H. unfold onZoomEnd.
  destruct (map_zoom s <? FETCH_ZOOM_THRESHOLD)%Z; cbn [negb].
  - inv_fields H. constructor; inv_goal.
  - apply Inv_fetchParcelsForView. inv_fields H. constructor; inv_goal.
Qed.

Lemma Inv_set_drawButtonDisabled (v : bool) (s : State) :
  Inv s -> Inv (set_drawButtonDisabled v s).
Proof. intro H; inv_fields H. constructor; inv_goal. Qed.

Lemma Inv_handleDeletePolygon (s : State) :
  Inv s -> Inv (handleDeletePolygon s).
Proof.
  intro H. unfold handleDeletePolygon, drop_drawingLayer.
  apply Inv_set_drawButtonDisabled, Inv_redrawParcels.
  inv_fields H.
  destruct (userPolygonRef s) as [p|] eqn:Hp;
    destruct (drawingLayerRef s) as [q|] eqn:Hq; simp; rewrite ?Hq; simp;
    cbn in I_shapes.
  - destruct (isDrawingRef s) eqn:Hd;
      [specialize (I_exclusive eq_refl) | specialize (I_preview eq_refl)];
      discriminate.
  - constructor; simp; rewrite ?Hp, ?Hq, ?I_shapes; simp;
      rewrite ?Nat.eqb_refl; inv_goal.
  - constructor; simp; rewrite ?Hp, ?Hq, ?I_shapes; simp;
      rewrite ?Nat.eqb_refl; inv_goal.
  - constructor; simp; rewrite ?Hp, ?Hq, ?I_shapes; inv_goal.
Qed.

Lemma Inv_step (s : State) (e : Event) : Inv s -> Inv (step s e).
Proof.
  intro H. destruct e as [latlng| | | |z b| |r]; cbn [step].
  - now apply Inv_onClick.
  - now apply Inv_onDblClick.
  - now apply Inv_startDrawing.
  - destruct (hasUserPolygon s); [now apply Inv_handleDeletePolygon | exact H].
  - assert (H1 : Inv (set_map_bounds b (set_map_zoom z s)))
      by (inv_fields H; constructor; inv_goal).
    revert H1. generalize (set_map_bounds b (set_map_zoom z s)) as s1.
    intros s1 H1. destruct (subscribed s1); [|exact H1].
    apply Inv_onMoveEnd.
    destruct (negb (z =? map_zoom s)%Z); [now apply Inv_onZoomEnd | exact H1].
  - destruct (timeout s); [|exact H].
    apply Inv_fetchParcelsForView. inv_fields H. constructor; inv_goal.
  - destruct (awaiting s) as [|n]; [exact H|].
    assert (H1 : Inv (fetchParcelsForView_resume r (set_awaiting n s))).
    { apply Inv_resume. inv_fields H. constructor; inv_goal. }
    revert H1. generalize (fetchParcelsForView_resume r (set_awaiting n s)).
    intros s1 H1. inv_fields H1. constructor; inv_goal.
Qed.

Lemma Inv_initial (b : Bounds) : Inv (initial b).
Proof.
  unfold initial. apply Inv_fetchParcelsForView.
  constructor; simp; auto; try discriminate; try lia.
Qed.

Lemma reachable_Inv (s : State) : reachable s -> Inv s.
Proof.
  induction 1 as [b|s e _ IH]; [apply Inv_initial | now apply Inv_step].
Qed.

(** ** What the handlers leave alone *)

Ltac split_cases :=
  simp;
  repeat match goal with
         | |- context [match userPolygonRef ?s with _ => _ end] =>
             is_var s; let E := fresh "E" in
             destruct (userPolygonRef s) eqn:E; simp; rewrite ?E
         | |- context [match drawingLayerRef ?s with _ => _ end] =>
             is_var s; let E := fresh "E" in
             destruct (drawingLayerRef s) eqn:E; simp; rewrite ?E
         end.

Ltac frame := split_cases; repeat split; simp; congruence.

Lemma redrawParcels_frame (s : State) :
  sent (redrawParcels s) = sent s
  /\ awaiting (redrawParcels s) = awaiting s
  /\ timeout (redrawParcels s) = timeout s
  /\ parcelsRef (redrawParcels s) = parcelsRef s
  /\ count (redrawParcels s) = count s
  /\ isDrawingRef (redrawParcels s) = isDrawingRef s.
Proof. rewrite redrawParcels_eq. frame. Qed.

Lemma finishDrawing_sent (s : State) :
  sent (finishDrawing s) = sent s
  /\ awaiting (finishDrawing s) = awaiting s
  /\ timeout (finishDrawing s) = timeout s
  /\ parcelsRef (finishDrawing s) = parcelsRef s
  /\ count (finishDrawing s) = count s.
Proof.
  unfold finishDrawing, drop_drawingLayer.
  destruct (isDrawingRef s); cbn [negb]; [|frame].
  simp. destruct (List.length (drawPointsRef s) <? 3)%nat; [frame|].
  rewrite redrawParcels_eq. frame.
Qed.

Lemma fetchParcelsForView_sent (s : State) :
  sent (fetchParcelsForView s)
  = if (map_zoom s <? FETCH_ZOOM_THRESHOLD)%Z then sent s
    else if isDrawingRef s then sent s
    else view_query (map_bounds s) :: sent s.
Proof.
  unfold fetchParcelsForView.
  destruct (map_zoom s <? FETCH_ZOOM_THRESHOLD)%Z; [reflexivity|].
  simp. destruct (isDrawingRef s); reflexivity.
Qed.

Lemma resume_sent (r : Response) (s : State) :
  sent (fetchParcelsForView_resume r s) = sent s
  /\ awaiting (fetchParcelsForView_resume r s) = awaiting s
  /\ timeout (fetchParcelsForView_resume r s) = timeout s.
Proof.
  unfold fetchParcelsForView_resume.
  destruct (error r); [frame|].
  rewrite redrawParcels_eq. frame.
Qed.

Lemma onClick_sent (latlng : Geo.LatLng) (s : State) :
  sent (onClick latlng s) = sent s.
Proof.
  unfold onClick. destruct (isDrawingRef s); cbn [negb]; [|reflexivity].
  match goal with
  | |- sent (if ?c then finishDrawing ?t else ?t) = _ =>
      assert (E : sent t = sent s) by frame;
      destruct c; [rewrite (proj1 (finishDrawing_sent t))|]; exact E
  end.
Qed.

Lemma handleDeletePolygon_sent (s : State) :
  sent (handleDeletePolygon s) = sent s
  /\ awaiting (handleDeletePolygon s) = awaiting s
  /\ timeout (handleDeletePolygon s) = timeout s
  /\ parcelsRef (handleDeletePolygon s) = parcelsRef s
  /\ count (handleDeletePolygon s) = count s.
Proof.
  unfold handleDeletePolygon, drop_drawingLayer. rewrite redrawParcels_eq.
  frame.
Qed.

Lemma step_drawing_sent (s : State) (e : Event) :
  isDrawingRef s = true -> sent (step s e) = sent s.
Proof.
  intro Hd. destruct e as [latlng| | | |z b| |r]; cbn [step].
  - apply onClick_sent.
  - unfold onDblClick. rewrite Hd. apply finishDrawing_sent.
  - unfold startDrawing. rewrite Hd, !orb_true_r. reflexivity.
  - destruct (hasUserPolygon s); [apply handleDeletePolygon_sent | reflexivity].
  - simp. destruct (subscribed s); [|reflexivity].
    destruct (negb (z =? map_zoom s)%Z); [|reflexivity].
    unfold onZoomEnd. simp.
    destruct (z <? FETCH_ZOOM_THRESHOLD)%Z eqn:Hz; [reflexivity|].
    simp. rewrite fetchParcelsForView_sent. simp. rewrite Hz, Hd.
    reflexivity.
  - destruct (timeout s); [|reflexivity].
    rewrite fetchParcelsForView_sent. simp. rewrite Hd.
    now destruct (map_zoom s <? FETCH_ZOOM_THRESHOLD)%Z.
  - destruct (awaiting s) as [|n]; [reflexivity|].
    change (sent (fetchParcelsForView_resume r (set_awaiting n s)) = sent s).
    now rewrite (proj1 (resume_sent r _)).
Qed.

Lemma reachable_run (s : State) (es : list Event) :
  reachable s -> reachable (run_events s es).
Proof.
  revert s. induction es as [|e es IH]; intros s H; [exact H|].
  apply IH. now constructor.
Qed.

(** * The claims about the component *)

(** C3. Below the fetch threshold [fetchParcelsForView] shows the zoom
    advisory (state and ref), empties the cache, clears the parcel layer,
    resets the count to 0, and returns with no query sent and none
    awaited. *)
Theorem fetchParcelsForView_below_threshold (s : State) :
  (map_zoom s < FETCH_ZOOM_THRESHOLD)%Z ->
  showZoomMessage (fetchParcelsForView s) = true
  /\ showZoomMessageRef (fetchParcelsForView s) = true
  /\ parcelsRef (fetchParcelsForView s) = []
  /\ parcelsLayer (fetchParcelsForView s) = []
  /\ count (fetchParcelsForView s) = 0%nat
  /\ sent (fetchParcelsForView s) = sent s
  /\ awaiting (fetchParcelsForView s) = awaiting s.
Proof.
  intro Hz. apply Z.ltb_lt in Hz. unfold fetchParcelsForView.
  rewrite Hz. repeat split.
Qed.

Lemma fetchParcelsForView_below_threshold_witness :
  parcelsRef (fetchParcelsForView (set_map_zoom 14 sample_loaded)) = []
  /\ sent (fetchParcelsForView (set_map_zoom 14 sample_loaded))
     = sent (set_map_zoom 14 sample_loaded).
Proof.
  destruct (fetchParcelsForView_below_threshold (set_map_zoom 14 sample_loaded))
    as (_ & _ & Hcache & _ & _ & Hsent & _).
  - reflexivity.
  - split; assumption.
Defined.

Lemma fetch_failure_clears (s : State) (r : Response) (message : string) :
  error r = Some message ->
  errorMsg (fetchParcelsForView_resume r s) = Some message
  /\ parcelsRef (fetchParcelsForView_resume r s) = []
  /\ parcelsLayer (fetchParcelsForView_resume r s) = []
  /\ count (fetchParcelsForView_resume r s) = 0%nat
  /\ loading (fetchParcelsForView_resume r s) = false
  /\ sent (fetchParcelsForView_resume r s) = sent s
  /\ awaiting (fetchParcelsForView_resume r s) = awaiting s
  /\ timeout (fetchParcelsForView_resume r s) = timeout s.
Proof.
  intro He. unfold fetchParcelsForView_resume. rewrite He. repeat split.
Qed.

(** C6, and where the code departs from it.  When the query fails,
    the resumed [fetchParcelsForView] stores the error message in
    [errorMsg], empties the cache, clears the parcel layer, resets the count
    to 0, ends loading, and sends no query and starts no timer; but nothing
    of what the component puts on screen changes: the message is kept in a
    state that is never rendered. *)
Theorem fetch_failure_not_rendered (s : State) (r : Response)
    (message : string) (viewType : ViewType) :
  error r = Some message ->
  errorMsg (fetchParcelsForView_resume r s) = Some message
  /\ render viewType (fetchParcelsForView_resume r s) = render viewType s
  /\ parcelsRef (fetchParcelsForView_resume r s) = []
  /\ parcelsLayer (fetchParcelsForView_resume r s) = []
  /\ count (fetchParcelsForView_resume r s) = 0%nat
  /\ sent (fetchParcelsForView_resume r s) = sent s
  /\ awaiting (fetchParcelsForView_resume r s) = awaiting s
  /\ timeout (fetchParcelsForView_resume r s) = timeout s.
Proof.
  intro He.
  destruct (fetch_failure_clears s r message He)
    as (Hm & Hc & Hl & Hn & _ & Hs & Ha & Ht).
  assert (Hr : render viewType (fetchParcelsForView_resume r s)
               = render viewType s).
  { unfold render, fetchParcelsForView_resume. rewrite He. reflexivity. }
  split; [exact Hm|]. split; [exact Hr|].
  repeat split; assumption.
Qed.

Lemma fetch_failure_not_rendered_witness :
  errorMsg (fetchParcelsForView_resume sample_failure sample_loaded)
  = Some "connection refused"%string
  /\ render Satellite (fetchParcelsForView_resume sample_failure sample_loaded)
     = [Text "Map controls"; Text "Base layer";
        Button "Street" false; Button "Satellite" true].
Proof.
  destruct (fetch_failure_not_rendered sample_loaded sample_failure
              "connection refused" Satellite eq_refl) as (Hmsg & Hr & _).
  split; [exact Hmsg|]. rewrite Hr. vm_compute. reflexivity.
Defined.

(** C10. Each operation that changes the cache leaves the displayed count
    equal to the number of cached parcels, and the two agree in every state
    the component can reach. *)
Theorem count_matches_cache :
  (forall s, (map_zoom s < FETCH_ZOOM_THRESHOLD)%Z ->
     count (fetchParcelsForView s)
     = List.length (parcelsRef (fetchParcelsForView s)))
  /\ (forall s r,
        count (fetchParcelsForView_resume r s)
        = List.length (parcelsRef (fetchParcelsForView_resume r s)))
  /\ (forall s, reachable s -> count s = List.length (parcelsRef s)).
Proof.
  split; [|split].
  - intros s Hz.
    destruct (fetchParcelsForView_below_threshold s Hz)
      as (_ & _ & -> & _ & -> & _). reflexivity.
  - intros s r. unfold fetchParcelsForView_resume.
    destruct (error r); [reflexivity|].
    rewrite redrawParcels_eq. reflexivity.
  - intros s H. apply reachable_Inv in H. apply H.
Qed.

Lemma count_matches_cache_witness :
  count (fetchParcelsForView (set_map_zoom 14 sample_loaded))
  = List.length (parcelsRef (fetchParcelsForView (set_map_zoom 14 sample_loaded)))
  /\ count sample_drawing = List.length (parcelsRef sample_drawing).
Proof.
  destruct count_matches_cache as (Hlow & _ & Hreach). split.
  - apply Hlow. reflexivity.
  - apply Hreach. unfold sample_drawing, sample_loaded.
    repeat apply reachable_run. constructor.
Defined.

(** C5. [redrawParcels] replaces the parcel layer and touches nothing else:
    below the draw threshold the layer is left empty; otherwise it holds, in
    cache order, the geometry of every cached parcel that has one and is not
    [skipped], where a parcel is skipped exactly when a filter ring is
    active, both centroid coordinates are present and [pointInPolygon] on
    the centroid is false.  Redrawing twice is the same as redrawing once. *)
Theorem redrawParcels_renders_filtered (s : State) :
  redrawParcels s
  = set_parcelsLayer
      (if (map_zoom s <? DRAW_ZOOM_THRESHOLD)%Z then []
       else shown (filterLatLngs s) (parcelsRef s)) s
  /\ (forall p,
        skipped (filterLatLngs s) p = true <->
        exists ring lat lon,
          filterLatLngs s = Some ring
          /\ ParcelRow.lat p = Some lat /\ ParcelRow.lon p = Some lon
          /\ Geo.pointInPolygon lon lat ring = false)
  /\ (forall geometry,
        In geometry (shown (filterLatLngs s) (parcelsRef s)) <->
        exists p,
          In p (parcelsRef s)
          /\ ParcelRow.geometry p = Some geometry
          /\ skipped (filterLatLngs s) p = false)
  /\ redrawParcels (redrawParcels s) = redrawParcels s.
Proof.
  split; [apply redrawParcels_eq|]. split; [|split].
  - intro p. unfold skipped.
    destruct (filterLatLngs s) as [ring|], (ParcelRow.lat p) as [la|],
             (ParcelRow.lon p) as [lo|];
      try (split; [discriminate | intros (? & ? & ? & ? & ? & ? & ?); discriminate]).
    rewrite negb_true_iff. split.
    + intro H. now exists ring, la, lo.
    + intros (? & ? & ? & [= <-] & [= <-] & [= <-] & H). exact H.
  - intro g. unfold shown. rewrite in_flat_map. split.
    + intros (p & Hin & Hg). exists p. split; [exact Hin|].
      destruct (ParcelRow.geometry p) as [g'|]; [|destruct Hg].
      destruct (skipped (filterLatLngs s) p); [destruct Hg|].
      destruct Hg as [<-|[]]. auto.
    + intros (p & Hin & Hg & Hs). exists p. split; [exact Hin|].
      rewrite Hg, Hs. now left.
  - rewrite !redrawParcels_eq. reflexivity.
Qed.

(** C2. At or above the fetch threshold and not drawing,
    [fetchParcelsForView] sends exactly one query: on the six columns,
    limited to 300 rows, selecting the rows whose [lat] and [lon] lie
    strictly between the viewport's bounds.  When that query succeeds the
    cache becomes the rows of the result that have a geometry, the count
    their number, and the layer is redrawn from them.  While drawing, no
    event makes the component send a query. *)
Theorem fetchParcelsForView_fetches_viewport :
  (forall s,
      (FETCH_ZOOM_THRESHOLD <= map_zoom s)%Z -> isDrawingRef s = false ->
      sent (fetchParcelsForView s) = view_query (map_bounds s) :: sent s
      /\ awaiting (fetchParcelsForView s) = S (awaiting s))
  /\ (forall b,
        q_select (view_query b)
        = "id, geometry, zoning, usedesc, lat, lon"%string
        /\ q_limit (view_query b) = 300%nat
        /\ forall r, selects (view_query b) r = true <-> strictly_in_view b r)
  /\ (forall s r,
        error r = None ->
        let rows := match data r with Some rows => rows | None => [] end in
        parcelsRef (fetchParcelsForView_resume r s)
        = List.filter has_geometry rows
        /\ count (fetchParcelsForView_resume r s)
           = List.length (List.filter has_geometry rows)
        /\ parcelsLayer (fetchParcelsForView_resume r s)
           = (if (map_zoom s <? DRAW_ZOOM_THRESHOLD)%Z then []
              else shown (filterLatLngs s) (List.filter has_geometry rows)))
  /\ (forall s, isDrawingRef s = true ->
        sent (fetchParcelsForView s) = sent s)
  /\ (forall s e, isDrawingRef s = true -> sent (step s e) = sent s).
Proof.
  split; [|split; [|split; [|split]]].
  - intros s Hz Hd. apply Z.ltb_ge in Hz.
    unfold fetchParcelsForView. rewrite Hz. simp. rewrite Hd. split; reflexivity.
  - intro b. split; [reflexivity|]. split; [reflexivity|].
    intro r. unfold selects, strictly_in_view. cbn.
    destruct (ParcelRow.lat r) as [la|], (ParcelRow.lon r) as [lo|];
      rewrite ?andb_true_iff, ?andb_false_r; cbn.
    + split.
      * intros (H1 & H2 & H3 & H4 & _). exists la, lo. auto 10.
      * intros (? & ? & [= <-] & [= <-] & H1 & H2 & H3 & H4). auto 10.
    + split; [|intros (? & ? & _ & ? & _); discriminate].
      intros (_ & _ & H & _). discriminate.
    + split; [|intros (? & ? & ? & _); discriminate].
      intros (H & _). discriminate.
    + split; [|intros (? & ? & ? & _); discriminate].
      intros (H & _). discriminate.
  - intros s r He rows. unfold fetchParcelsForView_resume. rewrite He.
    fold rows. rewrite redrawParcels_eq. repeat split.
  - intros s Hd. rewrite fetchParcelsForView_sent, Hd.
    now destruct (map_zoom s <? FETCH_ZOOM_THRESHOLD)%Z.
  - exact step_drawing_sent.
Qed.

Lemma fetchParcelsForView_fetches_viewport_witness :
  sent (fetchParcelsForView sample_loaded)
  = view_query sample_bounds :: sent sample_loaded
  /\ List.length (parcelsRef (fetchParcelsForView_resume sample_success sample_loaded))
     = 2%nat
  /\ sent (step sample_drawing Timer) = sent sample_drawing.
Proof.
  destruct fetchParcelsForView_fetches_viewport as (Hsend & _ & Hok & _ & Hdraw).
  split; [|split].
  - apply (Hsend sample_loaded); [vm_compute; discriminate | reflexivity].
  - rewrite (proj1 (Hok sample_loaded sample_success eq_refl)). reflexivity.
  - apply Hdraw. reflexivity.
Defined.

Lemma redrawParcels_renders_filtered_witness :
  parcelsLayer (redrawParcels sample_filtered)
  = [sample_geometry 33.375 (-112.125)]
  /\ redrawParcels (redrawParcels sample_filtered) = redrawParcels sample_filtered.
Proof.
  destruct (redrawParcels_renders_filtered sample_filtered) as (Heq & _ & _ & Hidem).
  split; [|exact Hidem].
  rewrite Heq. vm_compute. reflexivity.
Defined.

(** C7, as the code has it.  Once the component listens to the map (its
    initial fetch has settled), when the zoom level drops from at or above
    the threshold to below it, the [zoomend] handler at once shows the
    advisory, disables the draw button and clears the parcel layer, and
    arms the timer of the accompanying [moveend], while the cache and the
    count are still as they were; once that timer has fired the cache is
    empty, the layer is clear, the count is 0, the advisory is shown and the
    draw button is disabled, with no query sent. *)
Theorem zoom_out_clears (s : State) (z : Z) (b : Bounds) :
  subscribed s = true ->
  (FETCH_ZOOM_THRESHOLD <= map_zoom s)%Z ->
  (z < FETCH_ZOOM_THRESHOLD)%Z ->
  (showZoomMessage (step s (ViewChange z b)) = true
   /\ drawButtonDisabled (step s (ViewChange z b)) = true
   /\ parcelsLayer (step s (ViewChange z b)) = []
   /\ timeout (step s (ViewChange z b)) = true
   /\ parcelsRef (step s (ViewChange z b)) = parcelsRef s
   /\ count (step s (ViewChange z b)) = count s)
  /\ (parcelsRef (step (step s (ViewChange z b)) Timer) = []
      /\ parcelsLayer (step (step s (ViewChange z b)) Timer) = []
      /\ count (step (step s (ViewChange z b)) Timer) = 0%nat
      /\ showZoomMessage (step (step s (ViewChange z b)) Timer) = true
      /\ drawButtonDisabled (step (step s (ViewChange z b)) Timer) = true
      /\ sent (step (step s (ViewChange z b)) Timer) = sent s).
Proof.
  intros Hsub Hhigh Hlow.
  assert (Hne : negb (z =? map_zoom s)%Z = true).
  { apply negb_true_iff, Z.eqb_neq. lia. }
  apply Z.ltb_lt in Hlow.
  assert (E : step s (ViewChange z b)
              = onMoveEnd (onZoomEnd (set_map_bounds b (set_map_zoom z s)))).
  { cbn [step]. simp. rewrite Hsub, Hne. reflexivity. }
  rewrite E. cbn [step].
  unfold onMoveEnd, onZoomEnd, fetchParcelsForView. simp. rewrite Hlow. simp.
  rewrite Hlow. repeat split.
Qed.

Lemma zoom_out_clears_witness :
  parcelsRef (step (step sample_loaded (ViewChange 14 sample_bounds)) Timer) = []
  /\ count (step (step sample_loaded (ViewChange 14 sample_bounds)) Timer) = 0%nat
  /\ drawButtonDisabled
       (step (step sample_loaded (ViewChange 14 sample_bounds)) Timer) = true.
Proof.
  destruct (zoom_out_clears sample_loaded 14 sample_bounds)
    as (_ & Hcache & _ & Hcount & _ & Hbtn & _).
  - reflexivity.
  - vm_compute. discriminate.
  - reflexivity.
  - repeat split; assumption.
Defined.

(** C7 as stated fails.  Right after the zoom change from 17 to 14 the
    cache and the count are still those of the parcels fetched at zoom 17:
    they are reset only when the debounce timer fires.  And a zoom change
    made before the initial fetch has settled is not heard at all: the map
    ends at zoom 14 with the fetched parcels cached and counted, no advisory
    and the draw button enabled, whatever timer fires afterwards. *)
Lemma zoom_out_keeps_cache_and_count :
  (map_zoom sample_loaded = 17%Z
   /\ map_zoom (step sample_loaded (ViewChange 14 sample_bounds)) = 14%Z
   /\ List.length
        (parcelsRef (step sample_loaded (ViewChange 14 sample_bounds)))
      = 2%nat
   /\ count (step sample_loaded (ViewChange 14 sample_bounds)) = 2%nat)
  /\ (map_zoom
        (run_events (initial sample_bounds) [ViewChange 17 sample_bounds])
      = 17%Z
      /\ map_zoom
           (run_events (initial sample_bounds)
              [ViewChange 17 sample_bounds; ViewChange 14 sample_bounds;
               Timer; Settle sample_success; Timer]) = 14%Z
      /\ showZoomMessage
           (run_events (initial sample_bounds)
              [ViewChange 17 sample_bounds; ViewChange 14 sample_bounds;
               Timer; Settle sample_success; Timer]) = false
      /\ drawButtonDisabled
           (run_events (initial sample_bounds)
              [ViewChange 17 sample_bounds; ViewChange 14 sample_bounds;
               Timer; Settle sample_success; Timer]) = false
      /\ List.length
           (parcelsRef
              (run_events (initial sample_bounds)
                 [ViewChange 17 sample_bounds; ViewChange 14 sample_bounds;
                  Timer; Settle sample_success; Timer])) = 2%nat
      /\ count
           (run_events (initial sample_bounds)
              [ViewChange 17 sample_bounds; ViewChange 14 sample_bounds;
               Timer; Settle sample_success; Timer]) = 2%nat).
Proof.
  repeat split; vm_compute; reflexivity.
Qed.

Lemma shown_all (parcels : list ParcelRow.t) :
  forallb has_geometry parcels = true ->
  map Some (shown None parcels) = map ParcelRow.geometry parcels.
Proof.
  induction parcels as [|p ps IH]; [reflexivity|].
  cbn [forallb]. rewrite andb_true_iff. intros [Hp Hps].
  unfold shown in *. cbn [flat_map map]. unfold has_geometry in Hp.
  destruct (ParcelRow.geometry p) as [g|]; [|discriminate].
  unfold skipped at 1. cbn [app map]. now rewrite IH.
Qed.

(** C8. [handleDeletePolygon] forgets the finalized polygon and the
    preview, empties the vertex sequence, leaves the component idle (neither
    drawing nor holding a polygon), and redraws with no filter: at or above
    the draw threshold the layer holds the geometry of every cached parcel.
    The cache, the count, the queries sent and awaited and the timer are as
    before.  In a state the component can reach, no polygon shape is left on
    the map. *)
Theorem handleDeletePolygon_restores_all (s : State) :
  reachable s ->
  userPolygonRef (handleDeletePolygon s) = None
  /\ drawingLayerRef (handleDeletePolygon s) = None
  /\ map_shapes (handleDeletePolygon s) = []
  /\ drawPointsRef (handleDeletePolygon s) = []
  /\ isDrawingRef (handleDeletePolygon s) = false
  /\ isDrawing (handleDeletePolygon s) = false
  /\ hasUserPolygonRef (handleDeletePolygon s) = false
  /\ hasUserPolygon (handleDeletePolygon s) = false
  /\ filterLatLngs (handleDeletePolygon s) = None
  /\ parcelsLayer (handleDeletePolygon s)
     = (if (map_zoom s <? DRAW_ZOOM_THRESHOLD)%Z then []
        else shown None (parcelsRef s))
  /\ ((DRAW_ZOOM_THRESHOLD <= map_zoom s)%Z ->
      map Some (parcelsLayer (handleDeletePolygon s))
      = map ParcelRow.geometry (parcelsRef s))
  /\ parcelsRef (handleDeletePolygon s) = parcelsRef s
  /\ count (handleDeletePolygon s) = count s
  /\ sent (handleDeletePolygon s) = sent s
  /\ awaiting (handleDeletePolygon s) = awaiting s
  /\ timeout (handleDeletePolygon s) = timeout s.
Proof.
  intro Hreach. pose proof (reachable_Inv _ Hreach) as Hinv.
  pose proof (Inv_handleDeletePolygon s Hinv) as Hinv'.
  assert (Hu : userPolygonRef (handleDeletePolygon s) = None).
  { unfold handleDeletePolygon, drop_drawingLayer. rewrite redrawParcels_eq.
    frame. }
  assert (Hq : drawingLayerRef (handleDeletePolygon s) = None).
  { unfold handleDeletePolygon, drop_drawingLayer. rewrite redrawParcels_eq.
    frame. }
  assert (Hlayer : parcelsLayer (handleDeletePolygon s)
                   = (if (map_zoom s <? DRAW_ZOOM_THRESHOLD)%Z then []
                      else shown None (parcelsRef s))).
  { unfold handleDeletePolygon, drop_drawingLayer. rewrite redrawParcels_eq.
    unfold filterLatLngs. frame. }
  split; [exact Hu|]. split; [exact Hq|]. split.
  { rewrite (inv_shapes _ Hinv'), Hu, Hq. reflexivity. }
  split; [unfold handleDeletePolygon; rewrite redrawParcels_eq; reflexivity|].
  split; [unfold handleDeletePolygon; rewrite redrawParcels_eq; reflexivity|].
  split; [unfold handleDeletePolygon; rewrite redrawParcels_eq; reflexivity|].
  split; [unfold handleDeletePolygon; rewrite redrawParcels_eq; reflexivity|].
  split; [unfold handleDeletePolygon; rewrite redrawParcels_eq; reflexivity|].
  split; [unfold filterLatLngs; now rewrite Hu|].
  split; [exact Hlayer|]. split.
  { intro Hz. apply Z.ltb_ge in Hz. rewrite Hlayer, Hz.
    apply shown_all, (inv_cache _ Hinv). }
  pose proof (handleDeletePolygon_sent s) as (? & ? & ? & ? & ?).
  repeat split; assumption.
Qed.

Lemma handleDeletePolygon_restores_all_witness :
  userPolygonRef (handleDeletePolygon sample_filtered) = None
  /\ List.length (parcelsLayer (handleDeletePolygon sample_filtered)) = 2%nat
  /\ sent (handleDeletePolygon sample_filtered) = sent sample_filtered.
Proof.
  destruct (handleDeletePolygon_restores_all sample_filtered)
    as (Hu & _ & _ & _ & _ & _ & _ & _ & _ & Hlayer & _ & _ & _ & Hsent & _).
  - unfold sample_filtered, sample_drawing, sample_loaded.
    apply reach_step. repeat apply reachable_run. constructor.
  - split; [exact Hu|]. split; [|exact Hsent].
    rewrite Hlayer. reflexivity.
Defined.

Lemma finishDrawing_discards (s : State) :
  isDrawingRef s = true ->
  (List.length (drawPointsRef s) < 3)%nat ->
  finishDrawing s
  = set_drawPointsRef []
      (drop_drawingLayer
         (updateDrawButtonState
            (set_map_cursor ""
               (setIsDrawing false (set_isDrawingRef false s))))).
Proof.
  intros Hd Hlen. apply Nat.ltb_lt in Hlen.
  unfold finishDrawing. rewrite Hd. cbn [negb]. simp. now rewrite Hlen.
Qed.

(** ** What the library makes of the submitted vertices *)

Lemma removelast_length {A : Type} (l : list A) :
  List.length (removelast l) = Nat.pred (List.length l).
Proof.
  induction l as [|x [|y t] IH]; [reflexivity | reflexivity |].
  change (removelast (x :: y :: t)) with (x :: removelast (y :: t)).
  cbn [List.length] in *. now rewrite IH.
Qed.

Lemma convertLatLngs_cases (latlngs : list Geo.LatLng) :
  Leaflet.convertLatLngs latlngs = latlngs
  \/ (Leaflet.convertLatLngs latlngs = removelast latlngs
      /\ (2 <= List.length latlngs)%nat
      /\ exists first,
           hd_error latlngs = Some first
           /\ Leaflet.equals first (last latlngs first) = true).
Proof.
  unfold Leaflet.convertLatLngs. destruct latlngs as [|first t]; [now left|].
  destruct (2 <=? List.length (first :: t))%nat eqn:Hlen; [|now left].
  destruct (Leaflet.equals first (last (first :: t) first)) eqn:He;
    [|now left].
  right. apply Nat.leb_le in Hlen. split; [reflexivity|].
  split; [exact Hlen|]. now exists first.
Qed.

Lemma convertLatLngs_length (latlngs : list Geo.LatLng) :
  (Nat.pred (List.length latlngs)
   <= List.length (Leaflet.convertLatLngs latlngs))%nat
  /\ (List.length (Leaflet.convertLatLngs latlngs)
      <= List.length latlngs)%nat.
Proof.
  destruct (convertLatLngs_cases latlngs) as [-> | (-> & _)];
    [|rewrite removelast_length]; lia.
Qed.

Lemma convertLatLngs_open (latlngs : list Geo.LatLng) (first : Geo.LatLng) :
  hd_error latlngs = Some first ->
  Leaflet.equals first (last latlngs first) = false ->
  Leaflet.convertLatLngs latlngs = latlngs.
Proof.
  intros Hhd He.
  destruct (convertLatLngs_cases latlngs)
    as [H | (_ & _ & first' & Hhd' & He')]; [exact H|].
  congruence.
Qed.

Lemma finishDrawing_installs (s : State) :
  isDrawingRef s = true ->
  (3 <= List.length (drawPointsRef s))%nat ->
  userPolygonRef (finishDrawing s)
  = Some (mkPolygon (next_layer s)
            [Leaflet.convertLatLngs (firstn 4 (drawPointsRef s))])
  /\ hasUserPolygon (finishDrawing s) = true
  /\ hasUserPolygonRef (finishDrawing s) = true
  /\ drawingLayerRef (finishDrawing s) = None
  /\ drawPointsRef (finishDrawing s) = []
  /\ isDrawingRef (finishDrawing s) = false
  /\ isDrawing (finishDrawing s) = false
  /\ parcelsLayer (finishDrawing s)
     = (if (map_zoom s <? DRAW_ZOOM_THRESHOLD)%Z then []
        else shown (Some (Leaflet.convertLatLngs (firstn 4 (drawPointsRef s))))
               (parcelsRef s)).
Proof.
  intros Hd Hlen. apply Nat.ltb_ge in Hlen.
  unfold finishDrawing, drop_drawingLayer. rewrite Hd. cbn [negb]. simp.
  rewrite Hlen. rewrite final_points_firstn.
  split_cases; rewrite redrawParcels_eq; unfold filterLatLngs; simp;
    repeat split; assumption.
Qed.

Lemma finishDrawing_removes_old (s : State) (old : Polygon) :
  isDrawingRef s = true ->
  (3 <= List.length (drawPointsRef s))%nat ->
  userPolygonRef s = Some old ->
  layer_id old <> next_layer s ->
  ~ In (layer_id old) (map_shapes (finishDrawing s)).
Proof.
  intros Hd Hlen Hold Hfresh. apply Nat.ltb_ge in Hlen.
  unfold finishDrawing, drop_drawingLayer. rewrite Hd. cbn [negb]. simp.
  rewrite Hlen, Hold. simp. rewrite redrawParcels_eq. simp.
  assert (Hout : ~ In (layer_id old)
                   (List.filter (fun i => negb (i =? layer_id old)%nat)
                      (map_shapes s) ++ [next_layer s])).
  { rewrite in_app_iff. intros [Hin|[Heq|[]]].
    - apply filter_In in Hin as [_ Hne]. now rewrite Nat.eqb_refl in Hne.
    - now apply Hfresh. }
  destruct (drawingLayerRef s) as [q|]; simp; [|exact Hout].
  intro Hin. apply filter_In in Hin as [Hin _]. now apply Hout.
Qed.


(** X18. [finishDrawing] while drawing: with fewer than three submitted
    vertices it drops the preview and the vertex sequence and leaves the
    filter polygon as it was, with no redraw and no query; with three or
    more it installs as the filter the polygon the library makes of the
    first four, drops the preview and the vertex sequence, and redraws from
    the cache with no query.  The click that places the fourth vertex
    finishes at once.  In every state the component can reach, the filter
    polygon was made from three or four submitted vertices and has two to
    four vertices, exactly the submitted ones unless the last repeats the
    first; and after [finishDrawing] the only polygon shape on the map is
    the filter polygon, if any. *)
Theorem finishDrawing_bounds_filter :
  (forall s,
      isDrawingRef s = true -> (List.length (drawPointsRef s) < 3)%nat ->
      userPolygonRef (finishDrawing s) = userPolygonRef s
      /\ hasUserPolygon (finishDrawing s) = hasUserPolygon s
      /\ drawingLayerRef (finishDrawing s) = None
      /\ (forall q, drawingLayerRef s = Some q ->
            ~ In (layer_id q) (map_shapes (finishDrawing s)))
      /\ drawPointsRef (finishDrawing s) = []
      /\ isDrawingRef (finishDrawing s) = false
      /\ parcelsLayer (finishDrawing s) = parcelsLayer s
      /\ sent (finishDrawing s) = sent s)
  /\ (forall s,
        isDrawingRef s = true -> (3 <= List.length (drawPointsRef s))%nat ->
        userPolygonRef (finishDrawing s)
        = Some (mkPolygon (next_layer s)
                  [Leaflet.convertLatLngs (firstn 4 (drawPointsRef s))])
        /\ hasUserPolygon (finishDrawing s) = true
        /\ drawingLayerRef (finishDrawing s) = None
        /\ drawPointsRef (finishDrawing s) = []
        /\ isDrawingRef (finishDrawing s) = false
        /\ parcelsLayer (finishDrawing s)
           = (if (map_zoom s <? DRAW_ZOOM_THRESHOLD)%Z then []
              else shown
                     (Some (Leaflet.convertLatLngs (firstn 4 (drawPointsRef s))))
                     (parcelsRef s))
        /\ parcelsRef (finishDrawing s) = parcelsRef s
        /\ sent (finishDrawing s) = sent s
        /\ awaiting (finishDrawing s) = awaiting s
        /\ (forall old,
              userPolygonRef s = Some old ->
              layer_id old <> next_layer s ->
              ~ In (layer_id old) (map_shapes (finishDrawing s))))
  /\ (forall s latlng,
        isDrawingRef s = true -> List.length (drawPointsRef s) = 3%nat ->
        isDrawingRef (onClick latlng s) = false
        /\ exists polygon,
             userPolygonRef (onClick latlng s) = Some polygon
             /\ getLatLngs polygon
                = [Leaflet.convertLatLngs (drawPointsRef s ++ [latlng])])
  /\ (forall s, reachable s ->
        (forall polygon, userPolygonRef s = Some polygon ->
           exists latlngs,
             getLatLngs polygon = [Leaflet.convertLatLngs latlngs]
             /\ (3 <= List.length latlngs <= 4)%nat
             /\ (2 <= List.length (Leaflet.convertLatLngs latlngs) <= 4)%nat
             /\ (forall first,
                   hd_error latlngs = Some first ->
                   Leaflet.equals first (last latlngs first) = false ->
                   Leaflet.convertLatLngs latlngs = latlngs))
        /\ map_shapes (finishDrawing s)
           = layer_ids (userPolygonRef (finishDrawing s))).
Proof.
  split; [|split; [|split]].
  - intros s Hd Hlen. rewrite (finishDrawing_discards s Hd Hlen).
    unfold drop_drawingLayer. simp.
    destruct (drawingLayerRef s) as [q|] eqn:Hq; simp.
    + repeat split. intros q' Hq' Hin.
      assert (q' = q) as -> by congruence.
      apply filter_In in Hin as [_ Hne]. now rewrite Nat.eqb_refl in Hne.
    + repeat split; [exact Hq | intros q' Hq'; discriminate].
  - intros s Hd Hlen.
    destruct (finishDrawing_installs s Hd Hlen)
      as (Hu & Hh & _ & Hq & Hp & Hd' & _ & Hl).
    destruct (finishDrawing_sent s) as (Hs & Ha & _ & Hc & _).
    repeat split; try assumption.
    intros old Hold Hfresh. now apply finishDrawing_removes_old.
  - intros s latlng Hd Hlen. unfold onClick. rewrite Hd. cbn [negb].
    match goal with
    | |- context [if ?c then finishDrawing ?t else ?t] =>
        assert (Hpts : drawPointsRef t = drawPointsRef s ++ [latlng])
          by frame;
        assert (Hd2 : isDrawingRef t = true) by (split_cases; exact Hd);
        replace c with true
          by (rewrite Hpts, length_app, Hlen; reflexivity);
        destruct (finishDrawing_installs t Hd2) as (Hu & _ & _ & _ & _ & Hd' & _)
    end.
    + rewrite Hpts, length_app, Hlen. cbn. lia.
    + split; [exact Hd'|]. eexists. split; [exact Hu|].
      rewrite Hpts. cbn [getLatLngs]. do 2 f_equal.
      apply firstn_all2. rewrite length_app, Hlen. cbn. lia.
  - intros s Hreach. pose proof (reachable_Inv s Hreach) as Hinv. split.
    + intros polygon Hp.
      destruct (inv_polygon s Hinv polygon Hp) as (latlngs & Hg & Hlo & Hhi).
      exists latlngs. split; [exact Hg|]. split; [lia|].
      pose proof (convertLatLngs_length latlngs) as [L1 L2].
      split; [lia|]. intros first. apply convertLatLngs_open.
    + pose proof (Inv_finishDrawing s Hinv) as Hinv'.
      rewrite (inv_shapes _ Hinv').
      assert (Hq : drawingLayerRef (finishDrawing s) = None).
      { apply (inv_preview _ Hinv'). unfold finishDrawing.
        destruct (isDrawingRef s) eqn:Hd; cbn [negb]; [|exact Hd].
        unfold drop_drawingLayer. simp.
        destruct (List.length (drawPointsRef s) <? 3)%nat; [frame|].
        rewrite redrawParcels_eq. frame. }
      rewrite Hq. apply app_nil_r.
Qed.

Lemma finishDrawing_bounds_filter_witness :
  userPolygonRef (finishDrawing sample_drawing)
  = Some (mkPolygon 1 [[P1; P2; P3]])
  /\ sent (finishDrawing sample_drawing) = sent sample_drawing
  /\ userPolygonRef (finishDrawing (step (step sample_loaded DrawButton) (Click P1)))
     = None.
Proof.
  destruct finishDrawing_bounds_filter as (Hshort & Hlong & _ & _).
  destruct (Hlong sample_drawing) as (Hu & _ & _ & _ & _ & _ & _ & Hs & _).
  - reflexivity.
  - vm_compute. lia.
  - destruct (Hshort (step (step sample_loaded DrawButton) (Click P1)))
      as (Hu' & _).
    + reflexivity.
    + vm_compute. lia.
    + split; [rewrite Hu; vm_compute; reflexivity|]. split; [exact Hs|].
      rewrite Hu'. reflexivity.
Defined.

(** * The ring as a cycle *)

Section RingFacts.
Context {num : Type} (ops : NumOps num).

(** Each element of [l] paired with the one before it, [a] coming before the
    first. *)
Lemma prev_pairs_cons {A : Type} (a x : A) (t : list A) :
  combine (x :: t) (a :: removelast (x :: t))
  = (x, a) :: combine t (x :: removelast t).
Proof.
  destruct t as [|y u]; [reflexivity|]. reflexivity.
Qed.

Lemma last_cons_default {A : Type} (t : list A) :
  forall (x a : A), last (x :: t) a = last t x.
Proof.
  induction t as [|y u IH]; intros x a; [reflexivity|].
  change (last (x :: y :: u) a) with (last (y :: u) a).
  now rewrite !IH.
Qed.

Lemma prev_pairs_snoc {A : Type} (l : list A) :
  forall (a y : A),
    combine (l ++ [y]) (a :: removelast (l ++ [y]))
    = combine l (a :: removelast l) ++ [(y, last l a)].
Proof.
  induction l as [|x t IH]; intros a y; [reflexivity|].
  change ((x :: t) ++ [y]) with (x :: (t ++ [y])).
  rewrite !prev_pairs_cons, IH. cbn [app]. do 2 f_equal.
  now rewrite last_cons_default.
Qed.

Lemma edges_cons {A : Type} (x : A) (t : list A) :
  Exact.edges (x :: t) = (x, last t x) :: combine t (x :: removelast t).
Proof.
  unfold Exact.edges.
  destruct (rev (x :: t)) as [|l r] eqn:Hrev.
  - apply (f_equal (@List.length _)) in Hrev. rewrite length_rev in Hrev.
    discriminate.
  - assert (Hl : l = last t x).
    { apply (f_equal (@rev _)) in Hrev. rewrite rev_involutive in Hrev.
      cbn [rev] in Hrev.
      destruct t as [|y u] using rev_ind.
      - destruct (rev r); [now injection Hrev | ].
        apply (f_equal (@List.length _)) in Hrev.
        cbn in Hrev. rewrite length_app in Hrev. cbn in Hrev. lia.
      - rewrite last_last. rewrite app_comm_cons in Hrev.
        now apply app_inj_tail in Hrev. }
    subst l. apply prev_pairs_cons.
Qed.

Lemma edges_snoc {A : Type} (x : A) (t : list A) :
  Exact.edges (t ++ [x]) = combine t (x :: removelast t) ++ [(x, last t x)].
Proof.
  unfold Exact.edges. rewrite rev_app_distr. cbn [rev app].
  apply prev_pairs_snoc.
Qed.

Lemma crossings_perm (lon lat : num) (es es' : list (LatLng.t num * LatLng.t num)) :
  Permutation es es' ->
  forall inside,
    fold_left (fun acc e => xorb acc (Generic.intersect ops lon lat (fst e) (snd e))) es inside
    = fold_left (fun acc e => xorb acc (Generic.intersect ops lon lat (fst e) (snd e))) es' inside.
Proof.
  induction 1 as [|e l l' _ IH|e f l|l l' l'' _ IH1 _ IH2]; intro inside;
    cbn [fold_left].
  - reflexivity.
  - apply IH.
  - f_equal. now rewrite !xorb_assoc, (xorb_comm (Generic.intersect _ _ _ _ _)).
  - now rewrite IH1.
Qed.

Lemma pointInPolygon_rotate1 (lon lat : num) (x : LatLng.t num)
    (t : list (LatLng.t num)) :
  Generic.pointInPolygon ops lon lat (t ++ [x])
  = Generic.pointInPolygon ops lon lat (x :: t).
Proof.
  rewrite !pointInPolygon_edges, edges_cons, edges_snoc.
  apply (crossings_perm lon lat). symmetry. apply Permutation_cons_append.
Qed.

Lemma pointInPolygon_rotate (lon lat : num) (l1 : list (LatLng.t num)) :
  forall l2,
    Generic.pointInPolygon ops lon lat (l2 ++ l1)
    = Generic.pointInPolygon ops lon lat (l1 ++ l2).
Proof.
  induction l1 as [|x l1 IH]; intro l2.
  - now rewrite app_nil_r.
  - change ((x :: l1) ++ l2) with (x :: (l1 ++ l2)).
    rewrite <- pointInPolygon_rotate1, <- app_assoc, <- IH, <- app_assoc.
    reflexivity.
Qed.

Lemma intersect_self (lon lat : num) (p : LatLng.t num) :
  Generic.intersect ops lon lat p p = false.
Proof.
  unfold Generic.intersect, Generic.straddles. now rewrite xorb_nilpotent.
Qed.

Lemma pointInPolygon_repeat_head (lon lat : num) (p : LatLng.t num)
    (t : list (LatLng.t num)) :
  Generic.pointInPolygon ops lon lat (p :: p :: t)
  = Generic.pointInPolygon ops lon lat (p :: t).
Proof.
  rewrite !pointInPolygon_edges, !edges_cons.
  rewrite prev_pairs_cons. cbn [fold_left fst snd].
  rewrite intersect_self, xorb_false_r.
  rewrite last_cons_default.
  reflexivity.
Qed.

Lemma pointInPolygon_repeat (lon lat : num) (p : LatLng.t num)
    (l1 l2 : list (LatLng.t num)) :
  Generic.pointInPolygon ops lon lat (l1 ++ p :: p :: l2)
  = Generic.pointInPolygon ops lon lat (l1 ++ p :: l2).
Proof.
  rewrite (pointInPolygon_rotate lon lat (p :: p :: l2) l1).
  rewrite (pointInPolygon_rotate lon lat (p :: l2) l1).
  apply pointInPolygon_repeat_head.
Qed.

Lemma pointInPolygon_closed (lon lat : num) (p : LatLng.t num)
    (t : list (LatLng.t num)) :
  Generic.pointInPolygon ops lon lat (p :: t ++ [p])
  = Generic.pointInPolygon ops lon lat (p :: t).
Proof.
  rewrite app_comm_cons, pointInPolygon_rotate1.
  apply pointInPolygon_repeat_head.
Qed.

(** No edge counted: the answer is false. *)
Lemma crossings_none (lon lat : num) (es : list (LatLng.t num * LatLng.t num)) :
  (forall e, In e es -> Generic.intersect ops lon lat (fst e) (snd e) = false) ->
  fold_left (fun acc e => xorb acc (Generic.intersect ops lon lat (fst e) (snd e))) es false
  = false.
Proof.
  induction es as [|e t IH]; intro H; [reflexivity|].
  cbn [fold_left]. rewrite (H e) by now left. cbn [xorb].
  apply IH. intros f Hf. apply H. now right.
Qed.

Lemma pointInPolygon_no_crossing (lon lat : num) (ring : list (LatLng.t num)) :
  (forall pi pj, In pi ring -> In pj ring ->
     Generic.intersect ops lon lat pi pj = false) ->
  Generic.pointInPolygon ops lon lat ring = false.
Proof.
  intro H. rewrite pointInPolygon_edges. apply crossings_none.
  intros e He. apply edges_in in He as [H1 H2]. now apply H.
Qed.

End RingFacts.

(** * Further properties of [pointInPolygon] *)

(** X1. The answer of [pointInPolygon] does not depend on the vertex the
    ring starts from: rotating the list of vertices leaves it unchanged, on
    binary64 numbers as they are. *)
Theorem pointInPolygon_any_start (lon lat : float) (l1 l2 : list Geo.LatLng) :
  Geo.pointInPolygon lon lat (l2 ++ l1) = Geo.pointInPolygon lon lat (l1 ++ l2).
Proof. apply pointInPolygon_rotate. Qed.

(** X2. Repeating a vertex changes nothing: a vertex entered twice in a
    row (as a double click does), or a ring closed by a copy of its first
    vertex, gives the same answer as the ring without the copy. *)
Theorem pointInPolygon_repeated_vertex (lon lat : float) (p : Geo.LatLng)
    (l1 l2 : list Geo.LatLng) :
  Geo.pointInPolygon lon lat (l1 ++ p :: p :: l2)
  = Geo.pointInPolygon lon lat (l1 ++ p :: l2)
  /\ Geo.pointInPolygon lon lat (p :: l2 ++ [p])
     = Geo.pointInPolygon lon lat (p :: l2).
Proof.
  split; [apply pointInPolygon_repeat | apply pointInPolygon_closed].
Qed.

(** X3. A test point whose latitude is below the latitude of every vertex,
    or below none of them, is outside: no edge straddles its latitude, so
    [pointInPolygon] returns false whatever the longitudes are. *)
Theorem pointInPolygon_outside_band (lon lat : float) (ring : list Geo.LatLng) :
  forallb (fun p => PrimFloat.ltb lat (LatLng.lat p)) ring = true
  \/ forallb (fun p => negb (PrimFloat.ltb lat (LatLng.lat p))) ring = true ->
  Geo.pointInPolygon lon lat ring = false.
Proof.
  intro H. apply pointInPolygon_no_crossing. intros pi pj Hi Hj.
  unfold Generic.intersect, Generic.straddles. cbn [n_ltb Geo.float_ops].
  destruct H as [H|H]; rewrite forallb_forall in H;
    pose proof (H pi Hi) as Ei; pose proof (H pj Hj) as Ej; cbn beta in Ei, Ej.
  - now rewrite Ei, Ej.
  - apply negb_true_iff in Ei, Ej. now rewrite Ei, Ej.
Qed.

Lemma pointInPolygon_outside_band_witness :
  Geo.pointInPolygon (-112.125) 34 [P1; P2; P3; P4] = false
  /\ Geo.pointInPolygon (-112.125) 33 [P1; P2; P3; P4] = false.
Proof.
  split.
  - apply (pointInPolygon_outside_band (-112.125) 34 [P1; P2; P3; P4]).
    right. vm_compute. reflexivity.
  - apply (pointInPolygon_outside_band (-112.125) 33 [P1; P2; P3; P4]).
    left. vm_compute. reflexivity.
Defined.

Lemma SFeqb_refl_nan (a : spec_float) : SFeqb a a = false -> a = S754_nan.
Proof.
  unfold SFeqb.
  destruct a as [[]|[]| |[] m e]; cbn [SFcompare]; try discriminate;
    try reflexivity;
    rewrite Z.compare_refl, ?Pos.compare_cont_refl;
    try rewrite Pos.compare_cont_refl; cbn; discriminate.
Qed.

Lemma nan_ltb (x y : float) :
  PrimFloat.eqb x x = false ->
  PrimFloat.ltb x y = false /\ PrimFloat.ltb y x = false.
Proof.
  rewrite eqb_spec, !ltb_spec. intro H. apply SFeqb_refl_nan in H.
  rewrite H. split; [reflexivity|].
  unfold SFltb. now destruct (Prim2SF y) as [[]|[]| |[] ? ?].
Qed.

(** X4. When the latitude or the longitude of the test point is NaN,
    [pointInPolygon] returns false for every ring. *)
Theorem pointInPolygon_nan (lon lat : float) (ring : list Geo.LatLng) :
  PrimFloat.eqb lat lat = false \/ PrimFloat.eqb lon lon = false ->
  Geo.pointInPolygon lon lat ring = false.
Proof.
  intro H. apply pointInPolygon_no_crossing. intros pi pj _ _.
  unfold Generic.intersect, Generic.straddles. cbn [n_ltb Geo.float_ops].
  destruct H as [H|H].
  - rewrite (proj1 (nan_ltb lat (LatLng.lat pi) H)).
    rewrite (proj1 (nan_ltb lat (LatLng.lat pj) H)). reflexivity.
  - rewrite (proj1 (nan_ltb lon _ H)). apply andb_false_r.
Qed.

Lemma pointInPolygon_nan_witness :
  Geo.pointInPolygon (-112.125) PrimFloat.nan [P1; P2; P3; P4] = false
  /\ Geo.pointInPolygon PrimFloat.nan 33.375 [P1; P2; P3; P4] = false.
Proof.
  split.
  - apply (pointInPolygon_nan (-112.125) PrimFloat.nan [P1; P2; P3; P4]).
    left. vm_compute. reflexivity.
  - apply (pointInPolygon_nan PrimFloat.nan 33.375 [P1; P2; P3; P4]).
    right. vm_compute. reflexivity.
Defined.

(** * Frames and invariants of the component *)

(** ** What the drawing handlers leave alone *)

Lemma same_data_refl (s : State) : same_data s s.
Proof. repeat split. Qed.

Lemma same_data_trans (s1 s2 s3 : State) :
  same_data s1 s2 -> same_data s2 s3 -> same_data s1 s3.
Proof. unfold same_data. intuition congruence. Qed.

Lemma same_drawing_refl (s : State) : same_drawing s s.
Proof. repeat split. Qed.

Lemma same_drawing_trans (s1 s2 s3 : State) :
  same_drawing s1 s2 -> same_drawing s2 s3 -> same_drawing s1 s3.
Proof. unfold same_drawing. intuition congruence. Qed.

Lemma finishDrawing_data (s : State) : same_data (finishDrawing s) s.
Proof.
  unfold same_data, finishDrawing, drop_drawingLayer.
  destruct (isDrawingRef s); cbn [negb]; [|frame].
  simp. destruct (List.length (drawPointsRef s) <? 3)%nat; [frame|].
  rewrite redrawParcels_eq. frame.
Qed.

Lemma onClick_data (latlng : Geo.LatLng) (s : State) :
  same_data (onClick latlng s) s.
Proof.
  unfold onClick. destruct (isDrawingRef s); cbn [negb];
    [|apply same_data_refl].
  match goal with
  | |- same_data (if ?c then finishDrawing ?t else ?t) _ =>
      assert (E : same_data t s) by (unfold same_data; frame);
      destruct c; [|exact E];
      exact (same_data_trans _ _ _ (finishDrawing_data t) E)
  end.
Qed.

Lemma startDrawing_data (s : State) : same_data (startDrawing s) s.
Proof.
  unfold same_data, startDrawing, drop_drawingLayer.
  destruct (showZoomMessageRef s || hasUserPolygonRef s || isDrawingRef s);
    frame.
Qed.

Lemma handleDeletePolygon_data (s : State) :
  same_data (handleDeletePolygon s) s.
Proof.
  unfold same_data, handleDeletePolygon, drop_drawingLayer.
  rewrite redrawParcels_eq. frame.
Qed.

Lemma user_event_data (s : State) (e : Event) :
  user_event e = true -> same_data (step s e) s.
Proof.
  destruct e as [latlng| | | |z b| |r]; try discriminate; intros _; cbn [step].
  - apply onClick_data.
  - unfold onDblClick. destruct (isDrawingRef s);
      [apply finishDrawing_data | apply same_data_refl].
  - apply startDrawing_data.
  - destruct (hasUserPolygon s);
      [apply handleDeletePolygon_data | apply same_data_refl].
Qed.

(** ** What the view and the remote store leave alone *)

Lemma fetchParcelsForView_drawing (s : State) :
  same_drawing (fetchParcelsForView s) s.
Proof.
  unfold same_drawing, fetchParcelsForView.
  destruct (map_zoom s <? FETCH_ZOOM_THRESHOLD)%Z; [frame|].
  simp. destruct (isDrawingRef s) eqn:Hd; frame.
Qed.

Lemma resume_drawing (r : Response) (s : State) :
  same_drawing (fetchParcelsForView_resume r s) s.
Proof.
  unfold same_drawing, fetchParcelsForView_resume.
  destruct (error r); [frame|]. rewrite redrawParcels_eq. frame.
Qed.

Lemma onZoomEnd_drawing (s : State) : same_drawing (onZoomEnd s) s.
Proof.
  unfold onZoomEnd.
  destruct (map_zoom s <? FETCH_ZOOM_THRESHOLD)%Z; cbn [negb].
  - unfold same_drawing. frame.
  - eapply same_drawing_trans; [apply fetchParcelsForView_drawing|].
    unfold same_drawing. frame.
Qed.

Lemma view_event_drawing (s : State) (e : Event) :
  user_event e = false -> same_drawing (step s e) s.
Proof.
  destruct e as [latlng| | | |z b| |r]; try discriminate; intros _; cbn [step].
  - assert (H1 : same_drawing (set_map_bounds b (set_map_zoom z s)) s)
      by (unfold same_drawing; frame).
    revert H1. generalize (set_map_bounds b (set_map_zoom z s)) as s1.
    intros s1 H1. destruct (subscribed s1); [|exact H1].
    assert (H2 : forall t, same_drawing t s1 -> same_drawing (onMoveEnd t) s).
    { intros t Ht. eapply same_drawing_trans; [|exact H1].
      eapply same_drawing_trans; [|exact Ht]. unfold same_drawing. frame. }
    destruct (negb (z =? map_zoom s)%Z); apply H2;
      [apply onZoomEnd_drawing | apply same_drawing_refl].
  - destruct (timeout s); [|apply same_drawing_refl].
    eapply same_drawing_trans; [apply fetchParcelsForView_drawing|].
    unfold same_drawing. frame.
  - destruct (awaiting s) as [|n]; [apply same_drawing_refl|].
    assert (H1 : same_drawing (fetchParcelsForView_resume r (set_awaiting n s)) s).
    { eapply same_drawing_trans; [apply resume_drawing|].
      unfold same_drawing. frame. }
    revert H1. generalize (fetchParcelsForView_resume r (set_awaiting n s)).
    intros s1 H1. eapply same_drawing_trans; [|exact H1].
    unfold same_drawing. frame.
Qed.

(** ** The parcel layer follows the cache and the filter *)

Lemma rendered_ext (s s' : State) :
  parcelsLayer s' = parcelsLayer s ->
  userPolygonRef s' = userPolygonRef s ->
  parcelsRef s' = parcelsRef s ->
  map_zoom s' = map_zoom s ->
  rendered_ok s -> rendered_ok s'.
Proof.
  unfold rendered_ok, filterLatLngs. intros -> -> -> ->. exact (fun H => H).
Qed.

Lemma rendered_empty (s : State) : parcelsLayer s = [] -> rendered_ok s.
Proof. intro H. split; [now left | intros _; exact H]. Qed.

Lemma rendered_redraw (s : State) : rendered_ok (redrawParcels s).
Proof.
  rewrite redrawParcels_eq. unfold rendered_ok, filterLatLngs. simp.
  destruct (map_zoom s <? DRAW_ZOOM_THRESHOLD)%Z eqn:Hz.
  - split; [now left | reflexivity].
  - apply Z.ltb_ge in Hz. split; [now right | intro; lia].
Qed.

Lemma rendered_finishDrawing (s : State) :
  rendered_ok s -> rendered_ok (finishDrawing s).
Proof.
  intro H. unfold finishDrawing, drop_drawingLayer.
  destruct (isDrawingRef s); cbn [negb]; [|exact H].
  simp. destruct (List.length (drawPointsRef s) <? 3)%nat.
  - apply (rendered_ext s); [frame..|exact H].
  - apply rendered_redraw.
Qed.

Lemma rendered_onClick (latlng : Geo.LatLng) (s : State) :
  rendered_ok s -> rendered_ok (onClick latlng s).
Proof.
  intro H. unfold onClick. destruct (isDrawingRef s); cbn [negb]; [|exact H].
  match goal with
  | |- rendered_ok (if ?c then finishDrawing ?t else ?t) =>
      assert (E : rendered_ok t) by (apply (rendered_ext s); [frame..|exact H]);
      destruct c; [now apply rendered_finishDrawing | exact E]
  end.
Qed.

Lemma rendered_startDrawing (s : State) :
  rendered_ok s -> rendered_ok (startDrawing s).
Proof.
  intro H. unfold startDrawing, drop_drawingLayer.
  destruct (showZoomMessageRef s || hasUserPolygonRef s || isDrawingRef s);
    [exact H|].
  apply (rendered_ext s); [frame..|exact H].
Qed.

Lemma rendered_set_drawButtonDisabled (v : bool) (s : State) :
  rendered_ok s -> rendered_ok (set_drawButtonDisabled v s).
Proof. apply rendered_ext; reflexivity. Qed.

Lemma rendered_setLoading (v : bool) (s : State) :
  rendered_ok s -> rendered_ok (setLoading v s).
Proof. apply rendered_ext; reflexivity. Qed.

Lemma rendered_set_subscribed (v : bool) (s : State) :
  rendered_ok s -> rendered_ok (set_subscribed v s).
Proof. apply rendered_ext; reflexivity. Qed.

Lemma rendered_set_timeout (v : bool) (s : State) :
  rendered_ok s -> rendered_ok (set_timeout v s).
Proof. apply rendered_ext; reflexivity. Qed.

Lemma rendered_handleDeletePolygon (s : State) :
  rendered_ok (handleDeletePolygon s).
Proof.
  unfold handleDeletePolygon.
  apply rendered_set_drawButtonDisabled, rendered_redraw.
Qed.

Lemma rendered_fetchParcelsForView (s : State) :
  rendered_ok s -> rendered_ok (fetchParcelsForView s).
Proof.
  intro H. unfold fetchParcelsForView.
  destruct (map_zoom s <? FETCH_ZOOM_THRESHOLD)%Z.
  - now apply rendered_empty.
  - simp. destruct (isDrawingRef s);
      (apply (rendered_ext s); [frame..|exact H]).
Qed.

Lemma rendered_resume (r : Response) (s : State) :
  rendered_ok (fetchParcelsForView_resume r s).
Proof.
  unfold fetchParcelsForView_resume. apply rendered_setLoading.
  destruct (error r); [now apply rendered_empty | apply rendered_redraw].
Qed.

Lemma rendered_step (s : State) (e : Event) :
  unsub_ok s -> rendered_ok s -> rendered_ok (step s e).
Proof.
  intros Hu H. destruct e as [latlng| | | |z b| |r]; cbn [step].
  - now apply rendered_onClick.
  - unfold onDblClick. destruct (isDrawingRef s);
      [now apply rendered_finishDrawing | exact H].
  - now apply rendered_startDrawing.
  - destruct (hasUserPolygon s);
      [apply rendered_handleDeletePolygon | exact H].
  - simp. destruct (subscribed s) eqn:Hsub.
    + destruct (z =? map_zoom s)%Z eqn:Hz; cbn [negb].
      * apply Z.eqb_eq in Hz.
        apply (rendered_ext s); [frame..|now simp|exact H].
      * unfold onMoveEnd, onZoomEnd. simp.
        destruct (z <? FETCH_ZOOM_THRESHOLD)%Z eqn:Hlow; cbn [negb].
        -- now apply rendered_empty.
        -- unfold fetchParcelsForView. simp. rewrite Hlow. simp.
           apply Z.ltb_ge in Hlow. destruct H as [Hl _].
           destruct (isDrawingRef s); simp;
             (split; [exact Hl | simp; unfold DRAW_ZOOM_THRESHOLD;
                                 unfold FETCH_ZOOM_THRESHOLD in Hlow; lia]).
    + apply rendered_empty. simp. specialize (Hu Hsub).
      destruct H as [[Hl|Hl] _]; [exact Hl|].
      rewrite Hl, Hu. reflexivity.
  - destruct (timeout s); [|exact H].
    now apply rendered_fetchParcelsForView, rendered_set_timeout.
  - destruct (awaiting s) as [|n]; [exact H|].
    apply rendered_set_subscribed, rendered_resume.
Qed.

Lemma unsub_step (s : State) (e : Event) : unsub_ok s -> unsub_ok (step s e).
Proof.
  unfold unsub_ok. intro H.
  destruct (user_event e) eqn:Hu.
  - destruct (user_event_data s e Hu)
      as (-> & _ & _ & _ & _ & _ & _ & _ & _ & _ & _ & ->).
    exact H.
  - destruct e as [latlng| | | |z b| |r]; try discriminate; cbn [step].
    + simp. destruct (subscribed s) eqn:Hsub.
      * destruct (negb (z =? map_zoom s)%Z).
        -- unfold onMoveEnd, onZoomEnd. simp.
           destruct (z <? FETCH_ZOOM_THRESHOLD)%Z eqn:Hlow; cbn [negb]; simp.
           ++ rewrite Hsub. discriminate.
           ++ unfold fetchParcelsForView. simp. rewrite Hlow. simp.
              destruct (isDrawingRef s); simp; rewrite Hsub; discriminate.
        -- simp. rewrite Hsub. discriminate.
      * intros _. simp. now apply H.
    + destruct (timeout s); [|exact H].
      unfold fetchParcelsForView. simp.
      destruct (map_zoom s <? FETCH_ZOOM_THRESHOLD)%Z; [reflexivity|].
      simp. destruct (isDrawingRef s); exact H.
    + destruct (awaiting s) as [|n]; [exact H|]. simp. discriminate.
Qed.

Lemma unsub_initial (b : Bounds) : unsub_ok (initial b).
Proof. intros _. reflexivity. Qed.

Lemma rendered_initial (b : Bounds) : rendered_ok (initial b).
Proof. apply rendered_empty. reflexivity. Qed.

Lemma reachable_rendered (s : State) :
  reachable s -> unsub_ok s /\ rendered_ok s.
Proof.
  induction 1 as [b|s e _ [IH1 IH2]].
  - split; [apply unsub_initial | apply rendered_initial].
  - split; [now apply unsub_step | now apply rendered_step].
Qed.

Lemma shown_length (filter : option (list Geo.LatLng))
    (parcels : list ParcelRow.t) :
  (List.length (shown filter parcels) <= List.length parcels)%nat.
Proof.
  induction parcels as [|p ps IH]; [reflexivity|].
  unfold shown in *. cbn [flat_map]. rewrite length_app. cbn [List.length].
  destruct (ParcelRow.geometry p); [|cbn; lia].
  destruct (skipped filter p); cbn; lia.
Qed.

(** ** Drawing mode, vertices and cursor *)

Lemma mode_ext (s s' : State) :
  isDrawingRef s' = isDrawingRef s ->
  drawPointsRef s' = drawPointsRef s ->
  map_cursor s' = map_cursor s ->
  mode_ok s -> mode_ok s'.
Proof. unfold mode_ok. intros -> -> ->. exact (fun H => H). Qed.

Lemma mode_finishDrawing (s : State) :
  isDrawingRef s = true ->
  isDrawingRef (finishDrawing s) = false
  /\ drawPointsRef (finishDrawing s) = []
  /\ map_cursor (finishDrawing s) = ""%string.
Proof.
  intro Hd. unfold finishDrawing, drop_drawingLayer. rewrite Hd. cbn [negb].
  simp. destruct (List.length (drawPointsRef s) <? 3)%nat; [frame|].
  rewrite redrawParcels_eq. frame.
Qed.

Lemma mode_ok_finishDrawing (s : State) :
  mode_ok s -> mode_ok (finishDrawing s).
Proof.
  intro H. destruct (isDrawingRef s) eqn:Hd.
  - destruct (mode_finishDrawing s Hd) as (E1 & E2 & E3).
    split; intro E; [now split | congruence].
  - unfold finishDrawing. rewrite Hd. exact H.
Qed.

Lemma mode_ok_onClick (latlng : Geo.LatLng) (s : State) :
  mode_ok s -> mode_ok (onClick latlng s).
Proof.
  intro H. unfold onClick.
  destruct (isDrawingRef s) eqn:Hd; cbn [negb]; [|exact H].
  match goal with
  | |- mode_ok (if ?c then finishDrawing ?t else ?t) =>
      assert (Hd2 : isDrawingRef t = true) by (split_cases; exact Hd);
      assert (Hc : map_cursor t = map_cursor s) by frame;
      assert (E : mode_ok t);
      [|destruct c; [now apply mode_ok_finishDrawing | exact E]]
  end.
  split; intro E; [congruence|]. rewrite Hc. now apply H.
Qed.

Lemma mode_ok_startDrawing (s : State) :
  mode_ok s -> mode_ok (startDrawing s).
Proof.
  intro H. unfold startDrawing, drop_drawingLayer.
  destruct (showZoomMessageRef s || hasUserPolygonRef s || isDrawingRef s);
    [exact H|].
  split; split_cases; intro; try discriminate; reflexivity.
Qed.

Lemma mode_ok_handleDeletePolygon (s : State) :
  isDrawingRef s = false -> mode_ok s -> mode_ok (handleDeletePolygon s).
Proof.
  intros Hd [H _]. destruct (H Hd) as [_ Hc].
  unfold handleDeletePolygon, drop_drawingLayer. rewrite redrawParcels_eq.
  split; split_cases; intro; try discriminate; split; try reflexivity;
    exact Hc.
Qed.

Lemma mode_step (s : State) (e : Event) :
  Inv s -> mode_ok s -> mode_ok (step s e).
Proof.
  intros Hinv H. destruct (user_event e) eqn:Hu.
  - destruct e as [latlng| | | |z b| |r]; try discriminate; cbn [step].
    + now apply mode_ok_onClick.
    + unfold onDblClick. destruct (isDrawingRef s);
        [now apply mode_ok_finishDrawing | exact H].
    + now apply mode_ok_startDrawing.
    + destruct (hasUserPolygon s) eqn:Hp; [|exact H].
      apply mode_ok_handleDeletePolygon; [|exact H].
      destruct (isDrawingRef s) eqn:Hd; [|reflexivity].
      pose proof (inv_exclusive s Hinv Hd) as Hn.
      pose proof (inv_has s Hinv) as Hh.
      destruct (inv_mirror s Hinv) as (_ & Hm & _).
      rewrite Hn in Hh. cbn in Hh. congruence.
  - destruct (view_event_drawing s e Hu)
      as (_ & _ & E1 & E2 & _ & _ & _ & _ & _ & E3).
    now apply (mode_ext s).
Qed.

Lemma mode_initial (b : Bounds) : mode_ok (initial b).
Proof. split; intro; [split; reflexivity | discriminate]. Qed.

Lemma reachable_mode (s : State) : reachable s -> mode_ok s.
Proof.
  induction 1 as [b|s e Hr IH]; [apply mode_initial|].
  apply mode_step; [now apply reachable_Inv | exact IH].
Qed.

(** ** Queries *)

Lemma queries_ext (s s' : State) :
  sent s' = sent s -> awaiting s' = awaiting s -> loading s' = loading s ->
  queries_ok s -> queries_ok s'.
Proof. unfold queries_ok. intros -> -> ->. exact (fun H => H). Qed.

Lemma queries_fetchParcelsForView (s : State) :
  queries_ok s -> queries_ok (fetchParcelsForView s).
Proof.
  intros (Hs & Ha & Hl). unfold fetchParcelsForView.
  destruct (map_zoom s <? FETCH_ZOOM_THRESHOLD)%Z.
  - repeat split; assumption.
  - simp. destruct (isDrawingRef s).
    + repeat split; assumption.
    + split; [|split]; simp.
      * constructor; [now exists (map_bounds s) | exact Hs].
      * lia.
      * discriminate.
Qed.

Lemma queries_resume (r : Response) (s : State) :
  Forall viewport_query (sent s) ->
  (awaiting s <= List.length (sent s))%nat ->
  queries_ok (fetchParcelsForView_resume r s).
Proof.
  intros Hs Ha. unfold fetchParcelsForView_resume.
  destruct (error r); [|rewrite redrawParcels_eq];
    (split; [|split]; simp; [exact Hs | exact Ha | reflexivity]).
Qed.

Lemma queries_step (s : State) (e : Event) :
  queries_ok s -> queries_ok (step s e).
Proof.
  intro H. destruct (user_event e) eqn:Hu.
  - destruct (user_event_data s e Hu)
      as (_ & _ & E1 & E2 & _ & E3 & _).
    now apply (queries_ext s).
  - destruct e as [latlng| | | |z b| |r]; try discriminate; cbn [step].
    + assert (H1 : queries_ok (set_map_bounds b (set_map_zoom z s)))
        by (now apply (queries_ext s)).
      revert H1. generalize (set_map_bounds b (set_map_zoom z s)) as s1.
      intros s1 H1. destruct (subscribed s1); [|exact H1].
      assert (H2 : forall t, queries_ok t -> queries_ok (onMoveEnd t))
        by (intros t Ht; now apply (queries_ext t)).
      apply H2. destruct (negb (z =? map_zoom s)%Z); [|exact H1].
      unfold onZoomEnd.
      destruct (map_zoom s1 <? FETCH_ZOOM_THRESHOLD)%Z; cbn [negb].
      * now apply (queries_ext s1).
      * apply queries_fetchParcelsForView. now apply (queries_ext s1).
    + destruct (timeout s); [|exact H].
      apply queries_fetchParcelsForView. now apply (queries_ext s).
    + destruct (awaiting s) as [|n] eqn:Hn; [exact H|].
      destruct H as (Hs & Ha & _).
      assert (H1 : queries_ok (fetchParcelsForView_resume r (set_awaiting n s)))
        by (apply queries_resume; simp; [exact Hs | lia]).
      revert H1. generalize (fetchParcelsForView_resume r (set_awaiting n s)).
      intros s1 H1. now apply (queries_ext s1).
Qed.

Lemma queries_initial (b : Bounds) : queries_ok (initial b).
Proof.
  unfold initial. apply queries_fetchParcelsForView.
  split; [constructor | split; [simp; lia | reflexivity]].
Qed.

Lemma reachable_queries (s : State) : reachable s -> queries_ok s.
Proof.
  induction 1 as [b|s e _ IH];
    [apply queries_initial | now apply queries_step].
Qed.

(** ** The draw button *)

Lemma button_ext (s s' : State) :
  drawButtonDisabled s' = drawButtonDisabled s ->
  showZoomMessageRef s' = showZoomMessageRef s ->
  hasUserPolygonRef s' = hasUserPolygonRef s ->
  isDrawingRef s' = isDrawingRef s ->
  button_ok s -> button_ok s'.
Proof. unfold button_ok. intros -> -> -> ->. exact (fun H => H). Qed.

Lemma button_finishDrawing (s : State) :
  button_ok s -> button_ok (finishDrawing s).
Proof.
  intro H. unfold finishDrawing, drop_drawingLayer.
  destruct (isDrawingRef s); cbn [negb]; [|exact H].
  simp. destruct (List.length (drawPointsRef s) <? 3)%nat.
  - left. frame.
  - rewrite redrawParcels_eq. left. frame.
Qed.

Lemma button_onClick (latlng : Geo.LatLng) (s : State) :
  button_ok s -> button_ok (onClick latlng s).
Proof.
  intro H. unfold onClick. destruct (isDrawingRef s); cbn [negb]; [|exact H].
  match goal with
  | |- button_ok (if ?c then finishDrawing ?t else ?t) =>
      assert (E : button_ok t) by (apply (button_ext s); [frame..|exact H]);
      destruct c; [now apply button_finishDrawing | exact E]
  end.
Qed.

Lemma button_startDrawing (s : State) :
  button_ok s -> button_ok (startDrawing s).
Proof.
  intro H. unfold startDrawing, drop_drawingLayer.
  destruct (showZoomMessageRef s || hasUserPolygonRef s || isDrawingRef s);
    [exact H|].
  left. frame.
Qed.

Lemma button_handleDeletePolygon (s : State) :
  button_ok (handleDeletePolygon s).
Proof.
  unfold handleDeletePolygon, drop_drawingLayer. rewrite redrawParcels_eq.
  right. frame.
Qed.

Lemma button_fetchParcelsForView (s : State) :
  button_ok (fetchParcelsForView s).
Proof.
  unfold fetchParcelsForView.
  destruct (map_zoom s <? FETCH_ZOOM_THRESHOLD)%Z; [left; reflexivity|].
  simp. destruct (isDrawingRef s) eqn:Hd; left; simp; now rewrite ?Hd.
Qed.

Lemma button_step (s : State) (e : Event) :
  button_ok s -> button_ok (step s e).
Proof.
  intro H. destruct e as [latlng| | | |z b| |r]; cbn [step].
  - now apply button_onClick.
  - unfold onDblClick. destruct (isDrawingRef s);
      [now apply button_finishDrawing | exact H].
  - now apply button_startDrawing.
  - destruct (hasUserPolygon s); [apply button_handleDeletePolygon | exact H].
  - assert (H1 : button_ok (set_map_bounds b (set_map_zoom z s)))
      by (now apply (button_ext s)).
    revert H1. generalize (set_map_bounds b (set_map_zoom z s)) as s1.
    intros s1 H1. destruct (subscribed s1); [|exact H1].
    assert (H2 : forall t, button_ok t -> button_ok (onMoveEnd t))
      by (intros t Ht; now apply (button_ext t)).
    apply H2. destruct (negb (z =? map_zoom s)%Z); [|exact H1].
    unfold onZoomEnd.
    destruct (map_zoom s1 <? FETCH_ZOOM_THRESHOLD)%Z; cbn [negb].
    + left. reflexivity.
    + apply button_fetchParcelsForView.
  - destruct (timeout s); [|exact H]. apply button_fetchParcelsForView.
  - destruct (awaiting s) as [|n]; [exact H|].
    assert (H1 : button_ok (fetchParcelsForView_resume r (set_awaiting n s))).
    { unfold fetchParcelsForView_resume.
      destruct (error r); [|rewrite redrawParcels_eq];
        (apply (button_ext s); [reflexivity..|exact H]). }
    revert H1. generalize (fetchParcelsForView_resume r (set_awaiting n s)).
    intros s1 H1. now apply (button_ext s1).
Qed.

Lemma button_initial (b : Bounds) : button_ok (initial b).
Proof. apply button_fetchParcelsForView. Qed.

Lemma reachable_button (s : State) : reachable s -> button_ok s.
Proof.
  induction 1 as [b|s e _ IH]; [apply button_initial | now apply button_step].
Qed.

(** ** Debounced fetches *)

Lemma pan_fields (s : State) (b : Bounds) :
  subscribed s = true ->
  sent (step s (ViewChange (map_zoom s) b)) = sent s
  /\ awaiting (step s (ViewChange (map_zoom s) b)) = awaiting s
  /\ map_zoom (step s (ViewChange (map_zoom s) b)) = map_zoom s
  /\ isDrawingRef (step s (ViewChange (map_zoom s) b)) = isDrawingRef s
  /\ subscribed (step s (ViewChange (map_zoom s) b)) = true
  /\ timeout (step s (ViewChange (map_zoom s) b)) = true
  /\ map_bounds (step s (ViewChange (map_zoom s) b)) = b.
Proof.
  intro Hsub. cbn [step]. simp. rewrite Hsub, Z.eqb_refl. cbn [negb].
  unfold onMoveEnd. simp. repeat split. exact Hsub.
Qed.

Lemma pans_fields (bs : list Bounds) :
  forall (s : State) (b : Bounds),
    subscribed s = true ->
    sent (run_events s (pans s (bs ++ [b]))) = sent s
    /\ awaiting (run_events s (pans s (bs ++ [b]))) = awaiting s
    /\ map_zoom (run_events s (pans s (bs ++ [b]))) = map_zoom s
    /\ isDrawingRef (run_events s (pans s (bs ++ [b]))) = isDrawingRef s
    /\ subscribed (run_events s (pans s (bs ++ [b]))) = true
    /\ timeout (run_events s (pans s (bs ++ [b]))) = true
    /\ map_bounds (run_events s (pans s (bs ++ [b]))) = b.
Proof.
  induction bs as [|b0 bs IH]; intros s b Hsub.
  - apply pan_fields, Hsub.
  - destruct (pan_fields s b0 Hsub) as (E1 & E2 & E3 & E4 & E5 & _).
    unfold pans, run_events in *. cbn [app map fold_left].
    rewrite <- E3 at 2 4 6 8 10 12 14.
    destruct (IH (step s (ViewChange (map_zoom s) b0)) b E5)
      as (F1 & F2 & F3 & F4 & F5 & F6 & F7).
    repeat split; congruence.
Qed.

Lemma timer_fetches (s : State) :
  timeout s = true ->
  (FETCH_ZOOM_THRESHOLD <= map_zoom s)%Z -> isDrawingRef s = false ->
  sent (step s Timer) = view_query (map_bounds s) :: sent s
  /\ awaiting (step s Timer) = S (awaiting s)
  /\ timeout (step s Timer) = false.
Proof.
  intros Ht Hz Hd. apply Z.ltb_ge in Hz. cbn [step]. rewrite Ht.
  unfold fetchParcelsForView. simp. rewrite Hz. simp. rewrite Hd.
  repeat split.
Qed.

(** ** The base-layer toggle *)

Lemma hasLayer_removeLayer (layers : list nat) (layer l : nat) :
  hasLayer (removeLayer layers layer) l
  = negb (Nat.eqb l layer) && hasLayer layers l.
Proof.
  unfold hasLayer, removeLayer.
  induction layers as [|x t IH]; [now rewrite andb_false_r|].
  cbn [List.filter existsb].
  destruct (Nat.eqb_spec x layer) as [->|Hx]; cbn [negb existsb].
  - rewrite IH. destruct (Nat.eqb_spec l layer); reflexivity.
  - rewrite IH. destruct (Nat.eqb_spec l x) as [->|];
      [|now cbn [orb]].
    destruct (Nat.eqb_spec x layer); [contradiction | reflexivity].
Qed.

Lemma hasLayer_addTo (layers : list nat) (layer l : nat) :
  hasLayer (addTo layer layers) l = hasLayer layers l || Nat.eqb l layer.
Proof.
  unfold hasLayer, addTo. rewrite existsb_app. cbn [existsb].
  now rewrite orb_false_r.
Qed.

Lemma hasLayer_drop (layers : list nat) (layer l : nat) :
  hasLayer (if hasLayer layers layer then removeLayer layers layer else layers) l
  = negb (Nat.eqb l layer) && hasLayer layers l.
Proof.
  destruct (hasLayer layers layer) eqn:E; [apply hasLayer_removeLayer|].
  destruct (Nat.eqb_spec l layer) as [->|]; [|reflexivity]. exact E.
Qed.

Lemma hasLayer_ensure (layers : list nat) (layer l : nat) :
  hasLayer (if negb (hasLayer layers layer) then addTo layer layers else layers) l
  = hasLayer layers l || Nat.eqb l layer.
Proof.
  destruct (hasLayer layers layer) eqn:E; cbn [negb]; [|apply hasLayer_addTo].
  destruct (Nat.eqb_spec l layer) as [->|]; [|now rewrite orb_false_r].
  now rewrite E.
Qed.

Lemma removeLayer_absent (layers : list nat) (layer : nat) :
  hasLayer layers layer = false -> removeLayer layers layer = layers.
Proof.
  unfold hasLayer, removeLayer. induction layers as [|x t IH]; [reflexivity|].
  cbn [existsb List.filter]. rewrite orb_false_iff. intros [Hx Ht].
  rewrite Nat.eqb_sym, Hx. cbn [negb]. now rewrite IH.
Qed.

(** * Further properties of the component *)

Lemma sample_loaded_reachable : reachable sample_loaded.
Proof. unfold sample_loaded. apply reachable_run. constructor. Qed.

Lemma sample_drawing_reachable : reachable sample_drawing.
Proof. unfold sample_drawing. apply reachable_run, sample_loaded_reachable. Qed.

Lemma sample_filtered_reachable : reachable sample_filtered.
Proof. unfold sample_filtered. apply reach_step, sample_drawing_reachable. Qed.

(** X5. In every state the component can reach, the parcel layer is either
    empty or holds exactly the cached parcels that pass the current filter,
    in cache order; it is empty whenever the zoom level is below the draw
    threshold; and it never holds more shapes than the displayed count. *)
Theorem parcel_layer_follows_cache (s : State) :
  reachable s ->
  (parcelsLayer s = [] \/
   parcelsLayer s = shown (filterLatLngs s) (parcelsRef s))
  /\ ((map_zoom s < DRAW_ZOOM_THRESHOLD)%Z -> parcelsLayer s = [])
  /\ (List.length (parcelsLayer s) <= count s)%nat.
Proof.
  intro Hr. destruct (reachable_rendered s Hr) as (_ & Hl & Hz).
  split; [exact Hl|]. split; [exact Hz|].
  rewrite (inv_count s (reachable_Inv s Hr)).
  destruct Hl as [->| ->]; [cbn; lia | apply shown_length].
Qed.

Lemma parcel_layer_follows_cache_witness :
  (List.length (parcelsLayer sample_filtered) <= count sample_filtered)%nat
  /\ ((map_zoom (step sample_filtered (ViewChange 14 sample_bounds))
       < DRAW_ZOOM_THRESHOLD)%Z ->
      parcelsLayer (step sample_filtered (ViewChange 14 sample_bounds)) = []).
Proof.
  split.
  - apply (parcel_layer_follows_cache sample_filtered).
    apply sample_filtered_reachable.
  - apply (parcel_layer_follows_cache
             (step sample_filtered (ViewChange 14 sample_bounds))).
    apply reach_step, sample_filtered_reachable.
Defined.

(** X6. In every state the component can reach: outside drawing mode there
    are no pending vertices, no preview shape, and the cursor is the default
    one; in drawing mode the cursor is the crosshair, no filter polygon is
    installed and at most three vertices are pending; and the React flag
    [isDrawing] agrees with the ref. *)
Theorem drawing_mode_consistent (s : State) :
  reachable s ->
  (isDrawingRef s = false ->
   drawPointsRef s = [] /\ drawingLayerRef s = None
   /\ map_cursor s = ""%string)
  /\ (isDrawingRef s = true ->
      map_cursor s = "crosshair"%string /\ userPolygonRef s = None
      /\ (List.length (drawPointsRef s) <= 3)%nat)
  /\ isDrawing s = isDrawingRef s.
Proof.
  intro Hr. pose proof (reachable_Inv s Hr) as Hinv.
  destruct (reachable_mode s Hr) as [Hidle Hdraw].
  split; [|split].
  - intro Hd. destruct (Hidle Hd) as [Hp Hc].
    split; [exact Hp|]. split; [now apply (inv_preview s Hinv) | exact Hc].
  - intro Hd. split; [now apply Hdraw|].
    split; [now apply (inv_exclusive s Hinv) | apply (inv_points s Hinv)].
  - apply (inv_mirror s Hinv).
Qed.

Lemma drawing_mode_consistent_witness :
  (isDrawingRef sample_drawing = true ->
   map_cursor sample_drawing = "crosshair"%string
   /\ userPolygonRef sample_drawing = None
   /\ (List.length (drawPointsRef sample_drawing) <= 3)%nat)
  /\ (isDrawingRef sample_filtered = false ->
      drawPointsRef sample_filtered = []
      /\ drawingLayerRef sample_filtered = None
      /\ map_cursor sample_filtered = ""%string).
Proof.
  split.
  - apply (drawing_mode_consistent sample_drawing), sample_drawing_reachable.
  - apply (drawing_mode_consistent sample_filtered), sample_filtered_reachable.
Defined.

(** X7. In every state the component can reach there is at most one polygon
    shape on the map: the filter polygon or the drawing preview, never both,
    and no stale shape is left behind. *)
Theorem at_most_one_shape (s : State) :
  reachable s ->
  (List.length (map_shapes s) <= 1)%nat
  /\ (userPolygonRef s = None \/ drawingLayerRef s = None)
  /\ map_shapes s
     = layer_ids (userPolygonRef s) ++ layer_ids (drawingLayerRef s).
Proof.
  intro Hr. pose proof (reachable_Inv s Hr) as Hinv.
  assert (Hone : userPolygonRef s = None \/ drawingLayerRef s = None).
  { destruct (isDrawingRef s) eqn:Hd.
    - left. now apply (inv_exclusive s Hinv).
    - right. now apply (inv_preview s Hinv). }
  split; [|split; [exact Hone | apply (inv_shapes s Hinv)]].
  rewrite (inv_shapes s Hinv).
  destruct Hone as [-> | ->].
  - destruct (drawingLayerRef s); cbn; lia.
  - destruct (userPolygonRef s); cbn; lia.
Qed.

Lemma at_most_one_shape_witness :
  (List.length (map_shapes sample_drawing) <= 1)%nat
  /\ (List.length (map_shapes sample_filtered) <= 1)%nat.
Proof.
  split.
  - apply (at_most_one_shape sample_drawing), sample_drawing_reachable.
  - apply (at_most_one_shape sample_filtered), sample_filtered_reachable.
Defined.

(** X8. Every query the component has sent, in any state it can reach, is
    the viewport query of some bounds (table [parcel_info3], the six
    columns, the four strict bounds, limit 300); and no more queries are
    awaited than were sent. *)
Theorem only_viewport_queries (s : State) :
  reachable s ->
  Forall (fun q => exists b, q = view_query b) (sent s)
  /\ (awaiting s <= List.length (sent s))%nat.
Proof.
  intro Hr. destruct (reachable_queries s Hr) as (Hs & Ha & _).
  split; [exact Hs | exact Ha].
Qed.

Lemma only_viewport_queries_witness :
  Forall (fun q => exists b, q = view_query b) (sent sample_filtered)
  /\ (awaiting sample_filtered <= List.length (sent sample_filtered))%nat.
Proof.
  apply (only_viewport_queries sample_filtered), sample_filtered_reachable.
Defined.

(** X9. In every state the component can reach, once no query is awaited
    the loading indicator is off. *)
Theorem loading_ends (s : State) :
  reachable s -> awaiting s = 0%nat -> loading s = false.
Proof.
  intro Hr. apply (reachable_queries s Hr).
Qed.

Lemma loading_ends_witness :
  loading (step sample_loaded (Settle sample_success)) = false.
Proof.
  apply (loading_ends (step sample_loaded (Settle sample_success)));
    [apply reach_step, sample_loaded_reachable | reflexivity].
Defined.

(** X10. Clicks, double clicks, the draw button and the delete button never
    touch the cache, the count, the queries sent or awaited, the debounce
    timer, the loading flag, the error message, the view or the zoom
    advisory, whatever the state. *)
Theorem user_events_keep_data (s : State) (e : Event) :
  user_event e = true -> same_data (step s e) s.
Proof. apply user_event_data. Qed.

Lemma user_events_keep_data_witness :
  same_data (step sample_drawing (Click P4)) sample_drawing.
Proof. apply (user_events_keep_data sample_drawing (Click P4)). reflexivity. Defined.

(** X11. A change of view, the debounce timer and a settling query never
    touch the filter polygon, the preview, the pending vertices, the drawing
    flags, the polygon shapes on the map or the cursor, whatever the
    state. *)
Theorem view_events_keep_drawing (s : State) (e : Event) :
  user_event e = false -> same_drawing (step s e) s.
Proof. apply view_event_drawing. Qed.

Lemma view_events_keep_drawing_witness :
  same_drawing (step sample_filtered (Settle sample_failure)) sample_filtered.
Proof.
  apply (view_events_keep_drawing sample_filtered (Settle sample_failure)).
  reflexivity.
Defined.

(** X12. Debounce: once the component listens to the map (its initial
    fetch has settled, [subscribed]), after any number of pans (at least
    one) at a zoom level at or above the threshold, outside drawing mode,
    nothing is sent until the timer fires; the timer sends exactly one
    query, for the bounds of the last pan; a second firing of the timer
    sends nothing. *)
Theorem pans_fetch_once (s : State) (bs : list Bounds) (b : Bounds) :
  subscribed s = true ->
  (FETCH_ZOOM_THRESHOLD <= map_zoom s)%Z ->
  isDrawingRef s = false ->
  sent (run_events s (pans s (bs ++ [b]))) = sent s
  /\ sent (step (run_events s (pans s (bs ++ [b]))) Timer)
     = view_query b :: sent s
  /\ awaiting (step (run_events s (pans s (bs ++ [b]))) Timer)
     = S (awaiting s)
  /\ sent (step (step (run_events s (pans s (bs ++ [b]))) Timer) Timer)
     = view_query b :: sent s.
Proof.
  intros Hsub Hz Hd.
  destruct (pans_fields bs s b Hsub) as (E1 & E2 & E3 & E4 & _ & E6 & E7).
  revert E1 E2 E3 E4 E6 E7.
  generalize (run_events s (pans s (bs ++ [b]))) as s1.
  intros s1 E1 E2 E3 E4 E6 E7.
  destruct (timer_fetches s1 E6) as (F1 & F2 & F3); [lia | congruence|].
  split; [exact E1|]. split; [congruence|]. split; [congruence|].
  revert F1 F3. generalize (step s1 Timer) as s2. intros s2 F1 F3.
  cbn [step]. rewrite F3. congruence.
Qed.

Lemma pans_fetch_once_witness :
  sent (step (run_events sample_loaded
                (pans sample_loaded ([sample_bounds; sample_bounds] ++ [sample_bounds])))
          Timer)
  = view_query sample_bounds :: sent sample_loaded.
Proof.
  destruct (pans_fetch_once sample_loaded [sample_bounds; sample_bounds]
              sample_bounds) as (_ & H & _).
  - vm_compute. reflexivity.
  - vm_compute. discriminate.
  - vm_compute. reflexivity.
  - exact H.
Defined.

(** X13. Once the component listens to the map (its initial fetch has
    settled, [subscribed]), a change of zoom level to a level at or above
    the threshold, outside drawing mode, sends two queries for the new
    bounds: one from the [zoomend] handler at once, one from the [moveend]
    timer. *)
Theorem zoom_change_fetches_twice (s : State) (z : Z) (b : Bounds) :
  subscribed s = true ->
  isDrawingRef s = false ->
  z <> map_zoom s ->
  (FETCH_ZOOM_THRESHOLD <= z)%Z ->
  sent (step s (ViewChange z b)) = view_query b :: sent s
  /\ sent (step (step s (ViewChange z b)) Timer)
     = view_query b :: view_query b :: sent s
  /\ awaiting (step (step s (ViewChange z b)) Timer) = S (S (awaiting s)).
Proof.
  intros Hsub Hd Hne Hz.
  assert (Hne' : negb (z =? map_zoom s)%Z = true)
    by (now apply negb_true_iff, Z.eqb_neq).
  apply Z.ltb_ge in Hz.
  assert (E : step s (ViewChange z b)
              = onMoveEnd (onZoomEnd (set_map_bounds b (set_map_zoom z s)))).
  { cbn [step]. simp. rewrite Hsub, Hne'. reflexivity. }
  rewrite E. cbn [step].
  unfold onMoveEnd, onZoomEnd, fetchParcelsForView.
  repeat (progress (simp; rewrite ?Hz, ?Hd)).
  repeat split.
Qed.

Lemma zoom_change_fetches_twice_witness :
  sent (step (step sample_loaded (ViewChange 18 sample_bounds)) Timer)
  = view_query sample_bounds :: view_query sample_bounds :: sent sample_loaded.
Proof.
  destruct (zoom_change_fetches_twice sample_loaded 18 sample_bounds)
    as (_ & H & _).
  - vm_compute. reflexivity.
  - vm_compute. reflexivity.
  - vm_compute. discriminate.
  - vm_compute. discriminate.
  - exact H.
Defined.

(** X14. In every state the component can reach, the draw button is enabled
    only when no filter polygon exists and drawing is not under way, and it
    is disabled only when the zoom advisory shows, a filter polygon exists
    or drawing is under way. *)
Theorem draw_button_reflects_state (s : State) :
  reachable s ->
  (drawButtonDisabled s = false ->
   hasUserPolygonRef s = false /\ isDrawingRef s = false)
  /\ (drawButtonDisabled s = true ->
      showZoomMessageRef s || hasUserPolygonRef s || isDrawingRef s = true).
Proof.
  intro Hr. destruct (reachable_button s Hr) as [E|(E1 & E2 & E3)].
  - rewrite E. split; [|exact (fun H => H)].
    intro H. apply orb_false_iff in H as [H ?].
    apply orb_false_iff in H as [_ ?]. now split.
  - split; [now split | congruence].
Qed.

Lemma draw_button_reflects_state_witness :
  (drawButtonDisabled sample_loaded = false ->
   hasUserPolygonRef sample_loaded = false /\ isDrawingRef sample_loaded = false)
  /\ (drawButtonDisabled sample_filtered = true ->
      showZoomMessageRef sample_filtered || hasUserPolygonRef sample_filtered
      || isDrawingRef sample_filtered = true).
Proof.
  split.
  - apply (draw_button_reflects_state sample_loaded), sample_loaded_reachable.
  - apply (draw_button_reflects_state sample_filtered), sample_filtered_reachable.
Defined.

(** X15. A query that settles successfully while the zoom level is below
    the threshold still replaces the cache and the displayed count by the
    rows that have a geometry, and draws nothing. *)
Theorem late_result_below_threshold (s : State) (r : Response) (n : nat) :
  awaiting s = S n ->
  error r = None ->
  (map_zoom s < DRAW_ZOOM_THRESHOLD)%Z ->
  let rows := match data r with Some rows => rows | None => [] end in
  parcelsRef (step s (Settle r)) = List.filter has_geometry rows
  /\ count (step s (Settle r)) = List.length (List.filter has_geometry rows)
  /\ parcelsLayer (step s (Settle r)) = []
  /\ showZoomMessage (step s (Settle r)) = showZoomMessage s.
Proof.
  intros Ha He Hz rows. apply Z.ltb_lt in Hz.
  cbn [step]. rewrite Ha. unfold fetchParcelsForView_resume. rewrite He.
  fold rows. rewrite redrawParcels_eq. simp. rewrite Hz. repeat split.
Qed.

Lemma late_result_below_threshold_witness :
  count (step sample_zoomed_out (Settle sample_success))
  = List.length (List.filter has_geometry sample_rows)
  /\ parcelsLayer (step sample_zoomed_out (Settle sample_success)) = [].
Proof.
  destruct (late_result_below_threshold sample_zoomed_out sample_success 1)
    as (_ & Hc & Hl & _).
  - vm_compute. reflexivity.
  - reflexivity.
  - vm_compute. reflexivity.
  - split; [exact Hc | exact Hl].
Defined.

(** X16. Once the map and both base layers exist, the base-layer effect
    leaves on the map exactly the base layer that [viewType] names, leaves
    every other layer as it was, and running it again changes nothing; while
    a ref is still null it does nothing. *)
Theorem baseLayerEffect_shows_selected (viewType : ViewType)
    (map : list nat) (street sat : nat) :
  street <> sat ->
  (exists map',
      baseLayerEffect viewType (Some map) (Some street) (Some sat) = Some map'
      /\ hasLayer map' street
         = match viewType with Street => true | Satellite => false end
      /\ hasLayer map' sat
         = match viewType with Street => false | Satellite => true end
      /\ (forall l, l <> street -> l <> sat -> hasLayer map' l = hasLayer map l)
      /\ baseLayerEffect viewType (Some map') (Some street) (Some sat)
         = Some map')
  /\ baseLayerEffect viewType None (Some street) (Some sat) = None
  /\ baseLayerEffect viewType (Some map) None (Some sat) = Some map
  /\ baseLayerEffect viewType (Some map) (Some street) None = Some map.
Proof.
  intro Hne.
  assert (N1 : Nat.eqb street sat = false) by (now apply Nat.eqb_neq).
  assert (N2 : Nat.eqb sat street = false)
    by (apply Nat.eqb_neq; congruence).
  split; [|repeat split].
  destruct viewType; cbn [baseLayerEffect]; eexists; (split; [reflexivity|]).
  - assert (Hs : hasLayer
                   (if negb (hasLayer (if hasLayer map sat
                                       then removeLayer map sat else map) street)
                    then addTo street (if hasLayer map sat
                                       then removeLayer map sat else map)
                    else if hasLayer map sat then removeLayer map sat else map)
                   street = true)
      by (rewrite hasLayer_ensure, Nat.eqb_refl; apply orb_true_r).
    assert (Ht : hasLayer
                   (if negb (hasLayer (if hasLayer map sat
                                       then removeLayer map sat else map) street)
                    then addTo street (if hasLayer map sat
                                       then removeLayer map sat else map)
                    else if hasLayer map sat then removeLayer map sat else map)
                   sat = false)
      by (rewrite hasLayer_ensure, hasLayer_drop, Nat.eqb_refl, N2;
          reflexivity).
    split; [exact Hs|]. split; [exact Ht|]. split.
    + intros l H1 H2. rewrite hasLayer_ensure, hasLayer_drop.
      apply Nat.eqb_neq in H1, H2. rewrite H1, H2. cbn [negb andb].
      apply orb_false_r.
    + revert Hs Ht. generalize (if negb (hasLayer (if hasLayer map sat
                                       then removeLayer map sat else map) street)
                    then addTo street (if hasLayer map sat
                                       then removeLayer map sat else map)
                    else if hasLayer map sat then removeLayer map sat else map).
      intros m Hs Ht. rewrite Ht, Hs. reflexivity.
  - assert (Hs : hasLayer
                   (if negb (hasLayer (if hasLayer map street
                                       then removeLayer map street else map) sat)
                    then addTo sat (if hasLayer map street
                                    then removeLayer map street else map)
                    else if hasLayer map street then removeLayer map street
                         else map)
                   sat = true)
      by (rewrite hasLayer_ensure, Nat.eqb_refl; apply orb_true_r).
    assert (Ht : hasLayer
                   (if negb (hasLayer (if hasLayer map street
                                       then removeLayer map street else map) sat)
                    then addTo sat (if hasLayer map street
                                    then removeLayer map street else map)
                    else if hasLayer map street then removeLayer map street
                         else map)
                   street = false)
      by (rewrite hasLayer_ensure, hasLayer_drop, Nat.eqb_refl, N1;
          reflexivity).
    split; [exact Ht|]. split; [exact Hs|]. split.
    + intros l H1 H2. rewrite hasLayer_ensure, hasLayer_drop.
      apply Nat.eqb_neq in H1, H2. rewrite H1, H2. cbn [negb andb].
      apply orb_false_r.
    + revert Hs Ht. generalize (if negb (hasLayer (if hasLayer map street
                                       then removeLayer map street else map) sat)
                    then addTo sat (if hasLayer map street
                                    then removeLayer map street else map)
                    else if hasLayer map street then removeLayer map street
                         else map).
      intros m Hs Ht. rewrite Ht, Hs. reflexivity.
Qed.

Lemma baseLayerEffect_shows_selected_witness :
  exists map',
    baseLayerEffect Street (Some [1; 2]%nat) (Some 0%nat) (Some 1%nat)
    = Some map'
    /\ hasLayer map' 0 = true /\ hasLayer map' 1 = false.
Proof.
  destruct (baseLayerEffect_shows_selected Street [1; 2]%nat 0%nat 1%nat)
    as ((map' & E & H1 & H2 & _) & _).
  - discriminate.
  - exists map'. split; [exact E|]. split; [exact H1 | exact H2].
Defined.

(** ** Clicks while drawing *)

Lemma onClick_adds (latlng : Geo.LatLng) (s : State) :
  isDrawingRef s = true ->
  (List.length (drawPointsRef s) < 3)%nat ->
  isDrawingRef (onClick latlng s) = true
  /\ drawPointsRef (onClick latlng s) = drawPointsRef s ++ [latlng]
  /\ userPolygonRef (onClick latlng s) = userPolygonRef s
  /\ parcelsRef (onClick latlng s) = parcelsRef s
  /\ map_zoom (onClick latlng s) = map_zoom s.
Proof.
  intros Hd Hlen. unfold onClick. rewrite Hd. cbn [negb].
  match goal with
  | |- context [if ?c then finishDrawing ?t else ?t] =>
      assert (Hpts : drawPointsRef t = drawPointsRef s ++ [latlng]) by frame;
      replace c with false
        by (symmetry; apply Nat.leb_gt; rewrite Hpts, length_app; cbn; lia)
  end.
  frame.
Qed.

Lemma onClick_finishes (latlng : Geo.LatLng) (s : State) :
  isDrawingRef s = true ->
  List.length (drawPointsRef s) = 3%nat ->
  (exists polygon,
      userPolygonRef (onClick latlng s) = Some polygon
      /\ getLatLngs polygon
         = [Leaflet.convertLatLngs (drawPointsRef s ++ [latlng])])
  /\ isDrawingRef (onClick latlng s) = false
  /\ parcelsLayer (onClick latlng s)
     = (if (map_zoom s <? DRAW_ZOOM_THRESHOLD)%Z then []
        else shown (Some (Leaflet.convertLatLngs (drawPointsRef s ++ [latlng])))
               (parcelsRef s)).
Proof.
  intros Hd Hlen. unfold onClick. rewrite Hd. cbn [negb].
  match goal with
  | |- context [if ?c then finishDrawing ?t else ?t] =>
      assert (Hpts : drawPointsRef t = drawPointsRef s ++ [latlng]) by frame;
      assert (Hd2 : isDrawingRef t = true) by (split_cases; exact Hd);
      assert (Hz : map_zoom t = map_zoom s) by frame;
      assert (Hc : parcelsRef t = parcelsRef s) by frame;
      replace c with true
        by (rewrite Hpts, length_app, Hlen; reflexivity);
      destruct (finishDrawing_installs t Hd2)
        as (Hu & _ & _ & _ & _ & Hd' & _ & Hl)
  end.
  - rewrite Hpts, length_app, Hlen. cbn. lia.
  - assert (Hall : firstn 4 (drawPointsRef s ++ [latlng])
                   = drawPointsRef s ++ [latlng])
      by (apply firstn_all2; rewrite length_app, Hlen; cbn; lia).
    rewrite Hpts, Hall in Hu, Hl. rewrite Hz, Hc in Hl.
    split; [|split; [exact Hd' | exact Hl]].
    eexists. split; [exact Hu | reflexivity].
Qed.

Lemma shown_same_filter (r1 r2 : list Geo.LatLng) (parcels : list ParcelRow.t) :
  (forall lon lat, Geo.pointInPolygon lon lat r1 = Geo.pointInPolygon lon lat r2) ->
  shown (Some r1) parcels = shown (Some r2) parcels.
Proof.
  intro H. unfold shown.
  induction parcels as [|p ps IH]; [reflexivity|]. cbn [flat_map].
  rewrite IH. f_equal. unfold skipped.
  destruct (ParcelRow.geometry p), (ParcelRow.lat p), (ParcelRow.lon p);
    try reflexivity.
  now rewrite H.
Qed.

Lemma convertLatLngs_doubled_end (a b c : Geo.LatLng) :
  Leaflet.convertLatLngs [a; b; c; c] = [a; b; c; c]
  \/ Leaflet.convertLatLngs [a; b; c; c] = [a; b; c].
Proof.
  destruct (convertLatLngs_cases [a; b; c; c]) as [H | (H & _)];
    [now left | now right].
Qed.

(** X17. Finishing a triangle with a double click on its third vertex: the
    two clicks of the double click enter that vertex twice, the second of
    them is the fourth vertex and finishes the drawing, and the [dblclick]
    that follows finds nothing to do.  The filter polygon then holds what
    the library makes of [a; b; c; c]: that ring itself, or [a; b; c] when
    [c] repeats [a].  Either way it filters exactly as the triangle
    [a; b; c] does, so the layer shows the cached parcels that pass the
    triangle. *)
Theorem double_click_closes_triangle (s : State) (a b c : Geo.LatLng) :
  isDrawingRef s = true ->
  drawPointsRef s = [a; b] ->
  (exists polygon ring,
      userPolygonRef (run_events s [Click c; Click c; DblClick]) = Some polygon
      /\ getLatLngs polygon = [ring]
      /\ ring = Leaflet.convertLatLngs [a; b; c; c]
      /\ (ring = [a; b; c; c] \/ ring = [a; b; c])
      /\ forall lon lat,
           Geo.pointInPolygon lon lat ring
           = Geo.pointInPolygon lon lat [a; b; c])
  /\ isDrawingRef (run_events s [Click c; Click c; DblClick]) = false
  /\ parcelsLayer (run_events s [Click c; Click c; DblClick])
     = (if (map_zoom s <? DRAW_ZOOM_THRESHOLD)%Z then []
        else shown (Some [a; b; c]) (parcelsRef s)).
Proof.
  intros Hd Hpts.
  assert (Hsame : forall lon lat,
             Geo.pointInPolygon lon lat (Leaflet.convertLatLngs [a; b; c; c])
             = Geo.pointInPolygon lon lat [a; b; c]).
  { intros lon lat. destruct (convertLatLngs_doubled_end a b c) as [-> | ->];
      [|reflexivity].
    apply (pointInPolygon_repeat Geo.float_ops lon lat c [a; b] []). }
  destruct (onClick_adds c s Hd) as (D1 & P1 & _ & C1 & Z1);
    [rewrite Hpts; cbn; lia|].
  rewrite Hpts in P1. cbn [app] in P1.
  change (run_events s [Click c; Click c; DblClick])
    with (step (step (onClick c s) (Click c)) DblClick).
  revert D1 P1 C1 Z1. generalize (onClick c s) as s1. intros s1 D1 P1 C1 Z1.
  change (step s1 (Click c)) with (onClick c s1).
  destruct (onClick_finishes c s1 D1) as ((polygon & U2 & G2) & D2 & L2);
    [now rewrite P1|].
  rewrite P1 in G2, L2. cbn [app] in G2, L2. rewrite Z1, C1 in L2.
  revert U2 D2 L2. generalize (onClick c s1) as s2. intros s2 U2 D2 L2.
  cbn [step]. unfold onDblClick. rewrite D2.
  split; [|split; [exact D2|]].
  - exists polygon, (Leaflet.convertLatLngs [a; b; c; c]).
    split; [exact U2|]. split; [exact G2|]. split; [reflexivity|].
    split; [apply convertLatLngs_doubled_end | exact Hsame].
  - rewrite L2. destruct (map_zoom s <? DRAW_ZOOM_THRESHOLD)%Z; [reflexivity|].
    now apply shown_same_filter.
Qed.

Lemma double_click_closes_triangle_witness :
  isDrawingRef
    (run_events (run_events sample_loaded [DrawButton; Click P1; Click P2])
       [Click P3; Click P3; DblClick]) = false.
Proof.
  destruct (double_click_closes_triangle
              (run_events sample_loaded [DrawButton; Click P1; Click P2])
              P1 P2 P3) as (_ & H & _).
  - vm_compute. reflexivity.
  - vm_compute. reflexivity.
  - exact H.
Defined.
